(** * Token table synchronisation engine: a shallow embedding

    The development follows the TypeScript sources:
    - [utils/formatters.ts]      : [safeParseFloat], [truncateAddress]
    - [utils/tokenUtils.ts]      : [chainIdToName], [calculateMarketCap],
                                   [scannerResultToToken]
    - [utils/combinedFilters.ts] : presets, [applyCombinedFilterToParams],
                                   [passesAdditionalChecks], [calculateRiskScore],
                                   [buildApiParamsWithCombinedFilters]
    - [hooks/useTokenData.ts]    : the hook state, [loadData], [loadMore],
                                   [subscribeToTokens], [handleWebSocketMessage]
    - [services/websocket.ts]    : the class [WebSocketService]: [send] and
                                   the subscription methods, [connect],
                                   [disconnect], [scheduleReconnect],
                                   [resubscribeAll], the socket handlers

    A JavaScript [number] is an IEEE-754 binary64 value and is modelled by
    Rocq's primitive [float]. A [Date] is modelled by its time value (a
    number of milliseconds, NaN for an invalid date). Builtins whose result
    depends on the host ([parseFloat], date parsing, [JSON.stringify] of
    message data, [JSON.parse]) are variables of the sections that use them; the clock ([Date.now()], [new Date()]) is an
    explicit argument [now]. *)

From Stdlib Require Import List String Ascii Bool ZArith Lia.
From Stdlib Require Import Uint63 Floats.
Import ListNotations.

Set Implicit Arguments.
#[local] Set Warnings "-inexact-float".

Local Open Scope string_scope.
Local Open Scope list_scope.

(** ** JavaScript values *)

Module Js.

(** A JS number. *)
Definition number := float.

Definition nan : number := PrimFloat.nan.
Definition isNaN (x : number) : bool := PrimFloat.is_nan x.

(** [ToBoolean] on a number: false on +0, -0 and NaN. *)
Definition truthy_num (x : number) : bool :=
  negb (PrimFloat.eqb x 0%float || isNaN x).

(** [ToBoolean] on a string: false on the empty string only. *)
Definition truthy_str (s : string) : bool :=
  negb (String.eqb s "").

(** [a > b], [a < b] on numbers. *)
Definition gt (a b : number) : bool := PrimFloat.ltb b a.
Definition lt (a b : number) : bool := PrimFloat.ltb a b.

(** [Math.max(a, b)] and [Math.min(a, b)]: NaN if either argument is NaN,
    and -0 is smaller than +0. *)
Definition is_neg_zero (x : number) : bool :=
  PrimFloat.eqb x 0%float && PrimFloat.ltb (PrimFloat.div 1%float x) 0%float.

Definition Math_max (a b : number) : number :=
  if isNaN a || isNaN b then nan
  else if PrimFloat.ltb a b then b
  else if PrimFloat.ltb b a then a
  else if is_neg_zero a then b else a.

Definition Math_min (a b : number) : number :=
  if isNaN a || isNaN b then nan
  else if PrimFloat.ltb a b then a
  else if PrimFloat.ltb b a then b
  else if is_neg_zero a then a else b.

Definition Math_abs (a : number) : number := PrimFloat.abs a.

(** The number holding a non-negative integer (an array length, a
    literal). *)
Definition of_Z (z : Z) : number := PrimFloat.of_uint63 (Uint63.of_Z z).
Definition of_nat (n : nat) : number := of_Z (Z.of_nat n).

(** A value of type [string | number | null | undefined], the argument
    type of [safeParseFloat]. *)
Inductive raw :=
| RUndefined
| RNull
| RStr (s : string)
| RNum (x : number).

(** An optional property [p?: T | null]. A property that is absent and a
    property holding [undefined] read the same and are not told apart. *)
Inductive opt (A : Type) :=
| Undef
| Null
| Val (a : A).
Arguments Undef {A}.
Arguments Null {A}.
Arguments Val {A} a.

End Js.
Import Js.

(** ** utils/formatters.ts *)

Section Formatters.

(** The builtin [parseFloat] on strings. *)
Variable parseFloat : string -> number.

(** [safeParseFloat(value, fallback = 0)]. *)
Definition safeParseFloat' (value : raw) (fallback : number) : number :=
  match value with
  | RNull | RUndefined => fallback
  | RStr s =>
      if String.eqb s "" then fallback
      else let parsed := parseFloat s in
           if isNaN parsed then fallback else parsed
  | RNum x => if isNaN x then fallback else x
  end.

Definition safeParseFloat (value : raw) : number := safeParseFloat' value 0%float.

End Formatters.

(** A reference instance of [parseFloat] for closed examples: unsigned or
    signed plain decimals ([digits], [digits.digits]) of a few digits, on
    which the quotient below is the correctly rounded value; NaN when the
    text does not start with a digit. *)
Module RefParse.

Definition digit_of (c : ascii) : option Z :=
  let n := Z.of_nat (nat_of_ascii c) in
  if ((48 <=? n) && (n <=? 57))%Z then Some (n - 48)%Z else None.

(** Reads the longest prefix of digits: value, number of digits, rest. *)
Fixpoint digits (s : string) (acc : Z) (len : nat) : Z * nat * string :=
  match s with
  | EmptyString => (acc, len, s)
  | String c rest =>
      match digit_of c with
      | Some d => digits rest (10 * acc + d)%Z (S len)
      | None => (acc, len, s)
      end
  end.

Definition unsigned (s : string) : number :=
  let '(ip, n, rest) := digits s 0%Z 0 in
  match n with
  | O => nan
  | _ =>
      match rest with
      | String "." frac =>
          let '(fp, k, _) := digits frac 0%Z 0 in
          PrimFloat.div (of_Z (ip * 10 ^ Z.of_nat k + fp)) (of_Z (10 ^ Z.of_nat k))
      | _ => of_Z ip
      end
  end.

Definition parseFloat (s : string) : number :=
  match s with
  | String "-" rest => PrimFloat.opp (unsigned rest)
  | _ => unsigned s
  end.

End RefParse.


(** ** types/test-task-types.ts *)

Inductive SupportedChainName := ETH | SOL | BASE | BSC.
Inductive OrderBy := asc | desc.
Inductive TimeFrame := TF_5M | TF_1H | TF_6H | TF_24H.
Inductive SerdeRankBy :=
| price5M | price1H | price6H | price24H | volume | txns | buys | sells
| trending | age | liquidity | mcap | migration.

(** [GetScannerResultParams]: every property is optional. *)
Module Params.
Record t := {
  chain : opt SupportedChainName;
  orderBy : opt OrderBy;
  rankBy : opt SerdeRankBy;
  timeFrame : opt TimeFrame;
  page : opt number;
  isNotHP : opt bool;
  isVerified : opt bool;
  minVol24H : opt number;
  maxVol24H : opt number;
  minAge : opt number;
  maxAge : opt number;
  minLiq : opt number;
  maxLiq : opt number;
  minBuys24H : opt number;
  minSells24H : opt number;
  minTxns24H : opt number;
  dexes : opt (list string);
  virtualDexes : opt (list string)
}.

(** The object literal [{}]. *)
Definition empty : t :=
  {| chain := Undef; orderBy := Undef; rankBy := Undef; timeFrame := Undef;
     page := Undef; isNotHP := Undef; isVerified := Undef;
     minVol24H := Undef; maxVol24H := Undef; minAge := Undef; maxAge := Undef;
     minLiq := Undef; maxLiq := Undef; minBuys24H := Undef;
     minSells24H := Undef; minTxns24H := Undef; dexes := Undef;
     virtualDexes := Undef |}.

(** Assignments [params.p = v] used by the sources. *)
Definition set_chain (v : opt SupportedChainName) (p : t) : t :=
  {| chain := v; orderBy := orderBy p; rankBy := rankBy p;
     timeFrame := timeFrame p; page := page p; isNotHP := isNotHP p;
     isVerified := isVerified p; minVol24H := minVol24H p;
     maxVol24H := maxVol24H p; minAge := minAge p; maxAge := maxAge p;
     minLiq := minLiq p; maxLiq := maxLiq p; minBuys24H := minBuys24H p;
     minSells24H := minSells24H p; minTxns24H := minTxns24H p;
     dexes := dexes p; virtualDexes := virtualDexes p |}.

Definition set_orderBy (v : opt OrderBy) (p : t) : t :=
  {| chain := chain p; orderBy := v; rankBy := rankBy p;
     timeFrame := timeFrame p; page := page p; isNotHP := isNotHP p;
     isVerified := isVerified p; minVol24H := minVol24H p;
     maxVol24H := maxVol24H p; minAge := minAge p; maxAge := maxAge p;
     minLiq := minLiq p; maxLiq := maxLiq p; minBuys24H := minBuys24H p;
     minSells24H := minSells24H p; minTxns24H := minTxns24H p;
     dexes := dexes p; virtualDexes := virtualDexes p |}.

Definition set_rankBy (v : opt SerdeRankBy) (p : t) : t :=
  {| chain := chain p; orderBy := orderBy p; rankBy := v;
     timeFrame := timeFrame p; page := page p; isNotHP := isNotHP p;
     isVerified := isVerified p; minVol24H := minVol24H p;
     maxVol24H := maxVol24H p; minAge := minAge p; maxAge := maxAge p;
     minLiq := minLiq p; maxLiq := maxLiq p; minBuys24H := minBuys24H p;
     minSells24H := minSells24H p; minTxns24H := minTxns24H p;
     dexes := dexes p; virtualDexes := virtualDexes p |}.

Definition set_page (v : opt number) (p : t) : t :=
  {| chain := chain p; orderBy := orderBy p; rankBy := rankBy p;
     timeFrame := timeFrame p; page := v; isNotHP := isNotHP p;
     isVerified := isVerified p; minVol24H := minVol24H p;
     maxVol24H := maxVol24H p; minAge := minAge p; maxAge := maxAge p;
     minLiq := minLiq p; maxLiq := maxLiq p; minBuys24H := minBuys24H p;
     minSells24H := minSells24H p; minTxns24H := minTxns24H p;
     dexes := dexes p; virtualDexes := virtualDexes p |}.

Definition set_minLiq (v : opt number) (p : t) : t :=
  {| chain := chain p; orderBy := orderBy p; rankBy := rankBy p;
     timeFrame := timeFrame p; page := page p; isNotHP := isNotHP p;
     isVerified := isVerified p; minVol24H := minVol24H p;
     maxVol24H := maxVol24H p; minAge := minAge p; maxAge := maxAge p;
     minLiq := v; maxLiq := maxLiq p; minBuys24H := minBuys24H p;
     minSells24H := minSells24H p; minTxns24H := minTxns24H p;
     dexes := dexes p; virtualDexes := virtualDexes p |}.
End Params.

(** [ScannerResult]: the properties the normaliser reads. Numeric strings
    are declared [string]; the feed and the tests also deliver [null] and
    [undefined] there, which [safeParseFloat] accepts, hence [raw]. *)
Module ScannerResult.
Record t := {
  age : string;
  buys : opt number;
  sells : opt number;
  chainId : number;
  contractVerified : bool;
  currentMcap : raw;
  dexPaid : bool;
  diff5M : raw;
  diff1H : raw;
  diff6H : raw;
  diff24H : raw;
  discordLink : opt string;
  telegramLink : opt string;
  twitterLink : opt string;
  webLink : opt string;
  honeyPot : opt bool;
  initialMcap : raw;
  isFreezeAuthDisabled : bool;
  isMintAuthDisabled : bool;
  liquidity : raw;
  migrationProgress : opt string;
  pairAddress : string;
  pairMcapUsd : raw;
  pairMcapUsdInitial : raw;
  percentChangeInLiquidity : raw;
  price : raw;
  token1Address : string;
  token1Name : string;
  token1Symbol : string;
  token1TotalSupplyFormatted : raw;
  virtualRouterType : opt string;
  volume : raw
}.
End ScannerResult.

Record ScannerApiResponse := {
  pairs : list ScannerResult.t;
  resp_totalRows : number
}.

(** [WsTokenSwap]: the two properties the tick handler reads. *)
Record WsTokenSwap := {
  priceToken1Usd : string;
  isOutlier : bool
}.

(** [TickEventPayload]; of [pair] only the pair address is read. *)
Record TickEventPayload := {
  tick_pair : string;
  swaps : list WsTokenSwap
}.

(** [ScannerPairDetails]: the properties the pair-stats handler reads. *)
Module PairDetails.
Record t := {
  pairAddress : string;
  mintAuthorityRenounced : bool;
  freezeAuthorityRenounced : bool;
  token1IsHoneypot : opt bool;
  isVerified : bool;
  linkDiscord : opt string;
  linkTelegram : opt string;
  linkTwitter : opt string;
  linkWebsite : opt string;
  dexPaid : bool
}.
End PairDetails.

Record PairStatsMsgData := {
  stats_pair : PairDetails.t;
  stats_migrationProgress : string
}.

Inductive IncomingWebSocketMessage :=
| Tick (data : TickEventPayload)
| PairStats (data : PairStatsMsgData)
| ScannerPairs (results_pairs : list ScannerResult.t).

(** A [Date], by its time value. *)
Definition Date := number.

Record Audit := {
  mintable : bool;
  freezable : bool;
  honeypot : bool;
  audit_contractVerified : bool
}.

Record SocialLinks := {
  discord : option string;
  telegram : option string;
  twitter : option string;
  website : option string
}.

(** [TokenData]. The mock [priceHistory] (random, presentation only) is
    not tracked. *)
Module TokenData.
Record t := {
  id : string;
  tokenName : string;
  tokenSymbol : string;
  tokenAddress : string;
  pairAddress : string;
  chain : SupportedChainName;
  exchange : string;
  priceUsd : number;
  volumeUsd : number;
  mcap : number;
  totalSupply : number;
  priceChange5M : number;
  priceChange1H : number;
  priceChange6H : number;
  priceChange24H : number;
  buys : number;
  sells : number;
  audit : Audit;
  tokenCreatedTimestamp : Date;
  liquidity_current : number;
  liquidity_changePc : number;
  migrationPc : option number;
  socialLinks : option SocialLinks;
  dexPaid : option bool;
  lastUpdated : Date
}.
End TokenData.

Inductive CombinedFilterName := moonshot | blue_chip | scalp | hodl | custom.

(** [CombinedFilterType]: a preset name or [null]. *)
Definition CombinedFilterType := option CombinedFilterName.

Record FilterState := {
  chains : list SupportedChainName;
  minVolume : option number;
  fs_maxAge : option number;
  minMarketCap : option number;
  excludeHoneypots : bool;
  combinedFilter : CombinedFilterType
}.

Record AdditionalChecks := {
  minPriceChange5M : option number;
  maxPriceChange5M : option number;
  minVolumeGrowth : option number;
  minLiquidityRatio : option number;
  maxRiskScore : option number;
  minTransactionCount : option number;
  requiresSocialLinks : option bool
}.

Record CombinedFilterConfig := {
  cf_type : CombinedFilterType;
  criteria : Params.t;
  additionalChecks : option AdditionalChecks
}.

(** [COMBINED_FILTER_PRESETS]; [custom] maps to [null]. Display name,
    description and emoji are left out. *)
Definition COMBINED_FILTER_PRESETS (name : CombinedFilterName)
  : option CombinedFilterConfig :=
  match name with
  | moonshot => Some
      {| cf_type := Some moonshot;
         criteria :=
           {| Params.chain := Undef; Params.orderBy := Val desc;
              Params.rankBy := Val volume; Params.timeFrame := Undef;
              Params.page := Undef; Params.isNotHP := Val true;
              Params.isVerified := Undef;
              Params.minVol24H := Val 5000%float; Params.maxVol24H := Undef;
              Params.minAge := Undef;
              Params.maxAge := Val (24 * 60 * 60)%float;
              Params.minLiq := Undef; Params.maxLiq := Undef;
              Params.minBuys24H := Undef; Params.minSells24H := Undef;
              Params.minTxns24H := Undef; Params.dexes := Undef;
              Params.virtualDexes := Undef |};
         additionalChecks := Some
           {| minPriceChange5M := Some 5%float; maxPriceChange5M := None;
              minVolumeGrowth := Some 50%float; minLiquidityRatio := None;
              maxRiskScore := Some 70%float;
              minTransactionCount := Some 20%float;
              requiresSocialLinks := None |} |}
  | blue_chip => Some
      {| cf_type := Some blue_chip;
         criteria :=
           {| Params.chain := Undef; Params.orderBy := Val desc;
              Params.rankBy := Val volume; Params.timeFrame := Undef;
              Params.page := Undef; Params.isNotHP := Val true;
              Params.isVerified := Val true;
              Params.minVol24H := Val 100000%float; Params.maxVol24H := Undef;
              Params.minAge := Undef;
              Params.maxAge := Val (30 * 24 * 60 * 60)%float;
              Params.minLiq := Val 50000%float; Params.maxLiq := Undef;
              Params.minBuys24H := Undef; Params.minSells24H := Undef;
              Params.minTxns24H := Undef; Params.dexes := Undef;
              Params.virtualDexes := Undef |};
         additionalChecks := Some
           {| minPriceChange5M := None; maxPriceChange5M := Some 10%float;
              minVolumeGrowth := None; minLiquidityRatio := Some 0.1%float;
              maxRiskScore := Some 30%float; minTransactionCount := None;
              requiresSocialLinks := Some true |} |}
  | scalp => Some
      {| cf_type := Some scalp;
         criteria :=
           {| Params.chain := Undef; Params.orderBy := Val desc;
              Params.rankBy := Val volume; Params.timeFrame := Undef;
              Params.page := Undef; Params.isNotHP := Val true;
              Params.isVerified := Undef;
              Params.minVol24H := Val 20000%float; Params.maxVol24H := Undef;
              Params.minAge := Undef; Params.maxAge := Undef;
              Params.minLiq := Undef; Params.maxLiq := Undef;
              Params.minBuys24H := Undef; Params.minSells24H := Undef;
              Params.minTxns24H := Undef; Params.dexes := Undef;
              Params.virtualDexes := Undef |};
         additionalChecks := Some
           {| minPriceChange5M := None; maxPriceChange5M := None;
              minVolumeGrowth := Some 100%float; minLiquidityRatio := None;
              maxRiskScore := Some 60%float;
              minTransactionCount := Some 50%float;
              requiresSocialLinks := None |} |}
  | hodl => Some
      {| cf_type := Some hodl;
         criteria :=
           {| Params.chain := Undef; Params.orderBy := Val desc;
              Params.rankBy := Val mcap; Params.timeFrame := Undef;
              Params.page := Undef; Params.isNotHP := Val true;
              Params.isVerified := Val true;
              Params.minVol24H := Val 50000%float; Params.maxVol24H := Undef;
              Params.minAge := Undef;
              Params.maxAge := Val (365 * 24 * 60 * 60)%float;
              Params.minLiq := Val 100000%float; Params.maxLiq := Undef;
              Params.minBuys24H := Undef; Params.minSells24H := Undef;
              Params.minTxns24H := Undef; Params.dexes := Undef;
              Params.virtualDexes := Undef |};
         additionalChecks := Some
           {| minPriceChange5M := None; maxPriceChange5M := Some 5%float;
              minVolumeGrowth := None; minLiquidityRatio := Some 0.2%float;
              maxRiskScore := Some 25%float; minTransactionCount := None;
              requiresSocialLinks := Some true |} |}
  | custom => None
  end.

(** [TRENDING_TOKENS_FILTERS] and [NEW_TOKENS_FILTERS]. *)
Definition TRENDING_TOKENS_FILTERS : Params.t :=
  {| Params.chain := Undef; Params.orderBy := Val desc;
     Params.rankBy := Val volume; Params.timeFrame := Undef;
     Params.page := Undef; Params.isNotHP := Val true;
     Params.isVerified := Undef;
     Params.minVol24H := Val 1000%float; Params.maxVol24H := Undef;
     Params.minAge := Undef; Params.maxAge := Val (7 * 24 * 60 * 60)%float;
     Params.minLiq := Undef; Params.maxLiq := Undef;
     Params.minBuys24H := Undef; Params.minSells24H := Undef;
     Params.minTxns24H := Undef; Params.dexes := Undef;
     Params.virtualDexes := Undef |}.

Definition NEW_TOKENS_FILTERS : Params.t :=
  {| Params.chain := Undef; Params.orderBy := Val desc;
     Params.rankBy := Val age; Params.timeFrame := Undef;
     Params.page := Undef; Params.isNotHP := Val true;
     Params.isVerified := Undef;
     Params.minVol24H := Undef; Params.maxVol24H := Undef;
     Params.minAge := Undef; Params.maxAge := Val (24 * 60 * 60)%float;
     Params.minLiq := Undef; Params.maxLiq := Undef;
     Params.minBuys24H := Undef; Params.minSells24H := Undef;
     Params.minTxns24H := Undef; Params.dexes := Undef;
     Params.virtualDexes := Undef |}.

(** ** Truthiness idioms of the sources ([x || d], [!x], [x ? a : b]) *)

Definition truthy_opt_str (o : opt string) : bool :=
  match o with Val s => truthy_str s | _ => false end.

Definition truthy_option_str (o : option string) : bool :=
  match o with Some s => truthy_str s | None => false end.

Definition truthy_opt_bool (o : opt bool) : bool :=
  match o with Val b => b | _ => false end.

Definition truthy_option_num (o : option number) : bool :=
  match o with Some x => truthy_num x | None => false end.

(** [s || d] on a string. *)
Definition str_or (s d : string) : string := if truthy_str s then s else d.

(** [o || d] on [string | null | undefined]. *)
Definition opt_str_or (o : opt string) (d : string) : string :=
  match o with Val s => str_or s d | _ => d end.

(** [o || undefined] on [string | null | undefined]. *)
Definition opt_str_or_undefined (o : opt string) : option string :=
  match o with
  | Val s => if truthy_str s then Some s else None
  | _ => None
  end.

(** [x || d] on a number. *)
Definition num_or (x d : number) : number := if truthy_num x then x else d.

(** [o || d] on [number | null | undefined]. *)
Definition opt_num_or (o : opt number) (d : number) : number :=
  match o with Val x => num_or x d | _ => d end.

Definition option_num_or (o : option number) (d : number) : number :=
  match o with Some x => num_or x d | None => d end.

(** ** utils/tokenUtils.ts *)

(** [chainIdToName]: the switch is on [chainId.toString()], which is ["1"]
    exactly when the number equals 1, and alike for the other labels. *)
Definition chainIdToName (chainId : number) : SupportedChainName :=
  if PrimFloat.eqb chainId 1%float then ETH
  else if PrimFloat.eqb chainId 56%float then BSC
  else if PrimFloat.eqb chainId 8453%float then BASE
  else if PrimFloat.eqb chainId 900%float then SOL
  else ETH.

Section TokenUtils.

(** The builtins [parseFloat] and [new Date(text).getTime()]. *)
Variable parseFloat : string -> number.
Variable Date_parse : string -> number.

(** [calculateMarketCap] *)
Definition calculateMarketCap (result : ScannerResult.t) : number :=
  let currentMcap := safeParseFloat parseFloat (ScannerResult.currentMcap result) in
  if gt currentMcap 0%float then currentMcap else
  let initialMcap := safeParseFloat parseFloat (ScannerResult.initialMcap result) in
  if gt initialMcap 0%float then initialMcap else
  let pairMcapUsd := safeParseFloat parseFloat (ScannerResult.pairMcapUsd result) in
  if gt pairMcapUsd 0%float then pairMcapUsd else
  let pairMcapUsdInitial :=
    safeParseFloat parseFloat (ScannerResult.pairMcapUsdInitial result) in
  if gt pairMcapUsdInitial 0%float then pairMcapUsdInitial else
  let totalSupply :=
    safeParseFloat parseFloat (ScannerResult.token1TotalSupplyFormatted result) in
  let price := safeParseFloat parseFloat (ScannerResult.price result) in
  PrimFloat.mul totalSupply price.

(** The derivation policy in the words of the specification: the first
    strictly positive candidate in priority order, else the computed
    fallback. *)
Definition mcap_candidates (result : ScannerResult.t) : list number :=
  [ safeParseFloat parseFloat (ScannerResult.currentMcap result);
    safeParseFloat parseFloat (ScannerResult.initialMcap result);
    safeParseFloat parseFloat (ScannerResult.pairMcapUsd result);
    safeParseFloat parseFloat (ScannerResult.pairMcapUsdInitial result) ].

Definition first_positive_or_fallback (result : ScannerResult.t) : number :=
  match find (fun v => gt v 0%float) (mcap_candidates result) with
  | Some v => v
  | None =>
      PrimFloat.mul
        (safeParseFloat parseFloat (ScannerResult.token1TotalSupplyFormatted result))
        (safeParseFloat parseFloat (ScannerResult.price result))
  end.

(** [scannerResultToToken]; [now] is the value of [new Date()]. *)
Definition scannerResultToToken (now : Date) (result : ScannerResult.t)
  : TokenData.t :=
  let marketCap := calculateMarketCap result in
  let currentPrice := safeParseFloat parseFloat (ScannerResult.price result) in
  let tokenAge := Date_parse (ScannerResult.age result) in
  {| TokenData.id := ScannerResult.pairAddress result;
     TokenData.tokenName := str_or (ScannerResult.token1Name result) "Unknown Token";
     TokenData.tokenSymbol := str_or (ScannerResult.token1Symbol result) "UNK";
     TokenData.tokenAddress := ScannerResult.token1Address result;
     TokenData.pairAddress := ScannerResult.pairAddress result;
     TokenData.chain := chainIdToName (ScannerResult.chainId result);
     TokenData.exchange :=
       opt_str_or (ScannerResult.virtualRouterType result) "Router";
     TokenData.priceUsd := currentPrice;
     TokenData.volumeUsd := safeParseFloat parseFloat (ScannerResult.volume result);
     TokenData.mcap := marketCap;
     TokenData.totalSupply :=
       safeParseFloat parseFloat (ScannerResult.token1TotalSupplyFormatted result);
     TokenData.priceChange5M := safeParseFloat parseFloat (ScannerResult.diff5M result);
     TokenData.priceChange1H := safeParseFloat parseFloat (ScannerResult.diff1H result);
     TokenData.priceChange6H := safeParseFloat parseFloat (ScannerResult.diff6H result);
     TokenData.priceChange24H := safeParseFloat parseFloat (ScannerResult.diff24H result);
     TokenData.buys := opt_num_or (ScannerResult.buys result) 0%float;
     TokenData.sells := opt_num_or (ScannerResult.sells result) 0%float;
     TokenData.audit :=
       {| mintable := negb (ScannerResult.isMintAuthDisabled result);
          freezable := negb (ScannerResult.isFreezeAuthDisabled result);
          honeypot := truthy_opt_bool (ScannerResult.honeyPot result) || false;
          audit_contractVerified := ScannerResult.contractVerified result |};
     TokenData.tokenCreatedTimestamp := tokenAge;
     TokenData.liquidity_current :=
       safeParseFloat parseFloat (ScannerResult.liquidity result);
     TokenData.liquidity_changePc :=
       safeParseFloat parseFloat (ScannerResult.percentChangeInLiquidity result);
     TokenData.migrationPc :=
       match ScannerResult.migrationProgress result with
       | Val s => if truthy_str s then Some (safeParseFloat parseFloat (RStr s)) else None
       | _ => None
       end;
     TokenData.socialLinks := Some
       {| discord := opt_str_or_undefined (ScannerResult.discordLink result);
          telegram := opt_str_or_undefined (ScannerResult.telegramLink result);
          twitter := opt_str_or_undefined (ScannerResult.twitterLink result);
          website := opt_str_or_undefined (ScannerResult.webLink result) |};
     TokenData.dexPaid := Some (ScannerResult.dexPaid result);
     TokenData.lastUpdated := now |}.

End TokenUtils.

(** ** utils/combinedFilters.ts *)

(** [getCombinedFilterConfig] *)
Definition getCombinedFilterConfig (type : CombinedFilterType)
  : option CombinedFilterConfig :=
  match type with
  | None => None
  | Some name => COMBINED_FILTER_PRESETS name
  end.

(** One property of an object spread [{...base, ...over}]: the later
    object wins where it has the property. (The preset criteria never hold
    an explicit [undefined].) *)
Definition spread {A} (base over : opt A) : opt A :=
  match over with
  | Undef => base
  | _ => over
  end.

(** [applyCombinedFilterToParams] *)
Definition applyCombinedFilterToParams (baseParams : Params.t)
  (combinedFilterType : CombinedFilterType) : Params.t :=
  match combinedFilterType with
  | None => baseParams
  | Some _ =>
      match getCombinedFilterConfig combinedFilterType with
      | None => baseParams
      | Some config =>
          let c := criteria config in
          {| Params.orderBy := spread (Params.orderBy baseParams) (Params.orderBy c);
             Params.rankBy := spread (Params.rankBy baseParams) (Params.rankBy c);
             Params.timeFrame := spread (Params.timeFrame baseParams) (Params.timeFrame c);
             Params.isNotHP := spread (Params.isNotHP baseParams) (Params.isNotHP c);
             Params.isVerified := spread (Params.isVerified baseParams) (Params.isVerified c);
             Params.minVol24H := spread (Params.minVol24H baseParams) (Params.minVol24H c);
             Params.maxVol24H := spread (Params.maxVol24H baseParams) (Params.maxVol24H c);
             Params.minAge := spread (Params.minAge baseParams) (Params.minAge c);
             Params.maxAge := spread (Params.maxAge baseParams) (Params.maxAge c);
             Params.minLiq := spread (Params.minLiq baseParams) (Params.minLiq c);
             Params.maxLiq := spread (Params.maxLiq baseParams) (Params.maxLiq c);
             Params.minBuys24H := spread (Params.minBuys24H baseParams) (Params.minBuys24H c);
             Params.minSells24H :=
               spread (Params.minSells24H baseParams) (Params.minSells24H c);
             Params.minTxns24H := spread (Params.minTxns24H baseParams) (Params.minTxns24H c);
             Params.dexes := spread (Params.dexes baseParams) (Params.dexes c);
             Params.virtualDexes :=
               spread (Params.virtualDexes baseParams) (Params.virtualDexes c);
             (* Preserve some base params that shouldn't be overridden *)
             Params.page := Params.page baseParams;
             Params.chain := Params.chain baseParams |}
      end
  end.

(** [hasLinks]: the expression
    [token.socialLinks && (twitter || telegram || website)], as a boolean. *)
Definition hasLinks (token : TokenData.t) : bool :=
  match TokenData.socialLinks token with
  | None => false
  | Some l =>
      truthy_option_str (twitter l) || truthy_option_str (telegram l)
      || truthy_option_str (website l)
  end.

(** [calculateRiskScore]; [now] is the value of [Date.now()]. Each block of
    the function is a step on the running [riskScore]. A [Date] object and
    the [audit] object are always truthy. *)
Definition risk_age (now : number) (token : TokenData.t) (riskScore : number) : number :=
  let ageInHours :=
    ((now - TokenData.tokenCreatedTimestamp token) / (1000 * 60 * 60))%float in
  if lt ageInHours 1%float then (riskScore + 40)%float
  else if lt ageInHours 24%float then (riskScore + 30)%float
  else if lt ageInHours 168%float then (riskScore + 20)%float
  else if lt ageInHours 720%float then (riskScore + 10)%float
  else riskScore.

Definition risk_liquidity (token : TokenData.t) (riskScore : number) : number :=
  if truthy_num (TokenData.liquidity_current token) && truthy_num (TokenData.mcap token)
  then
    let liquidityRatio :=
      (TokenData.liquidity_current token / TokenData.mcap token)%float in
    if lt liquidityRatio 0.05%float then (riskScore + 25)%float
    else if lt liquidityRatio 0.1%float then (riskScore + 15)%float
    else if lt liquidityRatio 0.2%float then (riskScore + 5)%float
    else riskScore
  else riskScore.

Definition risk_audit (token : TokenData.t) (riskScore : number) : number :=
  let a := TokenData.audit token in
  let r1 := if honeypot a then (riskScore + 50)%float else riskScore in
  let r2 := if mintable a then (r1 + 20)%float else r1 in
  let r3 := if freezable a then (r2 + 15)%float else r2 in
  if negb (audit_contractVerified a) then (r3 + 25)%float else r3.

Definition risk_volume (token : TokenData.t) (riskScore : number) : number :=
  if lt (TokenData.volumeUsd token) 1000%float then (riskScore + 20)%float
  else if lt (TokenData.volumeUsd token) 10000%float then (riskScore + 10)%float
  else riskScore.

Definition risk_social (token : TokenData.t) (riskScore : number) : number :=
  if negb (hasLinks token) then (riskScore + 15)%float else riskScore.

Definition calculateRiskScore (now : number) (token : TokenData.t) : number :=
  let riskScore :=
    risk_social token
      (risk_volume token
         (risk_audit token
            (risk_liquidity token
               (risk_age now token 0%float)))) in
  Math_min 100%float (Math_max 0%float riskScore).

(** [passesAdditionalChecks] *)
Definition passesAdditionalChecks (now : number) (token : TokenData.t)
  (combinedFilterType : CombinedFilterType) : bool :=
  match combinedFilterType with
  | None => true
  | Some _ =>
      match getCombinedFilterConfig combinedFilterType with
      | None => true
      | Some config =>
          match additionalChecks config with
          | None => true
          | Some checks =>
              let buys := num_or (TokenData.buys token) 0%float in
              let sells := num_or (TokenData.sells token) 0%float in
              let totalTxns := (buys + sells)%float in
              (* Price change checks *)
              if match minPriceChange5M checks with
                 | Some m => lt (num_or (TokenData.priceChange5M token) 0%float) m
                 | None => false
                 end then false
              else if match maxPriceChange5M checks with
                      | Some m =>
                          gt (Math_abs (num_or (TokenData.priceChange5M token) 0%float)) m
                      | None => false
                      end then false
              (* Volume growth check *)
              else if match minVolumeGrowth checks with
                      | Some _ =>
                          lt totalTxns (option_num_or (minTransactionCount checks) 10%float)
                      | None => false
                      end then false
              (* Liquidity ratio check *)
              else if match minLiquidityRatio checks with
                      | Some m =>
                          truthy_num (TokenData.liquidity_current token)
                          && truthy_num (TokenData.mcap token)
                          && lt (TokenData.liquidity_current token / TokenData.mcap token)%float m
                      | None => false
                      end then false
              (* Risk score check *)
              else if match maxRiskScore checks with
                      | Some m => gt (calculateRiskScore now token) m
                      | None => false
                      end then false
              (* Transaction count check *)
              else if match minTransactionCount checks with
                      | Some m => lt totalTxns m
                      | None => false
                      end then false
              (* Social links requirement *)
              else if match requiresSocialLinks checks with
                      | Some true => negb (hasLinks token)
                      | _ => false
                      end then false
              else true
          end
      end
  end.

(** [filterTokensByCombinedFilter] *)
Definition filterTokensByCombinedFilter (now : number) (tokens : list TokenData.t)
  (combinedFilterType : CombinedFilterType) : list TokenData.t :=
  match combinedFilterType with
  | None => tokens
  | Some _ => filter (fun token => passesAdditionalChecks now token combinedFilterType) tokens
  end.

Inductive TableType := TableTrending | TableNew.

(** [buildApiParamsWithCombinedFilters] *)
Definition buildApiParamsWithCombinedFilters (filters : FilterState)
  (tableType : TableType) (page : number) : Params.t :=
  let baseParams0 :=
    match tableType with
    | TableTrending =>
        {| Params.rankBy := Val volume; Params.orderBy := Val desc;
           Params.minVol24H := Val (option_num_or (minVolume filters) 1000%float);
           Params.isNotHP := Val (excludeHoneypots filters);
           Params.maxAge :=
             Val (match fs_maxAge filters with
                  | Some a => if truthy_num a then (a * 60 * 60)%float
                              else (7 * 24 * 60 * 60)%float
                  | None => (7 * 24 * 60 * 60)%float
                  end);
           Params.page := Val page;
           Params.chain := Undef; Params.timeFrame := Undef;
           Params.isVerified := Undef; Params.maxVol24H := Undef;
           Params.minAge := Undef; Params.minLiq := Undef; Params.maxLiq := Undef;
           Params.minBuys24H := Undef; Params.minSells24H := Undef;
           Params.minTxns24H := Undef; Params.dexes := Undef;
           Params.virtualDexes := Undef |}
    | TableNew =>
        {| Params.rankBy := Val age; Params.orderBy := Val desc;
           Params.maxAge :=
             Val (match fs_maxAge filters with
                  | Some a => if truthy_num a then (a * 60 * 60)%float
                              else (24 * 60 * 60)%float
                  | None => (24 * 60 * 60)%float
                  end);
           Params.isNotHP := Val (excludeHoneypots filters);
           Params.page := Val page;
           Params.minVol24H := Undef;
           Params.chain := Undef; Params.timeFrame := Undef;
           Params.isVerified := Undef; Params.maxVol24H := Undef;
           Params.minAge := Undef; Params.minLiq := Undef; Params.maxLiq := Undef;
           Params.minBuys24H := Undef; Params.minSells24H := Undef;
           Params.minTxns24H := Undef; Params.dexes := Undef;
           Params.virtualDexes := Undef |}
    end in
  (* Add market cap filter (minLiq as proxy) *)
  let baseParams1 :=
    match minMarketCap filters with
    | Some m => if truthy_num m then Params.set_minLiq (Val m) baseParams0 else baseParams0
    | None => baseParams0
    end in
  (* Add chain filter (first chain) *)
  let baseParams2 :=
    match chains filters with
    | c :: _ => Params.set_chain (Val c) baseParams1
    | [] => baseParams1
    end in
  applyCombinedFilterToParams baseParams2 (combinedFilter filters).

(** ** JavaScript containers used by the hook *)

(** A [Map<string, TokenData>]: keys are unique and iteration follows
    insertion order; [set] on a present key keeps its position. *)
Module JsMap.
Definition t := list (string * TokenData.t).

Definition empty : t := [].

Fixpoint set (k : string) (v : TokenData.t) (m : t) : t :=
  match m with
  | [] => [(k, v)]
  | (k', v') :: rest =>
      if String.eqb k' k then (k, v) :: rest else (k', v') :: set k v rest
  end.

Fixpoint get (k : string) (m : t) : option TokenData.t :=
  match m with
  | [] => None
  | (k', v') :: rest => if String.eqb k' k then Some v' else get k rest
  end.

Definition has (k : string) (m : t) : bool :=
  match get k m with Some _ => true | None => false end.

Definition keys (m : t) : list string := map fst m.
Definition values (m : t) : list TokenData.t := map snd m.
Definition size (m : t) : nat := List.length m.

(** [tokens.forEach(token => map.set(token.id, token))] *)
Definition set_all (tokens : list TokenData.t) (m : t) : t :=
  fold_left (fun acc token => set (TokenData.id token) token acc) tokens m.
End JsMap.

(** A [Set<string>], in insertion order. *)
Module JsSet.
Definition t := list string.

Definition has (k : string) (s : t) : bool := existsb (String.eqb k) s.
Definition add (k : string) (s : t) : t := if has k s then s else s ++ [k].
End JsSet.

(** [Array.prototype.pop]'s result: the last element, if any. *)
Fixpoint Array_pop {A} (l : list A) : option A :=
  match l with
  | [] => None
  | [x] => Some x
  | _ :: rest => Array_pop rest
  end.

(** [String.prototype.split] on a one-character separator. *)
Fixpoint String_split (sep : ascii) (s : string) : list string :=
  match s with
  | EmptyString => [""]
  | String c rest =>
      if Ascii.eqb c sep then "" :: String_split sep rest
      else match String_split sep rest with
           | h :: t => String c h :: t
           | [] => [String c ""]
           end
  end.

Definition chain_string (c : SupportedChainName) : string :=
  match c with ETH => "ETH" | SOL => "SOL" | BASE => "BASE" | BSC => "BSC" end.

(** ** hooks/useTokenData.ts: state *)

Record Props := {
  tableType : TableType;
  filters : option FilterState;
  sortColumn : option SerdeRankBy;
  sortOrder : option OrderBy
}.

(** The [useState] cells and the two [useRef] cells of one hook instance. *)
Record HookState := {
  tokens : list TokenData.t;
  loading : bool;
  error : option string;
  totalRows : number;
  connected : bool;
  currentPage : number;
  hasMore : bool;
  subscriptionsRef : JsSet.t;
  tokensMapRef : JsMap.t
}.

Definition set_tokens (v : list TokenData.t) (s : HookState) : HookState :=
  {| tokens := v; loading := loading s; error := error s;
     totalRows := totalRows s; connected := connected s;
     currentPage := currentPage s; hasMore := hasMore s;
     subscriptionsRef := subscriptionsRef s; tokensMapRef := tokensMapRef s |}.

Definition set_loading (v : bool) (s : HookState) : HookState :=
  {| tokens := tokens s; loading := v; error := error s;
     totalRows := totalRows s; connected := connected s;
     currentPage := currentPage s; hasMore := hasMore s;
     subscriptionsRef := subscriptionsRef s; tokensMapRef := tokensMapRef s |}.

Definition set_error (v : option string) (s : HookState) : HookState :=
  {| tokens := tokens s; loading := loading s; error := v;
     totalRows := totalRows s; connected := connected s;
     currentPage := currentPage s; hasMore := hasMore s;
     subscriptionsRef := subscriptionsRef s; tokensMapRef := tokensMapRef s |}.

Definition set_totalRows (v : number) (s : HookState) : HookState :=
  {| tokens := tokens s; loading := loading s; error := error s;
     totalRows := v; connected := connected s;
     currentPage := currentPage s; hasMore := hasMore s;
     subscriptionsRef := subscriptionsRef s; tokensMapRef := tokensMapRef s |}.

Definition set_connected (v : bool) (s : HookState) : HookState :=
  {| tokens := tokens s; loading := loading s; error := error s;
     totalRows := totalRows s; connected := v;
     currentPage := currentPage s; hasMore := hasMore s;
     subscriptionsRef := subscriptionsRef s; tokensMapRef := tokensMapRef s |}.

Definition set_currentPage (v : number) (s : HookState) : HookState :=
  {| tokens := tokens s; loading := loading s; error := error s;
     totalRows := totalRows s; connected := connected s;
     currentPage := v; hasMore := hasMore s;
     subscriptionsRef := subscriptionsRef s; tokensMapRef := tokensMapRef s |}.

Definition set_hasMore (v : bool) (s : HookState) : HookState :=
  {| tokens := tokens s; loading := loading s; error := error s;
     totalRows := totalRows s; connected := connected s;
     currentPage := currentPage s; hasMore := v;
     subscriptionsRef := subscriptionsRef s; tokensMapRef := tokensMapRef s |}.

Definition set_subscriptionsRef (v : JsSet.t) (s : HookState) : HookState :=
  {| tokens := tokens s; loading := loading s; error := error s;
     totalRows := totalRows s; connected := connected s;
     currentPage := currentPage s; hasMore := hasMore s;
     subscriptionsRef := v; tokensMapRef := tokensMapRef s |}.

Definition set_tokensMapRef (v : JsMap.t) (s : HookState) : HookState :=
  {| tokens := tokens s; loading := loading s; error := error s;
     totalRows := totalRows s; connected := connected s;
     currentPage := currentPage s; hasMore := hasMore s;
     subscriptionsRef := subscriptionsRef s; tokensMapRef := v |}.

(** The [useState] initial values and empty refs. *)
Definition initialState : HookState :=
  {| tokens := []; loading := true; error := None; totalRows := 0%float;
     connected := false; currentPage := 1%float; hasMore := true;
     subscriptionsRef := []; tokensMapRef := JsMap.empty |}.

(** What an updater passed to [setTokens] returns: the very array it was
    given ([prev], same reference, no re-render) or a newly built array. *)
Inductive Updated :=
| SamePrev
| NewArray (a : list TokenData.t).

Definition setTokens (u : Updated) (s : HookState) : HookState :=
  match u with
  | SamePrev => s
  | NewArray a => set_tokens a s
  end.

(** [buildApiParams(page = 1)] *)
Definition buildApiParams (p : Props) (page : number) : Params.t :=
  match filters p with
  | None =>
      let baseParams :=
        match tableType p with
        | TableTrending => TRENDING_TOKENS_FILTERS
        | TableNew => NEW_TOKENS_FILTERS
        end in
      Params.set_page (Val page) baseParams
  | Some f =>
      let apiParams := buildApiParamsWithCombinedFilters f (tableType p) page in
      let apiParams1 :=
        match sortColumn p with
        | Some c => Params.set_rankBy (Val c) apiParams
        | None => apiParams
        end in
      match sortOrder p with
      | Some o => Params.set_orderBy (Val o) apiParams1
      | None => apiParams1
      end
  end.

(** ** hooks/useTokenData.ts: [handleWebSocketMessage] *)

(** The three cases walk [prev] the same way: a token that matches is
    replaced by its patched version, the map cell [tokensMapRef.current] of
    its id is set at once, and a flag records that something matched.
    [patch token] is [Some updated] on a match. *)
Fixpoint patch_each (patch : TokenData.t -> option TokenData.t)
  (prev : list TokenData.t) (m : JsMap.t)
  : list TokenData.t * JsMap.t * bool :=
  match prev with
  | [] => ([], m, false)
  | token :: rest =>
      match patch token with
      | Some updatedToken =>
          let '(rest', m', _) :=
            patch_each patch rest (JsMap.set (TokenData.id token) updatedToken m) in
          (updatedToken :: rest', m', true)
      | None =>
          let '(rest', m', found) := patch_each patch rest m in
          (token :: rest', m', found)
      end
  end.

(** [swaps.filter(swap => !swap.isOutlier).pop()] *)
Definition latestSwap (swaps : list WsTokenSwap) : option WsTokenSwap :=
  Array_pop (filter (fun swap => negb (isOutlier swap)) swaps).

(** The object [{ ...token, priceUsd, mcap, lastUpdated }] of the tick case. *)
Definition tick_updatedToken (newPrice : number) (now : Date) (token : TokenData.t)
  : TokenData.t :=
  let newMarketCap := (TokenData.totalSupply token * newPrice)%float in
  {| TokenData.id := TokenData.id token;
     TokenData.tokenName := TokenData.tokenName token;
     TokenData.tokenSymbol := TokenData.tokenSymbol token;
     TokenData.tokenAddress := TokenData.tokenAddress token;
     TokenData.pairAddress := TokenData.pairAddress token;
     TokenData.chain := TokenData.chain token;
     TokenData.exchange := TokenData.exchange token;
     TokenData.priceUsd := newPrice;
     TokenData.volumeUsd := TokenData.volumeUsd token;
     TokenData.mcap := newMarketCap;
     TokenData.totalSupply := TokenData.totalSupply token;
     TokenData.priceChange5M := TokenData.priceChange5M token;
     TokenData.priceChange1H := TokenData.priceChange1H token;
     TokenData.priceChange6H := TokenData.priceChange6H token;
     TokenData.priceChange24H := TokenData.priceChange24H token;
     TokenData.buys := TokenData.buys token;
     TokenData.sells := TokenData.sells token;
     TokenData.audit := TokenData.audit token;
     TokenData.tokenCreatedTimestamp := TokenData.tokenCreatedTimestamp token;
     TokenData.liquidity_current := TokenData.liquidity_current token;
     TokenData.liquidity_changePc := TokenData.liquidity_changePc token;
     TokenData.migrationPc := TokenData.migrationPc token;
     TokenData.socialLinks := TokenData.socialLinks token;
     TokenData.dexPaid := TokenData.dexPaid token;
     TokenData.lastUpdated := now |}.

Definition tick_patch (pairAddress : string) (newPrice : number) (now : Date)
  (token : TokenData.t) : option TokenData.t :=
  if String.eqb (TokenData.pairAddress token) pairAddress
  then Some (tick_updatedToken newPrice now token)
  else None.

(** The object built in the pair-stats case; [migrationPc] is the already
    parsed [parseFloat(migrationProgress)]. *)
Definition stats_updatedToken (pairData : PairDetails.t) (migrationPc : number)
  (now : Date) (token : TokenData.t) : TokenData.t :=
  {| TokenData.id := TokenData.id token;
     TokenData.tokenName := TokenData.tokenName token;
     TokenData.tokenSymbol := TokenData.tokenSymbol token;
     TokenData.tokenAddress := TokenData.tokenAddress token;
     TokenData.pairAddress := TokenData.pairAddress token;
     TokenData.chain := TokenData.chain token;
     TokenData.exchange := TokenData.exchange token;
     TokenData.priceUsd := TokenData.priceUsd token;
     TokenData.volumeUsd := TokenData.volumeUsd token;
     TokenData.mcap := TokenData.mcap token;
     TokenData.totalSupply := TokenData.totalSupply token;
     TokenData.priceChange5M := TokenData.priceChange5M token;
     TokenData.priceChange1H := TokenData.priceChange1H token;
     TokenData.priceChange6H := TokenData.priceChange6H token;
     TokenData.priceChange24H := TokenData.priceChange24H token;
     TokenData.buys := TokenData.buys token;
     TokenData.sells := TokenData.sells token;
     TokenData.audit :=
       {| mintable := PairDetails.mintAuthorityRenounced pairData;
          freezable := PairDetails.freezeAuthorityRenounced pairData;
          honeypot := negb (truthy_opt_bool (PairDetails.token1IsHoneypot pairData));
          audit_contractVerified := PairDetails.isVerified pairData |};
     TokenData.tokenCreatedTimestamp := TokenData.tokenCreatedTimestamp token;
     TokenData.liquidity_current := TokenData.liquidity_current token;
     TokenData.liquidity_changePc := TokenData.liquidity_changePc token;
     TokenData.migrationPc := Some migrationPc;
     TokenData.socialLinks := Some
       {| discord := opt_str_or_undefined (PairDetails.linkDiscord pairData);
          telegram := opt_str_or_undefined (PairDetails.linkTelegram pairData);
          twitter := opt_str_or_undefined (PairDetails.linkTwitter pairData);
          website := opt_str_or_undefined (PairDetails.linkWebsite pairData) |};
     TokenData.dexPaid := Some (PairDetails.dexPaid pairData);
     TokenData.lastUpdated := now |}.

Definition stats_patch (pairData : PairDetails.t) (migrationPc : number) (now : Date)
  (token : TokenData.t) : option TokenData.t :=
  if String.eqb (TokenData.pairAddress token) (PairDetails.pairAddress pairData)
  then Some (stats_updatedToken pairData migrationPc now token)
  else None.

(** Scanner-pairs, first loop: [updatedTokens.find(...)] and the freshness
    test. [lastUpdated] is a [Date] object, so [!token.lastUpdated] is
    always false. *)
Definition scanner_patch (updatedTokens : list TokenData.t) (token : TokenData.t)
  : option TokenData.t :=
  match find (fun newToken => String.eqb (TokenData.id newToken) (TokenData.id token))
          updatedTokens with
  | Some newTokenData =>
      if false || gt (TokenData.lastUpdated newTokenData) (TokenData.lastUpdated token)
      then Some newTokenData
      else None
  | None => None
  end.

(** Scanner-pairs, second loop: push the tokens whose id the map does not
    hold. *)
Definition add_new_step (acc : list TokenData.t * JsMap.t * bool)
  (newToken : TokenData.t) : list TokenData.t * JsMap.t * bool :=
  let '(resultTokens, m, hasChanges) := acc in
  if negb (JsMap.has (TokenData.id newToken) m)
  then (resultTokens ++ [newToken], JsMap.set (TokenData.id newToken) newToken m, true)
  else (resultTokens, m, hasChanges).

Definition add_new (updatedTokens : list TokenData.t)
  (acc : list TokenData.t * JsMap.t * bool) : list TokenData.t * JsMap.t * bool :=
  fold_left add_new_step updatedTokens acc.

(** The scanner-pairs merge on normalised records. *)
Definition scanner_merge (updatedTokens prev : list TokenData.t) (m : JsMap.t)
  : list TokenData.t * JsMap.t * bool :=
  add_new updatedTokens (patch_each (scanner_patch updatedTokens) prev m).

Section Handler.

Variable parseFloat : string -> number.
Variable Date_parse : string -> number.

(** [handleWebSocketMessage]; the result pairs the new state with what
    the [setTokens] updater returned ([SamePrev] also when [setTokens]
    was not called). *)
Definition handleWebSocketMessage (now : Date) (message : IncomingWebSocketMessage)
  (st : HookState) : HookState * Updated :=
  match message with
  | Tick data =>
      match latestSwap (swaps data) with
      | Some latest =>
          let newPrice := parseFloat (priceToken1Usd latest) in
          let pairAddress := tick_pair data in
          let '(updatedTokens, m, foundToken) :=
            patch_each (tick_patch pairAddress newPrice now)
              (tokens st) (tokensMapRef st) in
          let u := if foundToken then NewArray updatedTokens else SamePrev in
          (setTokens u (set_tokensMapRef m st), u)
      | None => (st, SamePrev)
      end
  | PairStats data =>
      let pairData := stats_pair data in
      let migrationPc := parseFloat (stats_migrationProgress data) in
      let '(updatedTokens, m, foundToken) :=
        patch_each (stats_patch pairData migrationPc now)
          (tokens st) (tokensMapRef st) in
      let u := if foundToken then NewArray updatedTokens else SamePrev in
      (setTokens u (set_tokensMapRef m st), u)
  | ScannerPairs results_pairs =>
      let updatedTokens :=
        map (scannerResultToToken parseFloat Date_parse now) results_pairs in
      let '(resultTokens, m, hasChanges) :=
        scanner_merge updatedTokens (tokens st) (tokensMapRef st) in
      let u := if hasChanges then NewArray resultTokens else SamePrev in
      (setTokens u (set_tokensMapRef m st), u)
  end.

End Handler.

(** ** hooks/useTokenData.ts: [subscribeToTokens] *)

(** [`${token.pairAddress}|${token.tokenAddress}|${token.chain}`] *)
Definition subscriptionKey (token : TokenData.t) : string :=
  TokenData.pairAddress token ++ "|" ++ TokenData.tokenAddress token ++ "|"
  ++ chain_string (TokenData.chain token).

(** Outgoing messages, as built by the [WebSocketService] convenience
    methods. An unsubscription takes its three names from
    [subscription.split('|')], [undefined] where a part is missing. *)
Inductive Outgoing :=
| OutScannerFilter (data : Params.t)
| OutSubscribePair (pair token : string) (chain : SupportedChainName)
| OutSubscribePairStats (pair token : string) (chain : SupportedChainName)
| OutUnsubscribePair (pair token chain : option string)
| OutUnsubscribePairStats (pair token chain : option string).

Definition unsubscribe_messages (subscription : string) : list Outgoing :=
  let parts := String_split "|" subscription in
  let pairAddress := nth_error parts 0 in
  let tokenAddress := nth_error parts 1 in
  let chain := nth_error parts 2 in
  [ OutUnsubscribePair pairAddress tokenAddress chain;
    OutUnsubscribePairStats pairAddress tokenAddress chain ].

Definition subscribe_messages (token : TokenData.t) : list Outgoing :=
  [ OutSubscribePair (TokenData.pairAddress token) (TokenData.tokenAddress token)
      (TokenData.chain token);
    OutSubscribePairStats (TokenData.pairAddress token) (TokenData.tokenAddress token)
      (TokenData.chain token) ].

(** [subscribeToTokens]: the new content of [subscriptionsRef.current] and
    the messages handed to the socket service, in order. [isConnected] is
    [wsService.isConnected()]. *)
Definition subscribeToTokens (p : Props) (isConnected : bool)
  (tokensToSubscribe : list TokenData.t) (subscriptions : JsSet.t)
  : JsSet.t * list Outgoing :=
  if negb isConnected then (subscriptions, [])
  else
    (* Unsubscribe from previous tokens *)
    let unsubs := flat_map unsubscribe_messages subscriptions in
    (* Subscribe to new tokens *)
    let subs := flat_map subscribe_messages tokensToSubscribe in
    let subscriptions' :=
      fold_left (fun s token => JsSet.add (subscriptionKey token) s)
        tokensToSubscribe [] in
    (* Subscribe to scanner filter *)
    let params := buildApiParams p 1%float in
    (subscriptions', unsubs ++ subs ++ [OutScannerFilter params]).

(** The effect on [tokens]: [if (tokens.length > 0) subscribeToTokens(tokens)]. *)
Definition tokensEffect (p : Props) (isConnected : bool) (st : HookState)
  : HookState * list Outgoing :=
  match tokens st with
  | [] => (st, [])
  | _ :: _ =>
      let '(subs, out) :=
        subscribeToTokens p isConnected (tokens st) (subscriptionsRef st) in
      (set_subscriptionsRef subs st, out)
  end.

(** ** hooks/useTokenData.ts: [loadData], [loadMore], [refreshData] *)

(** A call of [loadData] suspended at [await apiService.fetchScannerData]:
    what its continuation holds ([page], [append], and [filters] of the
    render that created the callback), with the parameters it sent. *)
Record Request := {
  rq_page : number;
  rq_append : bool;
  rq_filters : option FilterState;
  rq_params : Params.t
}.

(** One hook instance with its surroundings: the props of the last render,
    the suspended [loadData] calls, every call of
    [apiService.fetchScannerData] so far, whether the socket is open, and
    the messages handed to the socket service. *)
Record World := {
  hook : HookState;
  props : Props;
  inflight : list Request;
  fetched : list Params.t;
  wsOpen : bool;
  sent : list Outgoing
}.

Definition with_hook (h : HookState) (w : World) : World :=
  {| hook := h; props := props w; inflight := inflight w; fetched := fetched w;
     wsOpen := wsOpen w; sent := sent w |}.

(** [loadData(page, append)] up to the [await]. *)
Definition loadData_call (page : number) (append : bool) (w : World) : World :=
  let h := hook w in
  let h1 := if negb append then set_error None (set_loading true h) else h in
  let params := buildApiParams (props w) page in
  {| hook := h1; props := props w;
     inflight := inflight w ++
       [ {| rq_page := page; rq_append := append; rq_filters := filters (props w);
            rq_params := params |} ];
     fetched := fetched w ++ [params];
     wsOpen := wsOpen w; sent := sent w |}.

Section LoadData.

Variable parseFloat : string -> number.
Variable Date_parse : string -> number.

(** The tokens of a response: normalised, then filtered when the
    captured filter state names a preset. *)
Definition response_tokens (now : Date) (rq : Request) (response : ScannerApiResponse)
  : list TokenData.t :=
  let newTokens := map (scannerResultToToken parseFloat Date_parse now) (pairs response) in
  match rq_filters rq with
  | Some f =>
      match combinedFilter f with
      | Some name => filterTokensByCombinedFilter now newTokens (Some name)
      | None => newTokens
      end
  | None => newTokens
  end.

(** [loadData] after the [await], on success. *)
Definition loadData_resolved (now : Date) (rq : Request) (response : ScannerApiResponse)
  (h : HookState) : HookState :=
  let newTokens := response_tokens now rq response in
  let nonEmpty := negb (Nat.eqb (List.length (pairs response)) 0) in
  let h1 :=
    if rq_append rq then
      let newMap := JsMap.set_all newTokens (tokensMapRef h) in
      let updatedTokens := JsMap.values newMap in
      set_tokens updatedTokens
        (set_hasMore
           (nonEmpty && lt (of_nat (List.length updatedTokens)) (resp_totalRows response))
           (set_totalRows (resp_totalRows response)
              (set_tokensMapRef newMap h)))
    else
      let newMap := JsMap.set_all newTokens JsMap.empty in
      set_hasMore
        (nonEmpty && lt (of_nat (List.length newTokens)) (resp_totalRows response))
        (set_totalRows (resp_totalRows response)
           (set_tokens newTokens
              (set_tokensMapRef newMap h))) in
  set_loading false (set_currentPage (rq_page rq) h1).

(** [loadData] after the [await], on failure; [message] is
    [err.message] or the default text. *)
Definition loadData_rejected (message : string) (h : HookState) : HookState :=
  set_loading false (set_error (Some message) h).

(** [loadMore] *)
Definition loadMore (w : World) : World :=
  if negb (loading (hook w)) && hasMore (hook w)
  then loadData_call (currentPage (hook w) + 1)%float true w
  else w.

(** [refreshData], and the body of the effect on [loadData]. *)
Definition refreshData (w : World) : World :=
  loadData_call 1%float false (with_hook (set_currentPage 1%float (hook w)) w).

(** Runs the effect on [tokens] and records what it sends. *)
Definition run_tokensEffect (w : World) : World :=
  let '(h, out) := tokensEffect (props w) (wsOpen w) (hook w) in
  {| hook := h; props := props w; inflight := inflight w; fetched := fetched w;
     wsOpen := wsOpen w; sent := sent w ++ out |}.

Fixpoint remove_nth {A} (i : nat) (l : list A) : list A :=
  match i, l with
  | _, [] => []
  | O, _ :: rest => rest
  | S j, x :: rest => x :: remove_nth j rest
  end.

(** What can happen to a mounted hook. A change of props replaces the
    [loadData] and [subscribeToTokens] callbacks, so both effects run. *)
Inductive Event :=
| EvLoadMore
| EvRefreshData
| EvPropsChange (p : Props)
| EvFetchResolved (i : nat) (response : ScannerApiResponse) (now : Date)
| EvFetchRejected (i : nat) (message : string)
| EvSocketOpened
| EvSocketFailed
| EvMessage (message : IncomingWebSocketMessage) (now : Date).

Definition step (w : World) (ev : Event) : World :=
  match ev with
  | EvLoadMore => loadMore w
  | EvRefreshData => refreshData w
  | EvPropsChange p =>
      let w1 :=
        {| hook := hook w; props := p; inflight := inflight w;
           fetched := fetched w; wsOpen := wsOpen w; sent := sent w |} in
      refreshData (run_tokensEffect w1)
  | EvFetchResolved i response now =>
      match nth_error (inflight w) i with
      | Some rq =>
          let h := loadData_resolved now rq response (hook w) in
          run_tokensEffect
            {| hook := h; props := props w; inflight := remove_nth i (inflight w);
               fetched := fetched w; wsOpen := wsOpen w; sent := sent w |}
      | None => w
      end
  | EvFetchRejected i message =>
      match nth_error (inflight w) i with
      | Some rq =>
          {| hook := loadData_rejected message (hook w); props := props w;
             inflight := remove_nth i (inflight w);
             fetched := fetched w; wsOpen := wsOpen w; sent := sent w |}
      | None => w
      end
  | EvSocketOpened =>
      {| hook := set_connected true (hook w); props := props w;
         inflight := inflight w; fetched := fetched w; wsOpen := true;
         sent := sent w |}
  | EvSocketFailed =>
      {| hook := set_connected false (hook w); props := props w;
         inflight := inflight w; fetched := fetched w; wsOpen := false;
         sent := sent w |}
  | EvMessage message now =>
      (* the callback is registered once [connect()] has resolved *)
      if connected (hook w) then
        let '(h, u) := handleWebSocketMessage parseFloat Date_parse now message (hook w) in
        let w1 := with_hook h w in
        match u with
        | SamePrev => w1
        | NewArray _ => run_tokensEffect w1
        end
      else w
  end.

Definition run (w : World) (evs : list Event) : World := fold_left step evs w.

(** The hook after its first render: initial state, and the effect on
    [loadData] has called [loadData(1, false)]. *)
Definition mount (p : Props) : World :=
  refreshData
    {| hook := initialState; props := p; inflight := []; fetched := [];
       wsOpen := false; sent := [] |}.

Inductive reachable (p : Props) : World -> Prop :=
| reach_mount : reachable p (mount p)
| reach_step w ev : reachable p w -> reachable p (step w ev).

End LoadData.

(** ** utils/formatters.ts: [truncateAddress] *)

Fixpoint String_drop (n : nat) (s : string) : string :=
  match n, s with
  | O, _ => s
  | S _, EmptyString => EmptyString
  | S n', String _ rest => String_drop n' rest
  end.

Fixpoint String_take (n : nat) (s : string) : string :=
  match n, s with
  | O, _ => EmptyString
  | S _, EmptyString => EmptyString
  | S n', String c rest => String c (String_take n' rest)
  end.

(** [s.slice(0, n)] and [s.slice(-n)] for a count [n]: a negative start
    counts from the end, and [-0] is [0], the start of the string. *)
Definition String_slice_to (n : nat) (s : string) : string := String_take n s.

Definition String_slice_last (n : nat) (s : string) : string :=
  match n with
  | O => s
  | S _ => String_drop (String.length s - n) s
  end.

(** [truncateAddress], for counts [start] and [end] (6 and 4 by default). *)
Definition truncateAddress (address : string) (start end_ : nat) : string :=
  if Nat.leb (String.length address) (start + end_) then address
  else String_slice_to start address ++ "..." ++ String_slice_last end_ address.

(** ** services/websocket.ts *)

(** [String.prototype.includes], and [String.prototype.replace] with a
    string pattern, which replaces the first occurrence only. *)
Fixpoint String_includes (searchString s : string) : bool :=
  String.prefix searchString s
  || match s with
     | EmptyString => false
     | String _ rest => String_includes searchString rest
     end.

Fixpoint String_replace (pattern replacement s : string) : string :=
  if String.prefix pattern s
  then replacement ++ String_drop (String.length pattern) s
  else match s with
       | EmptyString => EmptyString
       | String c rest => String c (String_replace pattern replacement rest)
       end.

(** [Set.prototype.delete] *)
Definition Set_delete (k : string) (s : JsSet.t) : JsSet.t :=
  filter (fun x => negb (String.eqb k x)) s.

(** The class [WebSocketService]. Of its fields, [url] and [callbacks] are
    left out: the methods below do not read them. [ws] is the field with
    the [readyState] of the socket it refers to, [wire] lists the texts
    handed to [ws.send] and [timers] the delays handed to [setTimeout].
    The [onmessage] handler is not part of this model. *)
Module WebSocketService.

Inductive ReadyState := CONNECTING | OPEN | CLOSING | CLOSED.

(** The [data] of an outgoing message: request parameters, or the names of
    a pair, a property being [None] where the caller passed [undefined]. *)
Inductive Data :=
| DataParams (params : Params.t)
| DataPair (pair token chain : option string).

Record Message := { event : string; data : Data }.

Record t := {
  ws : option ReadyState;
  reconnectAttempts : nat;
  isConnecting : bool;
  shouldReconnect : bool;
  subscriptions : JsSet.t;
  wire : list string;
  timers : list nat
}.

Definition maxReconnectAttempts : nat := 5.
Definition reconnectDelay : nat := 1000.

(** [new WebSocketService()] *)
Definition create : t :=
  {| ws := None; reconnectAttempts := 0; isConnecting := false;
     shouldReconnect := true; subscriptions := []; wire := []; timers := [] |}.

Definition set_ws (v : option ReadyState) (s : t) : t :=
  {| ws := v; reconnectAttempts := reconnectAttempts s;
     isConnecting := isConnecting s; shouldReconnect := shouldReconnect s;
     subscriptions := subscriptions s; wire := wire s; timers := timers s |}.

Definition set_isConnecting (v : bool) (s : t) : t :=
  {| ws := ws s; reconnectAttempts := reconnectAttempts s;
     isConnecting := v; shouldReconnect := shouldReconnect s;
     subscriptions := subscriptions s; wire := wire s; timers := timers s |}.

Section Json.

(** [JSON.stringify] of the [data] object. *)
Variable stringify_data : Data -> string.

Definition quote (s : string) : string :=
  String "034" (s ++ String "034" EmptyString).

(** [JSON.stringify(message)] for an object with the keys [event] and
    [data], in this order. The event is written between quotes as it is:
    the event names of the program hold no character that JSON escapes. *)
Definition JSON_stringify (message : Message) : string :=
  "{" ++ quote "event" ++ ":" ++ quote (event message) ++ ","
  ++ quote "data" ++ ":" ++ stringify_data (data message) ++ "}".

(** [isConnected] *)
Definition isConnected (s : t) : bool :=
  match ws s with
  | Some OPEN => true
  | _ => false
  end.

(** [send]: the returned boolean and the service afterwards. *)
Definition send (message : Message) (s : t) : bool * t :=
  match ws s with
  | Some OPEN =>
      let messageStr := JSON_stringify message in
      (* Store subscriptions for reconnection *)
      let subscriptions' :=
        if String_includes "subscribe" (event message)
           && negb (String_includes "unsubscribe" (event message))
        then JsSet.add messageStr (subscriptions s)
        else if String_includes "unsubscribe" (event message)
        then
          (* Remove from subscriptions *)
          let subscribeMessage :=
            {| event := String_replace "unsubscribe-" "" (event message);
               data := data message |} in
          Set_delete (JSON_stringify subscribeMessage) (subscriptions s)
        else subscriptions s in
      (true,
       {| ws := ws s; reconnectAttempts := reconnectAttempts s;
          isConnecting := isConnecting s; shouldReconnect := shouldReconnect s;
          subscriptions := subscriptions'; wire := wire s ++ [messageStr];
          timers := timers s |})
  | _ => (false, s)
  end.

(** Convenience methods for common subscriptions *)
Definition subscribeToScannerFilter (params : Params.t) : t -> bool * t :=
  send {| event := "scanner-filter"; data := DataParams params |}.

Definition unsubscribeFromScannerFilter (params : Params.t) : t -> bool * t :=
  send {| event := "unsubscribe-scanner-filter"; data := DataParams params |}.

Definition subscribeToPair (pairAddress tokenAddress chain : option string)
  : t -> bool * t :=
  send {| event := "subscribe-pair";
          data := DataPair pairAddress tokenAddress chain |}.

Definition unsubscribeFromPair (pairAddress tokenAddress chain : option string)
  : t -> bool * t :=
  send {| event := "unsubscribe-pair";
          data := DataPair pairAddress tokenAddress chain |}.

Definition subscribeToPairStats (pairAddress tokenAddress chain : option string)
  : t -> bool * t :=
  send {| event := "subscribe-pair-stats";
          data := DataPair pairAddress tokenAddress chain |}.

Definition unsubscribeFromPairStats (pairAddress tokenAddress chain : option string)
  : t -> bool * t :=
  send {| event := "unsubscribe-pair-stats";
          data := DataPair pairAddress tokenAddress chain |}.

(** One call of the hook on the service, and the calls of one run of
    [subscribeToTokens], in order. *)
Definition call (o : Outgoing) : t -> bool * t :=
  match o with
  | OutScannerFilter params => subscribeToScannerFilter params
  | OutSubscribePair pairAddress tokenAddress chain =>
      subscribeToPair (Some pairAddress) (Some tokenAddress)
        (Some (chain_string chain))
  | OutSubscribePairStats pairAddress tokenAddress chain =>
      subscribeToPairStats (Some pairAddress) (Some tokenAddress)
        (Some (chain_string chain))
  | OutUnsubscribePair pairAddress tokenAddress chain =>
      unsubscribeFromPair pairAddress tokenAddress chain
  | OutUnsubscribePairStats pairAddress tokenAddress chain =>
      unsubscribeFromPairStats pairAddress tokenAddress chain
  end.

Definition calls (sent : list Outgoing) (s : t) : t :=
  fold_left (fun s o => snd (call o s)) sent s.

(** [JSON.parse] of a stored text; [None] where it throws. *)
Variable JSON_parse : string -> option Message.

(** [resubscribeAll]: [subscriptions.forEach] with a callback that may add
    to the set or delete from it. The iteration visits the entries in
    insertion order, those added on the way included, and passes over
    deleted ones; [i] counts the entries visited so far that are still in
    the set. [None] when [fuel] callbacks did not exhaust the set. *)
Fixpoint resubscribeAll_from (fuel i : nat) (s : t) : option t :=
  match nth_error (subscriptions s) i with
  | None => Some s
  | Some subscription =>
      match fuel with
      | O => None
      | S fuel' =>
          let s' :=
            match JSON_parse subscription with
            | Some message => snd (send message s)
            | None => s
            end in
          let visited :=
            filter (fun x => JsSet.has x (subscriptions s'))
              (firstn (S i) (subscriptions s)) in
          resubscribeAll_from fuel' (List.length visited) s'
      end
  end.

Definition resubscribeAll (fuel : nat) (s : t) : option t :=
  resubscribeAll_from fuel 0 s.

(** The [onopen] handler; the socket is open by then. *)
Definition onopen (fuel : nat) (s : t) : option t :=
  resubscribeAll fuel
    {| ws := match ws s with
             | Some _ => Some OPEN
             | None => None
             end;
       reconnectAttempts := 0; isConnecting := false;
       shouldReconnect := shouldReconnect s; subscriptions := subscriptions s;
       wire := wire s; timers := timers s |}.

End Json.

(** [connect], up to the creation of the socket. *)
Definition connect (s : t) : t :=
  if isConnecting s
     || match ws s with
        | Some CONNECTING => true
        | _ => false
        end
  then s
  else set_ws (Some CONNECTING) (set_isConnecting true s).

(** [disconnect] *)
Definition disconnect (s : t) : t :=
  {| ws := None; reconnectAttempts := reconnectAttempts s;
     isConnecting := isConnecting s; shouldReconnect := false;
     subscriptions := []; wire := wire s; timers := timers s |}.

(** [scheduleReconnect] *)
Definition scheduleReconnect (s : t) : t :=
  let reconnectAttempts' := S (reconnectAttempts s) in
  let delay := reconnectDelay * Nat.pow 2 (reconnectAttempts' - 1) in
  {| ws := ws s; reconnectAttempts := reconnectAttempts';
     isConnecting := isConnecting s; shouldReconnect := shouldReconnect s;
     subscriptions := subscriptions s; wire := wire s;
     timers := timers s ++ [delay] |}.

(** The callback given to [setTimeout]. *)
Definition timeout (s : t) : t :=
  if shouldReconnect s then connect s else s.

(** The [onclose] handler; the socket is closed by then. *)
Definition onclose (s : t) : t :=
  let s1 :=
    set_isConnecting false
      (set_ws match ws s with
              | Some _ => Some CLOSED
              | None => None
              end s) in
  if shouldReconnect s1 && Nat.ltb (reconnectAttempts s1) maxReconnectAttempts
  then scheduleReconnect s1
  else s1.

(** The [onerror] handler. *)
Definition onerror (s : t) : t := set_isConnecting false s.

End WebSocketService.

(** ** Test data

    The two records of the hook's test suite, their creation dates written
    as epoch milliseconds, and a stand-in for date parsing that reads such
    a text (closed examples need some instance of the builtin). *)
Module Fixture.

Definition Date_parse (s : string) : number := RefParse.parseFloat s.

Definition pair1 : ScannerResult.t :=
  {| ScannerResult.age := "1704103200000";
     ScannerResult.buys := Val 15%float;
     ScannerResult.sells := Val 8%float;
     ScannerResult.chainId := 1%float;
     ScannerResult.contractVerified := true;
     ScannerResult.currentMcap := RStr "1000000";
     ScannerResult.dexPaid := true;
     ScannerResult.diff5M := RStr "2.5";
     ScannerResult.diff1H := RStr "-1.2";
     ScannerResult.diff6H := RStr "5.8";
     ScannerResult.diff24H := RStr "-3.4";
     ScannerResult.discordLink := Val "https://discord.gg/test1";
     ScannerResult.telegramLink := Val "https://t.me/test1";
     ScannerResult.twitterLink := Val "https://twitter.com/test1";
     ScannerResult.webLink := Val "https://test1.com";
     ScannerResult.honeyPot := Val false;
     ScannerResult.initialMcap := RNull;
     ScannerResult.isFreezeAuthDisabled := false;
     ScannerResult.isMintAuthDisabled := true;
     ScannerResult.liquidity := RStr "100000";
     ScannerResult.migrationProgress := Val "75.0";
     ScannerResult.pairAddress := "0xpair1";
     ScannerResult.pairMcapUsd := RNull;
     ScannerResult.pairMcapUsdInitial := RNull;
     ScannerResult.percentChangeInLiquidity := RStr "15.5";
     ScannerResult.price := RStr "1.5";
     ScannerResult.token1Address := "0xtoken1";
     ScannerResult.token1Name := "Test Token 1";
     ScannerResult.token1Symbol := "TEST1";
     ScannerResult.token1TotalSupplyFormatted := RStr "666667";
     ScannerResult.virtualRouterType := Val "Uniswap";
     ScannerResult.volume := RStr "50000" |}.

Definition pair2 : ScannerResult.t :=
  {| ScannerResult.age := "1704096000000";
     ScannerResult.buys := Val 30%float;
     ScannerResult.sells := Val 20%float;
     ScannerResult.chainId := 56%float;
     ScannerResult.contractVerified := false;
     ScannerResult.currentMcap := RStr "500000";
     ScannerResult.dexPaid := false;
     ScannerResult.diff5M := RStr "-5.2";
     ScannerResult.diff1H := RStr "12.7";
     ScannerResult.diff6H := RStr "-2.1";
     ScannerResult.diff24H := RStr "8.9";
     ScannerResult.discordLink := Null;
     ScannerResult.telegramLink := Null;
     ScannerResult.twitterLink := Null;
     ScannerResult.webLink := Null;
     ScannerResult.honeyPot := Val true;
     ScannerResult.initialMcap := RNull;
     ScannerResult.isFreezeAuthDisabled := true;
     ScannerResult.isMintAuthDisabled := false;
     ScannerResult.liquidity := RStr "75000";
     ScannerResult.migrationProgress := Null;
     ScannerResult.pairAddress := "0xpair2";
     ScannerResult.pairMcapUsd := RNull;
     ScannerResult.pairMcapUsdInitial := RNull;
     ScannerResult.percentChangeInLiquidity := RStr "-8.3";
     ScannerResult.price := RStr "0.001";
     ScannerResult.token1Address := "0xtoken2";
     ScannerResult.token1Name := "Test Token 2";
     ScannerResult.token1Symbol := "TEST2";
     ScannerResult.token1TotalSupplyFormatted := RStr "500000000";
     ScannerResult.virtualRouterType := Val "PancakeSwap";
     ScannerResult.volume := RStr "25000" |}.

(** A third record: the first one under another address. *)
Definition pair3 : ScannerResult.t :=
  {| ScannerResult.age := ScannerResult.age pair1;
     ScannerResult.buys := ScannerResult.buys pair1;
     ScannerResult.sells := ScannerResult.sells pair1;
     ScannerResult.chainId := ScannerResult.chainId pair1;
     ScannerResult.contractVerified := ScannerResult.contractVerified pair1;
     ScannerResult.currentMcap := ScannerResult.currentMcap pair1;
     ScannerResult.dexPaid := ScannerResult.dexPaid pair1;
     ScannerResult.diff5M := ScannerResult.diff5M pair1;
     ScannerResult.diff1H := ScannerResult.diff1H pair1;
     ScannerResult.diff6H := ScannerResult.diff6H pair1;
     ScannerResult.diff24H := ScannerResult.diff24H pair1;
     ScannerResult.discordLink := ScannerResult.discordLink pair1;
     ScannerResult.telegramLink := ScannerResult.telegramLink pair1;
     ScannerResult.twitterLink := ScannerResult.twitterLink pair1;
     ScannerResult.webLink := ScannerResult.webLink pair1;
     ScannerResult.honeyPot := ScannerResult.honeyPot pair1;
     ScannerResult.initialMcap := ScannerResult.initialMcap pair1;
     ScannerResult.isFreezeAuthDisabled := ScannerResult.isFreezeAuthDisabled pair1;
     ScannerResult.isMintAuthDisabled := ScannerResult.isMintAuthDisabled pair1;
     ScannerResult.liquidity := ScannerResult.liquidity pair1;
     ScannerResult.migrationProgress := ScannerResult.migrationProgress pair1;
     ScannerResult.pairAddress := "0xpair3";
     ScannerResult.pairMcapUsd := ScannerResult.pairMcapUsd pair1;
     ScannerResult.pairMcapUsdInitial := ScannerResult.pairMcapUsdInitial pair1;
     ScannerResult.percentChangeInLiquidity := ScannerResult.percentChangeInLiquidity pair1;
     ScannerResult.price := RStr "0.1";
     ScannerResult.token1Address := "0xtoken3";
     ScannerResult.token1Name := "New Token";
     ScannerResult.token1Symbol := "NEW";
     ScannerResult.token1TotalSupplyFormatted :=
       ScannerResult.token1TotalSupplyFormatted pair1;
     ScannerResult.virtualRouterType := ScannerResult.virtualRouterType pair1;
     ScannerResult.volume := ScannerResult.volume pair1 |}.

(** The first record with other market-cap texts. *)
Definition with_mcaps (current initial pair pairInitial : raw) : ScannerResult.t :=
  {| ScannerResult.age := ScannerResult.age pair1;
     ScannerResult.buys := ScannerResult.buys pair1;
     ScannerResult.sells := ScannerResult.sells pair1;
     ScannerResult.chainId := ScannerResult.chainId pair1;
     ScannerResult.contractVerified := ScannerResult.contractVerified pair1;
     ScannerResult.currentMcap := current;
     ScannerResult.dexPaid := ScannerResult.dexPaid pair1;
     ScannerResult.diff5M := ScannerResult.diff5M pair1;
     ScannerResult.diff1H := ScannerResult.diff1H pair1;
     ScannerResult.diff6H := ScannerResult.diff6H pair1;
     ScannerResult.diff24H := ScannerResult.diff24H pair1;
     ScannerResult.discordLink := ScannerResult.discordLink pair1;
     ScannerResult.telegramLink := ScannerResult.telegramLink pair1;
     ScannerResult.twitterLink := ScannerResult.twitterLink pair1;
     ScannerResult.webLink := ScannerResult.webLink pair1;
     ScannerResult.honeyPot := ScannerResult.honeyPot pair1;
     ScannerResult.initialMcap := initial;
     ScannerResult.isFreezeAuthDisabled := ScannerResult.isFreezeAuthDisabled pair1;
     ScannerResult.isMintAuthDisabled := ScannerResult.isMintAuthDisabled pair1;
     ScannerResult.liquidity := ScannerResult.liquidity pair1;
     ScannerResult.migrationProgress := ScannerResult.migrationProgress pair1;
     ScannerResult.pairAddress := ScannerResult.pairAddress pair1;
     ScannerResult.pairMcapUsd := pair;
     ScannerResult.pairMcapUsdInitial := pairInitial;
     ScannerResult.percentChangeInLiquidity := ScannerResult.percentChangeInLiquidity pair1;
     ScannerResult.price := RStr "0.5";
     ScannerResult.token1Address := ScannerResult.token1Address pair1;
     ScannerResult.token1Name := ScannerResult.token1Name pair1;
     ScannerResult.token1Symbol := ScannerResult.token1Symbol pair1;
     ScannerResult.token1TotalSupplyFormatted := RStr "1000000";
     ScannerResult.virtualRouterType := ScannerResult.virtualRouterType pair1;
     ScannerResult.volume := ScannerResult.volume pair1 |}.

(** A record created at time 0 with a clean audit, a verified contract,
    liquidity at 30 percent of the market cap and a volume of 50000; the
    links are left open. *)
Definition old_and_clean (discordLink twitterLink : opt string) : ScannerResult.t :=
  {| ScannerResult.age := "0";
     ScannerResult.buys := Val 15%float;
     ScannerResult.sells := Val 8%float;
     ScannerResult.chainId := 1%float;
     ScannerResult.contractVerified := true;
     ScannerResult.currentMcap := RStr "1000000";
     ScannerResult.dexPaid := true;
     ScannerResult.diff5M := RStr "2.5";
     ScannerResult.diff1H := RStr "-1.2";
     ScannerResult.diff6H := RStr "5.8";
     ScannerResult.diff24H := RStr "-3.4";
     ScannerResult.discordLink := discordLink;
     ScannerResult.telegramLink := Null;
     ScannerResult.twitterLink := twitterLink;
     ScannerResult.webLink := Null;
     ScannerResult.honeyPot := Val false;
     ScannerResult.initialMcap := RNull;
     ScannerResult.isFreezeAuthDisabled := true;
     ScannerResult.isMintAuthDisabled := true;
     ScannerResult.liquidity := RStr "300000";
     ScannerResult.migrationProgress := Null;
     ScannerResult.pairAddress := "0xpair4";
     ScannerResult.pairMcapUsd := RNull;
     ScannerResult.pairMcapUsdInitial := RNull;
     ScannerResult.percentChangeInLiquidity := RStr "0";
     ScannerResult.price := RStr "1.5";
     ScannerResult.token1Address := "0xtoken4";
     ScannerResult.token1Name := "Old Token";
     ScannerResult.token1Symbol := "OLD";
     ScannerResult.token1TotalSupplyFormatted := RStr "666667";
     ScannerResult.virtualRouterType := Val "Uniswap";
     ScannerResult.volume := RStr "50000" |}.

(** A record created at time 1000 with every audit flag raised, liquidity
    at a ten-thousandth of the market cap, a volume of 500 and no link. *)
Definition fresh_and_risky : ScannerResult.t :=
  {| ScannerResult.age := "1000";
     ScannerResult.buys := Val 1%float;
     ScannerResult.sells := Val 0%float;
     ScannerResult.chainId := 900%float;
     ScannerResult.contractVerified := false;
     ScannerResult.currentMcap := RStr "1000000";
     ScannerResult.dexPaid := false;
     ScannerResult.diff5M := RStr "0";
     ScannerResult.diff1H := RStr "0";
     ScannerResult.diff6H := RStr "0";
     ScannerResult.diff24H := RStr "0";
     ScannerResult.discordLink := Null;
     ScannerResult.telegramLink := Null;
     ScannerResult.twitterLink := Null;
     ScannerResult.webLink := Null;
     ScannerResult.honeyPot := Val true;
     ScannerResult.initialMcap := RNull;
     ScannerResult.isFreezeAuthDisabled := false;
     ScannerResult.isMintAuthDisabled := false;
     ScannerResult.liquidity := RStr "100";
     ScannerResult.migrationProgress := Null;
     ScannerResult.pairAddress := "0xpair5";
     ScannerResult.pairMcapUsd := RNull;
     ScannerResult.pairMcapUsdInitial := RNull;
     ScannerResult.percentChangeInLiquidity := RStr "0";
     ScannerResult.price := RStr "1";
     ScannerResult.token1Address := "0xtoken5";
     ScannerResult.token1Name := "Fresh Token";
     ScannerResult.token1Symbol := "FRESH";
     ScannerResult.token1TotalSupplyFormatted := RStr "1000000";
     ScannerResult.virtualRouterType := Null;
     ScannerResult.volume := RStr "500" |}.

Definition normalize (now : Date) (r : ScannerResult.t) : TokenData.t :=
  scannerResultToToken RefParse.parseFloat Date_parse now r.

(** The hook state after the first page [pair1; pair2] was loaded at time
    1000 (no filters, trending table). *)
Definition defaultProps : Props :=
  {| tableType := TableTrending; filters := None; sortColumn := None;
     sortOrder := None |}.

Definition response12 : ScannerApiResponse :=
  {| pairs := [pair1; pair2]; resp_totalRows := 2%float |}.

Definition world_loaded : World :=
  run RefParse.parseFloat Date_parse (mount defaultProps)
    [EvSocketOpened; EvFetchResolved 0 response12 1000%float].

Definition loaded : HookState := hook world_loaded.

End Fixture.

Unset Implicit Arguments.

(** * Vocabulary of the statements *)

(** ** Lists, maps and messages *)

(** What the walk puts at the place of [token], and whether [token]
    matches. *)
Definition patched (patch : TokenData.t -> option TokenData.t) (token : TokenData.t)
  : TokenData.t :=
  match patch token with
  | Some updatedToken => updatedToken
  | None => token
  end.

Definition matches (patch : TokenData.t -> option TokenData.t) (token : TokenData.t)
  : bool :=
  match patch token with Some _ => true | None => false end.

(** The state of the hook after a message. *)
Definition after_message parseFloat Date_parse (now : Date)
  (message : IncomingWebSocketMessage) (st : HookState) : HookState :=
  fst (handleWebSocketMessage parseFloat Date_parse now message st).

(** The ids of a list of tokens, in order. *)
Definition ids (l : list TokenData.t) : list string := map TokenData.id l.

(** The map holds no id that the list lacks. *)
Definition coherent (st : HookState) : Prop :=
  forall k, JsMap.has k (tokensMapRef st) = true -> In k (ids (tokens st)).

(** Every cell of the map is filed under the id of its token. *)
Definition keyed (m : JsMap.t) : Prop :=
  forall k v, In (k, v) m -> TokenData.id v = k.

(** List and map in step: the invariant of the hook. *)
Definition in_step (st : HookState) : Prop :=
  keyed (tokensMapRef st) /\ coherent st.

(** The entity that the merge leaves at the place of [token]. *)
Definition merged_entity (incoming : list TokenData.t) (token : TokenData.t)
  : TokenData.t :=
  match find (fun n => String.eqb (TokenData.id n) (TokenData.id token)) incoming with
  | Some n =>
      if PrimFloat.ltb (TokenData.lastUpdated token) (TokenData.lastUpdated n)
      then n else token
  | None => token
  end.

(** What the second loop of the full-dataset case does to the list [r],
    the map [m] and the flag [h]. *)
Record add_new_facts (updatedTokens r : list TokenData.t) (m : JsMap.t) (h : bool)
  (r' : list TokenData.t) (m' : JsMap.t) (h' : bool) : Prop := {
  an_prefix : exists added, r' = r ++ added /\ incl added updatedTokens;
  an_pushed : forall n, In n updatedTokens -> JsMap.has (TokenData.id n) m = false ->
                        In (TokenData.id n) (ids r');
  an_has : forall k, JsMap.has k m' = true ->
                     JsMap.has k m = true \/ In k (ids r');
  an_size : JsMap.size m <= JsMap.size m';
  an_flag : h = true -> h' = true;
  an_same : h' = false -> r' = r /\ m' = m
}.

(** Whether the merge replaces [token]: the batch has a record of its id,
    and the first such record has a later last-updated time. *)
Definition replaced (incoming : list TokenData.t) (token : TokenData.t) : bool :=
  match find (fun n => String.eqb (TokenData.id n) (TokenData.id token)) incoming with
  | Some n => PrimFloat.ltb (TokenData.lastUpdated token) (TokenData.lastUpdated n)
  | None => false
  end.

(** The ids the map holds once the listed tokens have been updated: those
    it held before, and the ids of the replaced tokens. *)
Definition known_after_update (incoming : list TokenData.t) (st : HookState)
  (k : string) : bool :=
  JsMap.has k (tokensMapRef st)
  || existsb (fun token => String.eqb (TokenData.id token) k && replaced incoming token)
       (tokens st).

(** The records of a batch that are new to a set of ids: those whose id
    the set lacks, only the first of each id, in the order of the batch. *)
Fixpoint new_records (known : string -> bool) (incoming : list TokenData.t)
  : list TokenData.t :=
  match incoming with
  | [] => []
  | n :: rest =>
      if known (TokenData.id n) then new_records known rest
      else n :: new_records (fun k => String.eqb (TokenData.id n) k || known k) rest
  end.

(** Whether an id is among those of the listed tokens. *)
Definition is_listed (l : list TokenData.t) (k : string) : bool :=
  existsb (String.eqb k) (ids l).

(** Whether a text holds the character. *)
Fixpoint has_char (c : ascii) (s : string) : bool :=
  match s with
  | EmptyString => false
  | String c' rest => Ascii.eqb c' c || has_char c rest
  end.

(** ** Risk profiles *)

(** The quantities the specification's risk profiles speak about. *)
Definition ageInHours (now : number) (token : TokenData.t) : number :=
  ((now - TokenData.tokenCreatedTimestamp token) / (1000 * 60 * 60))%float.

Definition liquidityRatio (token : TokenData.t) : number :=
  (TokenData.liquidity_current token / TokenData.mcap token)%float.

(** Some social link, whichever of the four. *)
Definition has_social_link (token : TokenData.t) : bool :=
  match TokenData.socialLinks token with
  | None => false
  | Some l =>
      truthy_option_str (discord l) || truthy_option_str (telegram l)
      || truthy_option_str (twitter l) || truthy_option_str (website l)
  end.

(** Every risk factor present: age under 1 hour, ratio under 0.05,
    honeypot, mintable, freezable, unverified, volume under 1000, no social
    link. *)
Definition every_risk_factor (now : number) (token : TokenData.t) : bool :=
  lt (ageInHours now token) 1%float
  && lt (liquidityRatio token) 0.05%float
  && honeypot (TokenData.audit token)
  && mintable (TokenData.audit token)
  && freezable (TokenData.audit token)
  && negb (audit_contractVerified (TokenData.audit token))
  && lt (TokenData.volumeUsd token) 1000%float
  && negb (has_social_link token).

(** The audit, age, ratio and volume part of "no risk factor": older than
    one month (720 hours), ratio at least 0.2, clean audit, verified,
    volume at least 10000. *)
Definition clear_but_social (now : number) (token : TokenData.t) : bool :=
  PrimFloat.ltb 720%float (ageInHours now token)
  && PrimFloat.leb 0.2%float (liquidityRatio token)
  && negb (honeypot (TokenData.audit token))
  && negb (mintable (TokenData.audit token))
  && negb (freezable (TokenData.audit token))
  && audit_contractVerified (TokenData.audit token)
  && PrimFloat.leb 10000%float (TokenData.volumeUsd token).

(** No risk factor, in the words of the specification: "at least one
    social link". *)
Definition no_risk_factor (now : number) (token : TokenData.t) : bool :=
  clear_but_social now token && has_social_link token.

(** No risk factor, with the links the score looks at: twitter, telegram
    or website. *)
Definition no_counted_risk_factor (now : number) (token : TokenData.t) : bool :=
  clear_but_social now token && hasLinks token.

(** ** Scenarios *)

(** Messages of the test suite. *)
Module Messages.

Definition tick (pair price : string) (outlier : bool) : TickEventPayload :=
  {| tick_pair := pair;
     swaps := [ {| priceToken1Usd := price; isOutlier := outlier |} ] |}.

Definition stats (pair : string) : PairStatsMsgData :=
  {| stats_pair :=
       {| PairDetails.pairAddress := pair;
          PairDetails.mintAuthorityRenounced := true;
          PairDetails.freezeAuthorityRenounced := false;
          PairDetails.token1IsHoneypot := Val false;
          PairDetails.isVerified := true;
          PairDetails.linkDiscord := Null;
          PairDetails.linkTelegram := Null;
          PairDetails.linkTwitter := Val "https://twitter.com/updated";
          PairDetails.linkWebsite := Val "https://updated.com";
          PairDetails.dexPaid := false |};
     stats_migrationProgress := "85.5" |}.

End Messages.

(** The scenario of the specification: the first page is loaded at time
    1000; a tick at time 2000 sets the price of the first token to 2.0; in
    the same millisecond a full-dataset event brings the three records. *)
Module Scenario.

Definition ticked : HookState :=
  after_message RefParse.parseFloat Fixture.Date_parse 2000%float
    (Tick (Messages.tick "0xpair1" "2.0" false)) Fixture.loaded.

Definition batch : list ScannerResult.t :=
  [Fixture.pair1; Fixture.pair2; Fixture.pair3].

Definition merged : HookState :=
  after_message RefParse.parseFloat Fixture.Date_parse 2000%float
    (ScannerPairs batch) ticked.

End Scenario.

(** Loading the next page twice in a row. *)
Module Paging.

(** A first page of two records out of five. *)
Definition response_more : ScannerApiResponse :=
  {| pairs := [Fixture.pair1; Fixture.pair2]; resp_totalRows := 5%float |}.

Definition first_page : World :=
  run RefParse.parseFloat Fixture.Date_parse (mount Fixture.defaultProps)
    [EvFetchResolved 0 response_more 1000%float].

Definition one_more : World :=
  step RefParse.parseFloat Fixture.Date_parse first_page EvLoadMore.

Definition two_more : World :=
  step RefParse.parseFloat Fixture.Date_parse one_more EvLoadMore.

End Paging.

(** A change of filters while the first request is still in flight; the
    response to the newer request arrives first. *)
Module Overtaking.

Definition solana : Props :=
  {| tableType := TableTrending;
     filters := Some {| chains := [SOL]; minVolume := None; fs_maxAge := None;
                        minMarketCap := None; excludeHoneypots := true;
                        combinedFilter := None |};
     sortColumn := None; sortOrder := None |}.

Definition response_new : ScannerApiResponse :=
  {| pairs := [Fixture.pair3]; resp_totalRows := 1%float |}.

Definition both_in_flight : World :=
  step RefParse.parseFloat Fixture.Date_parse (mount Fixture.defaultProps)
    (EvPropsChange solana).

Definition newer_arrived : World :=
  step RefParse.parseFloat Fixture.Date_parse both_in_flight
    (EvFetchResolved 1 response_new 1000%float).

Definition earlier_arrived : World :=
  step RefParse.parseFloat Fixture.Date_parse newer_arrived
    (EvFetchResolved 0 Fixture.response12 2000%float).

(** The request of the first render, still suspended. *)
Definition earlier_request : Request :=
  {| rq_page := 1%float; rq_append := false; rq_filters := None;
     rq_params := buildApiParams Fixture.defaultProps 1%float |}.

End Overtaking.

(** ** Vocabulary of the further properties *)

(** List and map hold the same ids. *)
Definition same_ids (st : HookState) : Prop :=
  forall k, JsMap.has k (tokensMapRef st) = true <-> In k (ids (tokens st)).

(** The id of a token is its pair address. *)
Definition id_is_pair (token : TokenData.t) : Prop :=
  TokenData.id token = TokenData.pairAddress token.

(** The pair address an event is about, when it is a tick or a pair-stats
    event. *)
Definition event_pair (message : IncomingWebSocketMessage) : option string :=
  match message with
  | Tick data => Some (tick_pair data)
  | PairStats data => Some (PairDetails.pairAddress (stats_pair data))
  | ScannerPairs _ => None
  end.

(** The last element of a list that satisfies a test. *)
Definition find_last {A} (f : A -> bool) (l : list A) : option A :=
  find f (rev l).

(** Every listed id is a key of the map. *)
Definition listed (st : HookState) : Prop :=
  forall k, In k (ids (tokens st)) -> JsMap.has k (tokensMapRef st) = true.

(** What the hook keeps true of its list and map. *)
Definition well_kept (st : HookState) : Prop :=
  in_step st
  /\ listed st
  /\ (forall token, In token (tokens st) -> id_is_pair token)
  /\ (forall k v, In (k, v) (tokensMapRef st) -> id_is_pair v).

(** A longer life of the hook: the socket opens, the first page arrives,
    a tick and a pair-stats event for the first token follow, then a
    full-dataset event with a third record. *)
Module Journey.

Definition events : list Event :=
  [ EvSocketOpened;
    EvFetchResolved 0 Fixture.response12 1000%float;
    EvMessage (Tick (Messages.tick "0xpair1" "2.0" false)) 2000%float;
    EvMessage (PairStats (Messages.stats "0xpair1")) 2500%float;
    EvMessage (ScannerPairs Scenario.batch) 3000%float ].

Definition world : World :=
  run RefParse.parseFloat Fixture.Date_parse (mount Fixture.defaultProps) events.

End Journey.

(** Two listed tokens: an old one with a twitter link and every audit in
    order, and a fresh honeypot without links. *)
Module Listed.
Definition clean : TokenData.t :=
  Fixture.normalize 1000%float (Fixture.old_and_clean Null (Val "https://x.com/old")).
Definition risky : TokenData.t :=
  Fixture.normalize 1000%float Fixture.fresh_and_risky.
End Listed.

(** The socket service. The message a call of the hook puts on the wire,
    and the calls that ask for a subscription to a pair. *)
Module WS := WebSocketService.

Definition message_of (o : Outgoing) : WS.Message :=
  match o with
  | OutScannerFilter params =>
      {| WS.event := "scanner-filter"; WS.data := WS.DataParams params |}
  | OutSubscribePair pairAddress tokenAddress chain =>
      {| WS.event := "subscribe-pair";
         WS.data := WS.DataPair (Some pairAddress) (Some tokenAddress)
                      (Some (chain_string chain)) |}
  | OutSubscribePairStats pairAddress tokenAddress chain =>
      {| WS.event := "subscribe-pair-stats";
         WS.data := WS.DataPair (Some pairAddress) (Some tokenAddress)
                      (Some (chain_string chain)) |}
  | OutUnsubscribePair pairAddress tokenAddress chain =>
      {| WS.event := "unsubscribe-pair";
         WS.data := WS.DataPair pairAddress tokenAddress chain |}
  | OutUnsubscribePairStats pairAddress tokenAddress chain =>
      {| WS.event := "unsubscribe-pair-stats";
         WS.data := WS.DataPair pairAddress tokenAddress chain |}
  end.

Definition is_subscription (o : Outgoing) : bool :=
  match o with
  | OutSubscribePair _ _ _ | OutSubscribePairStats _ _ _ => true
  | _ => false
  end.

Definition subscription_event (e : string) : Prop :=
  e = "subscribe-pair"%string \/ e = "subscribe-pair-stats"%string.

(** Every stored text is the text of a pair subscription. *)
Definition stored_by_send (stringify_data : WS.Data -> string) (s : WS.t) : Prop :=
  forall text, In text (WS.subscriptions s) ->
    exists m, text = WS.JSON_stringify stringify_data m
              /\ subscription_event (WS.event m).

(** Every stored text parses back to a pair subscription with this text. *)
Definition parses_back (stringify_data : WS.Data -> string)
  (JSON_parse : string -> option WS.Message) (s : WS.t) : Prop :=
  forall text, In text (WS.subscriptions s) ->
    exists m, JSON_parse text = Some m
              /\ WS.JSON_stringify stringify_data m = text
              /\ subscription_event (WS.event m).

(** What happens to a service between two openings of its socket. *)
Inductive Lifecycle := Close | Error | Timeout | Connect.

Definition lifecycle_step (s : WS.t) (ev : Lifecycle) : WS.t :=
  match ev with
  | Close => WS.onclose s
  | Error => WS.onerror s
  | Timeout => WS.timeout s
  | Connect => WS.connect s
  end.

Definition lifecycle (evs : list Lifecycle) (s : WS.t) : WS.t :=
  fold_left lifecycle_step evs s.

Definition closes (evs : list Lifecycle) : nat :=
  List.length (filter (fun ev => match ev with Close => true | _ => false end) evs).

(** Stand-ins for [JSON.stringify] of the data and for [JSON.parse]: pair
    data written out (addresses without characters to escape), request
    parameters reduced to their chain; a text is read back by looking it
    up among the texts of known messages. *)
Module RefJson.

Definition field (name : string) (v : option string) : list string :=
  match v with
  | Some text => [(WS.quote name ++ ":" ++ WS.quote text)%string]
  | None => []
  end.

Definition stringify_data (d : WS.Data) : string :=
  match d with
  | WS.DataPair pairAddress tokenAddress chain =>
      "{" ++ String.concat ","
               (field "pair" pairAddress ++ field "token" tokenAddress
                ++ field "chain" chain) ++ "}"
  | WS.DataParams params =>
      "{" ++ String.concat ","
               (field "chain"
                  match Params.chain params with
                  | Val c => Some (chain_string c)
                  | _ => None
                  end) ++ "}"
  end.

Definition parse (known : list WS.Message) (text : string) : option WS.Message :=
  find (fun m => String.eqb (WS.JSON_stringify stringify_data m) text) known.

End RefJson.

(** A service with an open socket to which the hook subscribed one pair
    and then unsubscribed it. *)
Module Replay.

Definition opened : WS.t := WS.set_ws (Some WS.OPEN) WS.create.

Definition sent : list Outgoing :=
  [ OutSubscribePair "0xpair1" "0xtoken1" ETH;
    OutUnsubscribePair (Some "0xpair1") (Some "0xtoken1") (Some "ETH") ].

Definition unsubscribed : WS.t := WS.calls RefJson.stringify_data sent opened.

Definition parse : string -> option WS.Message :=
  RefJson.parse (map message_of sent).

Definition dropped : WS.t := lifecycle [Close; Timeout] unsubscribed.

End Replay.

(** * Properties *)

(** ** The walk over [prev] *)

Section PatchEach.

Variable patch : TokenData.t -> option TokenData.t.

Lemma patch_each_tokens prev m :
  fst (fst (patch_each patch prev m)) = map (patched patch) prev.
Proof.
  revert m. induction prev as [|token rest IH]; intros m; simpl; [reflexivity|].
  unfold patched at 1. destruct (patch token) as [u|].
  - specialize (IH (JsMap.set (TokenData.id token) u m)).
    destruct (patch_each patch rest _) as [[r m'] f]. simpl in *. now rewrite IH.
  - specialize (IH m).
    destruct (patch_each patch rest m) as [[r m'] f]. simpl in *. now rewrite IH.
Qed.

Lemma patch_each_found prev m :
  snd (patch_each patch prev m) = existsb (matches patch) prev.
Proof.
  revert m. induction prev as [|token rest IH]; intros m; simpl; [reflexivity|].
  unfold matches at 1. destruct (patch token) as [u|].
  - destruct (patch_each patch rest _) as [[r m'] f]. reflexivity.
  - specialize (IH m).
    destruct (patch_each patch rest m) as [[r m'] f]. simpl in *. exact IH.
Qed.

(** Nothing matches: the walk gives back the same elements, leaves the map
    alone and reports no match. *)
Lemma patch_each_no_match prev m :
  (forall token, In token prev -> patch token = None) ->
  patch_each patch prev m = (prev, m, false).
Proof.
  revert m. induction prev as [|token rest IH]; intros m H; simpl; [reflexivity|].
  rewrite (H token (or_introl eq_refl)).
  rewrite IH by (intros t Ht; apply H; now right). reflexivity.
Qed.

Lemma patch_each_nth prev m i token :
  nth_error prev i = Some token ->
  nth_error (fst (fst (patch_each patch prev m))) i = Some (patched patch token).
Proof.
  intros H. rewrite patch_each_tokens. now apply map_nth_error.
Qed.

Lemma patch_each_length prev m :
  List.length (fst (fst (patch_each patch prev m))) = List.length prev.
Proof. rewrite patch_each_tokens. apply length_map. Qed.

End PatchEach.

(** ** Map and set facts *)

Lemma JsMap_has_set k k' v m :
  JsMap.has k (JsMap.set k' v m) = String.eqb k' k || JsMap.has k m.
Proof.
  unfold JsMap.has. induction m as [|[k0 v0] rest IH]; simpl.
  - destruct (String.eqb k' k); reflexivity.
  - destruct (String.eqb k0 k') eqn:E0; simpl.
    + apply String.eqb_eq in E0. subst k0.
      destruct (String.eqb k' k); reflexivity.
    + destruct (String.eqb k0 k) eqn:E1; simpl.
      * now rewrite orb_true_r.
      * exact IH.
Qed.

Lemma JsMap_has_keys k m : JsMap.has k m = true <-> In k (JsMap.keys m).
Proof.
  unfold JsMap.has, JsMap.keys. induction m as [|[k0 v0] rest IH]; simpl.
  - split; [discriminate|tauto].
  - destruct (String.eqb k0 k) eqn:E.
    + apply String.eqb_eq in E. split; auto.
    + apply String.eqb_neq in E. rewrite IH. split; [auto|intros [H|H]; [contradiction|exact H]].
Qed.

Lemma JsMap_size_set k v m : JsMap.size m <= JsMap.size (JsMap.set k v m).
Proof.
  unfold JsMap.size. induction m as [|[k0 v0] rest IH]; simpl; [lia|].
  destruct (String.eqb k0 k); simpl; lia.
Qed.

Lemma set_tokensMapRef_same st : set_tokensMapRef (tokensMapRef st) st = st.
Proof. destruct st; reflexivity. Qed.

(** ** Market capitalisation *)

(** C8. Market-cap derivation returns the first strictly positive value among
    current, initial, pair and pair-initial market cap, in that order, and
    otherwise total supply times price; with current = 0 and initial =
    500000 the result is 500000 whatever the later fields hold. *)
Theorem calculateMarketCap_first_positive :
  (forall parseFloat result,
      calculateMarketCap parseFloat result = first_positive_or_fallback parseFloat result)
  /\ (forall parseFloat result,
         safeParseFloat parseFloat (ScannerResult.currentMcap result) = 0%float ->
         safeParseFloat parseFloat (ScannerResult.initialMcap result) = 500000%float ->
         calculateMarketCap parseFloat result = 500000%float).
Proof.
  split.
  - intros parseFloat result.
    unfold calculateMarketCap, first_positive_or_fallback, mcap_candidates. simpl.
    destruct (gt (safeParseFloat parseFloat (ScannerResult.currentMcap result)) _);
      [reflexivity|].
    destruct (gt (safeParseFloat parseFloat (ScannerResult.initialMcap result)) _);
      [reflexivity|].
    destruct (gt (safeParseFloat parseFloat (ScannerResult.pairMcapUsd result)) _);
      [reflexivity|].
    destruct (gt (safeParseFloat parseFloat (ScannerResult.pairMcapUsdInitial result)) _);
      reflexivity.
  - intros parseFloat result Hcur Hinit.
    unfold calculateMarketCap. rewrite Hcur, Hinit. reflexivity.
Qed.

Lemma calculateMarketCap_first_positive_witness :
  calculateMarketCap RefParse.parseFloat
    (Fixture.with_mcaps (RStr "0") (RStr "500000") (RStr "750000") (RStr "250000"))
  = 500000%float.
Proof.
  apply (proj2 calculateMarketCap_first_positive); vm_compute; reflexivity.
Defined.

(** The priority order on the other test cases of the repository. *)
Example calculateMarketCap_examples :
  calculateMarketCap RefParse.parseFloat
    (Fixture.with_mcaps (RStr "1000000") (RStr "500000") (RStr "750000") (RStr "250000"))
  = 1000000%float
  /\ calculateMarketCap RefParse.parseFloat
       (Fixture.with_mcaps RNull RNull (RStr "750000") (RStr "250000")) = 750000%float
  /\ calculateMarketCap RefParse.parseFloat
       (Fixture.with_mcaps RNull RNull RNull (RStr "250000")) = 250000%float
  /\ calculateMarketCap RefParse.parseFloat
       (Fixture.with_mcaps (RStr "invalid") (RStr "") RNull RUndefined) = 500000%float.
Proof. vm_compute. repeat split; reflexivity. Qed.

(** ** Preset merge *)

(** C4. For every preset name (and for no preset) and every base parameter
    object, the merged parameters carry the base object's [page] and
    [chain]. *)
Theorem applyCombinedFilterToParams_keeps_page_chain :
  forall (baseParams : Params.t) (combinedFilterType : CombinedFilterType),
    Params.page (applyCombinedFilterToParams baseParams combinedFilterType)
    = Params.page baseParams
    /\ Params.chain (applyCombinedFilterToParams baseParams combinedFilterType)
       = Params.chain baseParams.
Proof.
  intros baseParams [name|]; [|split; reflexivity].
  unfold applyCombinedFilterToParams.
  destruct (getCombinedFilterConfig (Some name)); split; reflexivity.
Qed.

(** The merge is not the identity: the preset's ranking replaces the
    caller's. *)
Example applyCombinedFilterToParams_overrides_rankBy :
  Params.rankBy
    (applyCombinedFilterToParams
       (Params.set_chain (Val SOL) (Params.set_page (Val 3%float) NEW_TOKENS_FILTERS))
       (Some hodl)) = Val mcap.
Proof. reflexivity. Qed.

(** ** Tick and pair-stats events *)

Lemma Array_pop_last {A} (l : list A) x :
  Array_pop l = Some x -> exists pre, l = pre ++ [x].
Proof.
  induction l as [|a rest IH]; simpl; [discriminate|].
  destruct rest as [|b rest'].
  - intros [= ->]. now exists [].
  - intros H. destruct (IH H) as [pre Hpre]. exists (a :: pre). now rewrite Hpre.
Qed.

Lemma Array_pop_nonempty {A} (l : list A) :
  l <> [] -> exists x, Array_pop l = Some x.
Proof.
  induction l as [|a rest IH]; [congruence|]. intros _.
  destruct rest as [|b rest'].
  - now exists a.
  - destruct IH as [x Hx]; [discriminate|]. exists x. exact Hx.
Qed.

Lemma filter_split_last {A} (f : A -> bool) l pre x :
  filter f l = pre ++ [x] ->
  exists l1 l2, l = l1 ++ x :: l2 /\ f x = true /\ forall y, In y l2 -> f y = false.
Proof.
  revert pre. induction l as [|a rest IH]; intros pre H; simpl in H.
  - destruct pre; discriminate.
  - destruct (f a) eqn:Fa.
    + destruct pre as [|p pre'].
      * simpl in H. injection H as -> Hrest.
        exists [], rest. repeat split; [exact Fa|].
        intros y Hy. destruct (f y) eqn:Fy; [|reflexivity].
        assert (In y (filter f rest)) by (apply filter_In; auto).
        rewrite Hrest in H. destruct H.
      * simpl in H. injection H as -> Hrest.
        destruct (IH _ Hrest) as (l1 & l2 & -> & Hx & Hl2).
        exists (p :: l1), l2. auto.
    + destruct (IH _ H) as (l1 & l2 & -> & Hx & Hl2).
      exists (a :: l1), l2. auto.
Qed.

(** [latestSwap] picks the last swap that is not an outlier. *)
Lemma latestSwap_some swaps s :
  latestSwap swaps = Some s ->
  exists pre post, swaps = pre ++ s :: post /\ isOutlier s = false
                   /\ forall s', In s' post -> isOutlier s' = true.
Proof.
  unfold latestSwap. intros H.
  destruct (Array_pop_last _ _ H) as [pre Hpre].
  destruct (filter_split_last _ _ _ _ Hpre) as (l1 & l2 & -> & Hs & Hl2).
  exists l1, l2. repeat split.
  - now apply negb_true_iff in Hs.
  - intros s' Hs'. apply Hl2 in Hs'. now apply negb_false_iff in Hs'.
Qed.

Lemma latestSwap_exists swaps :
  (exists s, In s swaps /\ isOutlier s = false) -> exists s, latestSwap swaps = Some s.
Proof.
  intros (s & Hin & Hs). apply Array_pop_nonempty. intros E.
  assert (In s (filter (fun swap => negb (isOutlier swap)) swaps))
    by (apply filter_In; split; [exact Hin|now rewrite Hs]).
  rewrite E in H. destruct H.
Qed.

Lemma latestSwap_all_outliers swaps :
  (forall s, In s swaps -> isOutlier s = true) -> latestSwap swaps = None.
Proof.
  intros H. unfold latestSwap.
  replace (filter (fun swap => negb (isOutlier swap)) swaps) with (@nil WsTokenSwap);
    [reflexivity|].
  symmetry. induction swaps as [|a rest IH]; simpl; [reflexivity|].
  rewrite (H a (or_introl eq_refl)). simpl. apply IH. intros s Hs. apply H. now right.
Qed.

(** C3. A tick or pair-stats event whose pair address matches no token
    leaves the hook state as it is, and the [setTokens] updater hands back
    [prev] itself: same array, same map, same content. *)
Theorem unknown_pair_event_is_noop :
  forall parseFloat Date_parse (now : Date) (st : HookState),
    (forall data,
        (forall token, In token (tokens st) ->
                       TokenData.pairAddress token <> tick_pair data) ->
        handleWebSocketMessage parseFloat Date_parse now (Tick data) st = (st, SamePrev))
    /\ (forall data,
           (forall token, In token (tokens st) ->
                          TokenData.pairAddress token
                          <> PairDetails.pairAddress (stats_pair data)) ->
           handleWebSocketMessage parseFloat Date_parse now (PairStats data) st
           = (st, SamePrev)).
Proof.
  intros parseFloat Date_parse now st. split; intros data Hno; simpl.
  - destruct (latestSwap (swaps data)) as [latest|]; [|reflexivity].
    rewrite patch_each_no_match.
    + simpl. now rewrite set_tokensMapRef_same.
    + intros token Hin. unfold tick_patch.
      destruct (String.eqb_spec (TokenData.pairAddress token) (tick_pair data)) as [E|E];
        [|reflexivity].
      exfalso. exact (Hno token Hin E).
  - rewrite patch_each_no_match.
    + simpl. now rewrite set_tokensMapRef_same.
    + intros token Hin. unfold stats_patch.
      destruct (String.eqb_spec (TokenData.pairAddress token)
                  (PairDetails.pairAddress (stats_pair data))) as [E|E];
        [|reflexivity].
      exfalso. exact (Hno token Hin E).
Qed.

(** What the list holds after the walk and [setTokens]: each token patched
    where the patch applies, in place. *)
Lemma tokens_after_walk patch st :
  tokens
    (let '(updatedTokens, m, foundToken) :=
       patch_each patch (tokens st) (tokensMapRef st) in
     setTokens (if foundToken then NewArray updatedTokens else SamePrev)
       (set_tokensMapRef m st))
  = map (patched patch) (tokens st).
Proof.
  pose proof (patch_each_tokens patch (tokens st) (tokensMapRef st)) as Ht.
  pose proof (patch_each_found patch (tokens st) (tokensMapRef st)) as Hf.
  destruct (patch_each patch (tokens st) (tokensMapRef st)) as [[r m] f].
  simpl in *. destruct f; simpl; [exact Ht|].
  symmetry. clear Ht. induction (tokens st) as [|token rest IH]; [reflexivity|].
  simpl in *. symmetry in Hf. apply orb_false_iff in Hf. destruct Hf as [Hm Hrest].
  rewrite IH by (now symmetry). f_equal.
  unfold patched, matches in *. destruct (patch token); [discriminate|reflexivity].
Qed.

Lemma tokens_after_tick parseFloat Date_parse now data st latest :
  latestSwap (swaps data) = Some latest ->
  tokens (after_message parseFloat Date_parse now (Tick data) st)
  = map (patched (tick_patch (tick_pair data) (parseFloat (priceToken1Usd latest)) now))
      (tokens st).
Proof.
  intros Hl. unfold after_message. simpl. rewrite Hl.
  rewrite <- tokens_after_walk.
  destruct (patch_each _ (tokens st) (tokensMapRef st)) as [[r m] f]. reflexivity.
Qed.

Lemma tokens_after_stats parseFloat Date_parse now data st :
  tokens (after_message parseFloat Date_parse now (PairStats data) st)
  = map (patched (stats_patch (stats_pair data)
                    (parseFloat (stats_migrationProgress data)) now))
      (tokens st).
Proof.
  unfold after_message. simpl. rewrite <- tokens_after_walk.
  destruct (patch_each _ (tokens st) (tokensMapRef st)) as [[r m] f]. reflexivity.
Qed.

(** C2. A tick whose swaps are all outliers leaves the state, and so every
    price, unchanged. When some swap is not an outlier, the last such swap
    decides: every token with the tick's pair address gets that swap's USD
    price, a market cap of total supply times that price, and [now] as
    last-updated time. *)
Theorem tick_sets_price_and_mcap :
  forall parseFloat Date_parse (now : Date) (data : TickEventPayload) (st : HookState),
    ((forall s, In s (swaps data) -> isOutlier s = true) ->
     after_message parseFloat Date_parse now (Tick data) st = st)
    /\ ((exists s, In s (swaps data) /\ isOutlier s = false) ->
        exists s pre post,
          swaps data = pre ++ s :: post
          /\ isOutlier s = false
          /\ (forall s', In s' post -> isOutlier s' = true)
          /\ forall i token,
              nth_error (tokens st) i = Some token ->
              TokenData.pairAddress token = tick_pair data ->
              exists token',
                nth_error
                  (tokens (after_message parseFloat Date_parse now (Tick data) st)) i
                = Some token'
                /\ TokenData.priceUsd token' = parseFloat (priceToken1Usd s)
                /\ TokenData.mcap token'
                   = (TokenData.totalSupply token * parseFloat (priceToken1Usd s))%float
                /\ TokenData.lastUpdated token' = now
                /\ TokenData.id token' = TokenData.id token).
Proof.
  intros parseFloat Date_parse now data st. split.
  - intros Hall. unfold after_message. simpl.
    now rewrite (latestSwap_all_outliers _ Hall).
  - intros Hex. destruct (latestSwap_exists _ Hex) as [s Hs].
    destruct (latestSwap_some _ _ Hs) as (pre & post & Hsplit & Hout & Hpost).
    exists s, pre, post. repeat split; try assumption.
    intros i token Hnth Hpair.
    exists (tick_updatedToken (parseFloat (priceToken1Usd s)) now token).
    rewrite (tokens_after_tick _ _ _ _ _ _ Hs).
    repeat split.
    erewrite map_nth_error by exact Hnth. f_equal.
    unfold patched, tick_patch. rewrite Hpair, String.eqb_refl. reflexivity.
Qed.

(** C10. After a pair-stats event, a token with the event's pair address
    has [mintable] = [mintAuthorityRenounced], [freezable] =
    [freezeAuthorityRenounced], [honeypot] = not [token1IsHoneypot] and
    [contractVerified] = [isVerified]; the normaliser sets [mintable] = not
    [isMintAuthDisabled], [freezable] = not [isFreezeAuthDisabled] and
    [honeypot] = [honeyPot]. *)
Theorem pair_stats_audit_polarity :
  (forall parseFloat Date_parse (now : Date) (data : PairStatsMsgData) (st : HookState)
          i token,
      nth_error (tokens st) i = Some token ->
      TokenData.pairAddress token = PairDetails.pairAddress (stats_pair data) ->
      exists token',
        nth_error (tokens (after_message parseFloat Date_parse now (PairStats data) st)) i
        = Some token'
        /\ mintable (TokenData.audit token')
           = PairDetails.mintAuthorityRenounced (stats_pair data)
        /\ freezable (TokenData.audit token')
           = PairDetails.freezeAuthorityRenounced (stats_pair data)
        /\ honeypot (TokenData.audit token')
           = negb (truthy_opt_bool (PairDetails.token1IsHoneypot (stats_pair data)))
        /\ audit_contractVerified (TokenData.audit token')
           = PairDetails.isVerified (stats_pair data))
  /\ (forall parseFloat Date_parse (now : Date) (result : ScannerResult.t),
         let token := scannerResultToToken parseFloat Date_parse now result in
         mintable (TokenData.audit token) = negb (ScannerResult.isMintAuthDisabled result)
         /\ freezable (TokenData.audit token)
            = negb (ScannerResult.isFreezeAuthDisabled result)
         /\ honeypot (TokenData.audit token)
            = truthy_opt_bool (ScannerResult.honeyPot result)).
Proof.
  split.
  - intros parseFloat Date_parse now data st i token Hnth Hpair.
    exists (stats_updatedToken (stats_pair data)
              (parseFloat (stats_migrationProgress data)) now token).
    rewrite tokens_after_stats. repeat split.
    erewrite map_nth_error by exact Hnth. f_equal.
    unfold patched, stats_patch. rewrite Hpair, String.eqb_refl. reflexivity.
  - intros parseFloat Date_parse now result. simpl. repeat split.
    apply orb_false_r.
Qed.

Lemma unknown_pair_event_is_noop_witness :
  handleWebSocketMessage RefParse.parseFloat Fixture.Date_parse 2000%float
    (Tick (Messages.tick "0xpair9" "2.0" false)) Fixture.loaded
  = (Fixture.loaded, SamePrev)
  /\ handleWebSocketMessage RefParse.parseFloat Fixture.Date_parse 2000%float
       (PairStats (Messages.stats "0xpair9")) Fixture.loaded
     = (Fixture.loaded, SamePrev).
Proof.
  split.
  - apply (proj1 (unknown_pair_event_is_noop RefParse.parseFloat Fixture.Date_parse
                    2000%float Fixture.loaded)).
    intros token Hin. vm_compute in Hin.
    destruct Hin as [<-|[<-|[]]]; vm_compute; discriminate.
  - apply (proj2 (unknown_pair_event_is_noop RefParse.parseFloat Fixture.Date_parse
                    2000%float Fixture.loaded)).
    intros token Hin. vm_compute in Hin.
    destruct Hin as [<-|[<-|[]]]; vm_compute; discriminate.
Defined.

Lemma tick_sets_price_and_mcap_witness :
  after_message RefParse.parseFloat Fixture.Date_parse 2000%float
    (Tick (Messages.tick "0xpair1" "999.0" true)) Fixture.loaded = Fixture.loaded
  /\ exists token',
      nth_error
        (tokens (after_message RefParse.parseFloat Fixture.Date_parse 2000%float
                   (Tick (Messages.tick "0xpair1" "2.0" false)) Fixture.loaded)) 0
      = Some token'
      /\ TokenData.priceUsd token' = 2%float
      /\ TokenData.mcap token' = 1333334%float
      /\ TokenData.lastUpdated token' = 2000%float.
Proof.
  split.
  - apply (proj1 (tick_sets_price_and_mcap RefParse.parseFloat Fixture.Date_parse
                    2000%float (Messages.tick "0xpair1" "999.0" true) Fixture.loaded)).
    intros s [<-|[]]. reflexivity.
  - assert (Hex : exists s, In s (swaps (Messages.tick "0xpair1" "2.0" false))
                              /\ isOutlier s = false).
    { eexists. split; [left; reflexivity|reflexivity]. }
    destruct (proj2 (tick_sets_price_and_mcap RefParse.parseFloat Fixture.Date_parse
                       2000%float (Messages.tick "0xpair1" "2.0" false) Fixture.loaded)
                Hex)
      as (s & pre & post & Hsplit & Hout & Hpost & Hall).
    assert (H0 : nth_error (tokens Fixture.loaded) 0
                 = Some (Fixture.normalize 1000%float Fixture.pair1))
      by (vm_compute; reflexivity).
    destruct (Hall 0 (Fixture.normalize 1000%float Fixture.pair1) H0 eq_refl)
      as (token' & Hnth & Hprice & Hmcap & Hlast & Hid).
    assert (Hs : s = {| priceToken1Usd := "2.0"; isOutlier := false |}).
    { destruct pre as [|a [|b pre']]; simpl in Hsplit.
      - now injection Hsplit as <- _.
      - injection Hsplit as _ Hnil. discriminate Hnil.
      - injection Hsplit as _ Hnil. discriminate Hnil. }
    subst s. exists token'. repeat split; assumption.
Defined.

Lemma pair_stats_audit_polarity_witness :
  exists token',
    nth_error
      (tokens (after_message RefParse.parseFloat Fixture.Date_parse 2000%float
                 (PairStats (Messages.stats "0xpair1")) Fixture.loaded)) 0
    = Some token'
    /\ mintable (TokenData.audit token') = true
    /\ freezable (TokenData.audit token') = false
    /\ honeypot (TokenData.audit token') = true
    /\ audit_contractVerified (TokenData.audit token') = true.
Proof.
  apply (proj1 pair_stats_audit_polarity RefParse.parseFloat Fixture.Date_parse
           2000%float (Messages.stats "0xpair1") Fixture.loaded 0
           (Fixture.normalize 1000%float Fixture.pair1)).
  - vm_compute. reflexivity.
  - reflexivity.
Defined.

(** The two polarities side by side: the first test record is normalised
    to "not mintable, freezable, no honeypot"; the pair-stats message of
    the test suite (both authorities reported as in the record, no
    honeypot) turns it into "mintable, not freezable, honeypot". *)
Example audit_before_and_after_stats :
  TokenData.audit (Fixture.normalize 1000%float Fixture.pair1)
  = {| mintable := false; freezable := true; honeypot := false;
       audit_contractVerified := true |}
  /\ map TokenData.audit
       (tokens (after_message RefParse.parseFloat Fixture.Date_parse 2000%float
                  (PairStats (Messages.stats "0xpair1")) Fixture.loaded))
     = [ {| mintable := true; freezable := false; honeypot := true;
            audit_contractVerified := true |};
         {| mintable := true; freezable := false; honeypot := true;
            audit_contractVerified := false |} ].
Proof. vm_compute. split; reflexivity. Qed.

(** ** The full-dataset event *)

Lemma scanner_patch_id updatedTokens token newTokenData :
  scanner_patch updatedTokens token = Some newTokenData ->
  TokenData.id newTokenData = TokenData.id token.
Proof.
  unfold scanner_patch.
  destruct (find _ updatedTokens) as [n|] eqn:F; [|discriminate].
  apply find_some in F. destruct F as [_ E]. apply String.eqb_eq in E.
  simpl. destruct (gt _ _); [|discriminate]. now intros [= <-].
Qed.

Lemma patched_scanner_id updatedTokens token :
  TokenData.id (patched (scanner_patch updatedTokens) token) = TokenData.id token.
Proof.
  unfold patched. destruct (scanner_patch updatedTokens token) eqn:E; [|reflexivity].
  now apply scanner_patch_id in E.
Qed.

(** The walk only sets map cells of ids met in the list, and drops none. *)
Lemma patch_each_map_has patch prev m k :
  JsMap.has k (snd (fst (patch_each patch prev m))) = true ->
  JsMap.has k m = true \/ In k (ids prev).
Proof.
  revert m. induction prev as [|token rest IH]; intros m; simpl; [auto|].
  destruct (patch token) as [u|].
  - specialize (IH (JsMap.set (TokenData.id token) u m)).
    destruct (patch_each patch rest _) as [[r m'] f]. simpl in *.
    intros H. destruct (IH H) as [H1|H1]; [|auto].
    rewrite JsMap_has_set in H1. apply orb_true_iff in H1.
    destruct H1 as [H1|H1]; [|auto]. apply String.eqb_eq in H1. auto.
  - specialize (IH m). destruct (patch_each patch rest m) as [[r m'] f]. simpl in *.
    intros H. destruct (IH H); auto.
Qed.

Lemma patch_each_map_keeps patch prev m k :
  JsMap.has k m = true -> JsMap.has k (snd (fst (patch_each patch prev m))) = true.
Proof.
  revert m. induction prev as [|token rest IH]; intros m H; simpl; [exact H|].
  destruct (patch token) as [u|].
  - specialize (IH (JsMap.set (TokenData.id token) u m)).
    destruct (patch_each patch rest _) as [[r m'] f]. simpl in *.
    apply IH. rewrite JsMap_has_set, H. apply orb_true_r.
  - specialize (IH m). destruct (patch_each patch rest m) as [[r m'] f]. simpl in *.
    now apply IH.
Qed.

Lemma patch_each_map_size patch prev m :
  JsMap.size m <= JsMap.size (snd (fst (patch_each patch prev m))).
Proof.
  revert m. induction prev as [|token rest IH]; intros m; simpl; [lia|].
  destruct (patch token) as [u|].
  - specialize (IH (JsMap.set (TokenData.id token) u m)).
    pose proof (JsMap_size_set (TokenData.id token) u m).
    destruct (patch_each patch rest _) as [[r m'] f]. simpl in *. lia.
  - specialize (IH m). destruct (patch_each patch rest m) as [[r m'] f]. exact IH.
Qed.

Lemma add_new_spec updatedTokens : forall r m h,
  let '(r', m', h') := add_new updatedTokens (r, m, h) in
  add_new_facts updatedTokens r m h r' m' h'.
Proof.
  unfold add_new.
  induction updatedTokens as [|a rest IH]; intros r m h; simpl.
  - constructor; auto.
    + exists []. split; [now rewrite app_nil_r|intros x []].
    + intros n [].
  - destruct (JsMap.has (TokenData.id a) m) eqn:Ha; simpl.
    + specialize (IH r m h).
      destruct (fold_left add_new_step rest (r, m, h)) as [[r' m'] h'].
      destruct IH as [(added & -> & Hincl) Hp Hh Hs Hf Hsame].
      constructor; auto.
      * exists added. split; [reflexivity|]. intros x Hx. right. now apply Hincl.
      * intros n [<-|Hn] Hn0; [congruence|]. now apply Hp.
    + specialize (IH (r ++ [a]) (JsMap.set (TokenData.id a) a m) true).
      destruct (fold_left add_new_step rest _) as [[r' m'] h'].
      destruct IH as [(added & -> & Hincl) Hp Hh Hs Hf Hsame].
      assert (Ha' : In (TokenData.id a) (ids ((r ++ [a]) ++ added))).
      { unfold ids. rewrite !map_app. apply in_or_app. left. apply in_or_app. right.
        now left. }
      constructor.
      * exists (a :: added). split; [now rewrite <- app_assoc|].
        intros x [<-|Hx]; [now left|right; now apply Hincl].
      * intros n Hn Hn0.
        destruct (String.eqb_spec (TokenData.id a) (TokenData.id n)) as [E|E].
        -- now rewrite <- E.
        -- destruct Hn as [<-|Hn]; [congruence|]. apply Hp; [exact Hn|].
           rewrite JsMap_has_set, Hn0. apply String.eqb_neq in E. now rewrite E.
      * intros k Hk. destruct (Hh k Hk) as [H1|H1]; [|auto].
        rewrite JsMap_has_set in H1. apply orb_true_iff in H1.
        destruct H1 as [H1|H1]; [|auto]. apply String.eqb_eq in H1. subst k. auto.
      * pose proof (JsMap_size_set (TokenData.id a) a m). lia.
      * intros _. now apply Hf.
      * intros Hh'. rewrite Hf in Hh' by reflexivity. discriminate.
Qed.

(** The list and the map after a scanner-pairs event are those the merge
    computes, whether or not [hasChanges] was raised. *)
Lemma after_scanner parseFloat Date_parse now results_pairs st :
  let updatedTokens :=
    map (scannerResultToToken parseFloat Date_parse now) results_pairs in
  let st' := after_message parseFloat Date_parse now (ScannerPairs results_pairs) st in
  tokens st' = fst (fst (scanner_merge updatedTokens (tokens st) (tokensMapRef st)))
  /\ tokensMapRef st'
     = snd (fst (scanner_merge updatedTokens (tokens st) (tokensMapRef st))).
Proof.
  intros updatedTokens st'. subst st'. unfold after_message. simpl.
  fold updatedTokens. unfold scanner_merge.
  pose proof (patch_each_no_match (scanner_patch updatedTokens) (tokens st)
                (tokensMapRef st)) as Hno.
  pose proof (patch_each_found (scanner_patch updatedTokens) (tokens st)
                (tokensMapRef st)) as Hf.
  destruct (patch_each (scanner_patch updatedTokens) (tokens st) (tokensMapRef st))
    as [[r1 m1] h1] eqn:E1.
  pose proof (add_new_spec updatedTokens r1 m1 h1) as Ha.
  destruct (add_new updatedTokens (r1, m1, h1)) as [[r2 m2] h2].
  destruct Ha as [_ _ _ _ Hflag Hsame]. simpl in *.
  destruct h2; simpl; [split; reflexivity|].
  destruct (Hsame eq_refl) as [-> ->]. destruct h1; [now specialize (Hflag eq_refl)|].
  assert (Hnone : forall token, In token (tokens st) ->
                                scanner_patch updatedTokens token = None).
  { intros token Hin. destruct (scanner_patch updatedTokens token) eqn:E; [|reflexivity].
    exfalso. assert (existsb (matches (scanner_patch updatedTokens)) (tokens st) = true).
    { apply existsb_exists. exists token. split; [exact Hin|]. unfold matches.
      now rewrite E. }
    congruence. }
  specialize (Hno Hnone). injection Hno as -> ->. split; reflexivity.
Qed.

(** The merge on any batch of normalised records. *)
Lemma scanner_merge_facts incoming prev m :
  (forall k, JsMap.has k m = true -> In k (ids prev)) ->
  let r := fst (fst (scanner_merge incoming prev m)) in
  let m' := snd (fst (scanner_merge incoming prev m)) in
  (forall i token, nth_error prev i = Some token ->
                   nth_error r i = Some (merged_entity incoming token))
  /\ (forall n, In n incoming -> In (TokenData.id n) (ids r))
  /\ (forall k, In k (ids prev) -> In k (ids r))
  /\ List.length prev <= List.length r
  /\ JsMap.size m <= JsMap.size m'
  /\ (forall k, JsMap.has k m' = true -> In k (ids r)).
Proof.
  intros Hco. unfold scanner_merge.
  pose proof (patch_each_tokens (scanner_patch incoming) prev m) as Hr1.
  pose proof (patch_each_map_has (scanner_patch incoming) prev m) as Hm1.
  pose proof (patch_each_map_size (scanner_patch incoming) prev m) as Hs1.
  destruct (patch_each (scanner_patch incoming) prev m) as [[r1 m1] h1].
  pose proof (add_new_spec incoming r1 m1 h1) as Ha.
  destruct (add_new incoming (r1, m1, h1)) as [[r2 m2] h2].
  destruct Ha as [(added & Hr2 & Hincl) Hpushed Hhas Hsize _ _].
  simpl in *. subst r1.
  assert (Hids : ids (map (patched (scanner_patch incoming)) prev) = ids prev).
  { unfold ids. rewrite map_map. apply map_ext. intros t. apply patched_scanner_id. }
  assert (Hsub : forall k, In k (ids prev) -> In k (ids r2)).
  { intros k Hk. rewrite Hr2. unfold ids. rewrite map_app. apply in_or_app. left.
    fold (ids (map (patched (scanner_patch incoming)) prev)).
    now rewrite Hids. }
  assert (Hco1 : forall k, JsMap.has k m1 = true -> In k (ids prev)).
  { intros k Hk. destruct (Hm1 k Hk) as [H|H]; [now apply Hco|exact H]. }
  split; [|split; [|split; [|split; [|split]]]].
  - intros i token Hnth. rewrite Hr2.
    rewrite nth_error_app1
      by (rewrite length_map; apply nth_error_Some; congruence).
    erewrite map_nth_error by exact Hnth. f_equal.
    unfold patched, scanner_patch, merged_entity.
    destruct (find _ incoming) as [n|]; [|reflexivity].
    simpl. unfold gt. destruct (PrimFloat.ltb _ _); reflexivity.
  - intros n Hn. destruct (JsMap.has (TokenData.id n) m1) eqn:E.
    + apply Hsub. now apply Hco1.
    + now apply Hpushed.
  - exact Hsub.
  - rewrite Hr2, length_app, length_map. lia.
  - lia.
  - intros k Hk. destruct (Hhas k Hk) as [H|H]; [|exact H]. apply Hsub. now apply Hco1.
Qed.

Example scenario_values :
  map (fun t => (TokenData.id t, TokenData.priceUsd t, TokenData.lastUpdated t))
    (tokens Scenario.merged)
  = [ ("0xpair1", 2%float, 2000%float);
      ("0xpair2", 0.001%float, 2000%float);
      ("0xpair3", 0.1%float, 2000%float) ]
  /\ JsMap.keys (tokensMapRef Scenario.merged) = ["0xpair1"; "0xpair2"; "0xpair3"].
Proof. vm_compute. split; reflexivity. Qed.

(** ** Risk score *)

(** Comparisons of an unknown number with two literals, through the
    IEEE-754 specification of the primitive operations. *)
Ltac literal_order :=
  intros x; rewrite ?leb_spec, ?ltb_spec;
  generalize (Prim2SF x); intros X;
  repeat match goal with
    | |- context [Prim2SF ?c] =>
        let v := eval vm_compute in (Prim2SF c) in change (Prim2SF c) with v
    end;
  unfold SpecFloat.SFleb, SpecFloat.SFltb, SpecFloat.SFcompare;
  destruct X as [s|s| |s m e]; try destruct s;
  try discriminate; try reflexivity;
  repeat match goal with
    | |- context [Z.compare ?a ?b] => destruct (Z.compare_spec a b)
    end;
  try lia; try discriminate; try reflexivity;
  match goal with
  | |- context [Pos.compare_cont Eq ?p m] =>
      let HA := fresh "HA" in
      pose proof (Pos.compare_cont_antisym m p Eq) as HA;
      change (CompOpp Eq) with Eq in HA; rewrite <- HA;
      destruct (Pos.compare_cont Eq m p); simpl; try discriminate; try reflexivity
  end.

Lemma lt_720_not_lt_1 : forall x,
  PrimFloat.ltb 720%float x = true -> PrimFloat.ltb x 1%float = false.
Proof. literal_order. Qed.

Lemma lt_720_not_lt_24 : forall x,
  PrimFloat.ltb 720%float x = true -> PrimFloat.ltb x 24%float = false.
Proof. literal_order. Qed.

Lemma lt_720_not_lt_168 : forall x,
  PrimFloat.ltb 720%float x = true -> PrimFloat.ltb x 168%float = false.
Proof. literal_order. Qed.

Lemma lt_720_not_lt_720 : forall x,
  PrimFloat.ltb 720%float x = true -> PrimFloat.ltb x 720%float = false.
Proof. literal_order. Qed.

Lemma le_02_not_lt_005 : forall x,
  PrimFloat.leb 0.2%float x = true -> PrimFloat.ltb x 0.05%float = false.
Proof. literal_order. Qed.

Lemma le_02_not_lt_01 : forall x,
  PrimFloat.leb 0.2%float x = true -> PrimFloat.ltb x 0.1%float = false.
Proof. literal_order. Qed.

Lemma le_02_not_lt_02 : forall x,
  PrimFloat.leb 0.2%float x = true -> PrimFloat.ltb x 0.2%float = false.
Proof. literal_order. Qed.

Lemma le_10000_not_lt_1000 : forall x,
  PrimFloat.leb 10000%float x = true -> PrimFloat.ltb x 1000%float = false.
Proof. literal_order. Qed.

Lemma le_10000_not_lt_10000 : forall x,
  PrimFloat.leb 10000%float x = true -> PrimFloat.ltb x 10000%float = false.
Proof. literal_order. Qed.

Ltac split_ifs :=
  repeat match goal with
    | |- context [if ?b then _ else _] => destruct b
    end.

Lemma calculateRiskScore_in_range now token :
  PrimFloat.leb 0%float (calculateRiskScore now token) = true
  /\ PrimFloat.leb (calculateRiskScore now token) 100%float = true.
Proof.
  unfold calculateRiskScore, risk_social, risk_volume, risk_audit, risk_liquidity,
    risk_age.
  cbv zeta.
  split_ifs; vm_compute; split; reflexivity.
Qed.

Lemma hasLinks_has_social_link token :
  hasLinks token = true -> has_social_link token = true.
Proof.
  unfold hasLinks, has_social_link. destruct (TokenData.socialLinks token) as [l|];
    [|discriminate].
  destruct (truthy_option_str (twitter l)), (truthy_option_str (telegram l)),
    (truthy_option_str (website l)), (truthy_option_str (discord l));
    simpl; intros H; try reflexivity; discriminate.
Qed.

Ltac split_andb H :=
  repeat (apply andb_true_iff in H; let H' := fresh "H" in destruct H as [H H']);
  repeat match goal with
    | Hn : negb _ = true |- _ => apply negb_true_iff in Hn
    end.

Ltac rewrite_flags :=
  repeat match goal with
    | Hx : _ = true |- _ => rewrite Hx; clear Hx
    | Hx : _ = false |- _ => rewrite Hx; clear Hx
    end.

Lemma every_risk_factor_scores_100 now token :
  every_risk_factor now token = true -> calculateRiskScore now token = 100%float.
Proof.
  unfold every_risk_factor, ageInHours, liquidityRatio, lt. intros H.
  split_andb H.
  assert (Hl : hasLinks token = false).
  { destruct (hasLinks token) eqn:E; [|reflexivity].
    apply hasLinks_has_social_link in E. congruence. }
  unfold calculateRiskScore, risk_social, risk_volume, risk_audit, risk_liquidity,
    risk_age, lt.
  cbv zeta. rewrite_flags. simpl negb. cbv iota.
  destruct (truthy_num (TokenData.liquidity_current token)
            && truthy_num (TokenData.mcap token)); vm_compute; reflexivity.
Qed.

Lemma no_counted_risk_factor_scores_0 now token :
  no_counted_risk_factor now token = true -> calculateRiskScore now token = 0%float.
Proof.
  unfold no_counted_risk_factor, clear_but_social, ageInHours, liquidityRatio.
  intros H. split_andb H.
  unfold calculateRiskScore, risk_social, risk_volume, risk_audit, risk_liquidity,
    risk_age, lt.
  cbv zeta.
  match goal with
  | Hx : PrimFloat.ltb 720%float _ = true |- _ =>
      rewrite (lt_720_not_lt_1 _ Hx), (lt_720_not_lt_24 _ Hx),
        (lt_720_not_lt_168 _ Hx), (lt_720_not_lt_720 _ Hx); clear Hx
  end.
  match goal with
  | Hx : PrimFloat.leb 0.2%float _ = true |- _ =>
      rewrite (le_02_not_lt_005 _ Hx), (le_02_not_lt_01 _ Hx),
        (le_02_not_lt_02 _ Hx); clear Hx
  end.
  match goal with
  | Hx : PrimFloat.leb 10000%float _ = true |- _ =>
      rewrite (le_10000_not_lt_1000 _ Hx), (le_10000_not_lt_10000 _ Hx); clear Hx
  end.
  rewrite_flags. simpl negb. cbv iota.
  destruct (truthy_num (TokenData.liquidity_current token)
            && truthy_num (TokenData.mcap token)); vm_compute; reflexivity.
Qed.

(** C7, as the code has it. The risk score lies in [0,100]; a token with
    every risk factor scores 100; a token with none of them scores 0, where
    "has a social link" means a twitter, telegram or website link: a
    discord link is not looked at. *)
Theorem calculateRiskScore_bounds_and_extremes :
  forall (now : number) (token : TokenData.t),
    (PrimFloat.leb 0%float (calculateRiskScore now token) = true
     /\ PrimFloat.leb (calculateRiskScore now token) 100%float = true)
    /\ (every_risk_factor now token = true -> calculateRiskScore now token = 100%float)
    /\ (no_counted_risk_factor now token = true ->
        calculateRiskScore now token = 0%float).
Proof.
  intros now token. split; [apply calculateRiskScore_in_range|]. split.
  - apply every_risk_factor_scores_100.
  - apply no_counted_risk_factor_scores_0.
Qed.

Lemma calculateRiskScore_bounds_and_extremes_witness :
  calculateRiskScore 3600000000%float
    (Fixture.normalize 1000%float (Fixture.old_and_clean Null (Val "https://x.com/old")))
  = 0%float
  /\ calculateRiskScore 1000%float
       (Fixture.normalize 1000%float Fixture.fresh_and_risky) = 100%float.
Proof.
  split.
  - apply (proj2 (proj2 (calculateRiskScore_bounds_and_extremes 3600000000%float
                           (Fixture.normalize 1000%float
                              (Fixture.old_and_clean Null (Val "https://x.com/old")))))).
    vm_compute. reflexivity.
  - apply (proj1 (proj2 (calculateRiskScore_bounds_and_extremes 1000%float
                           (Fixture.normalize 1000%float Fixture.fresh_and_risky)))).
    vm_compute. reflexivity.
Defined.

(** C7 as stated fails on a token whose only link is a discord link: it
    has no risk factor in the words of the specification and scores 15. *)
Lemma discord_only_scores_15 :
  no_risk_factor 3600000000%float
    (Fixture.normalize 1000%float
       (Fixture.old_and_clean (Val "https://discord.gg/old") Null)) = true
  /\ calculateRiskScore 3600000000%float
       (Fixture.normalize 1000%float
          (Fixture.old_and_clean (Val "https://discord.gg/old") Null)) = 15%float
  /\ calculateRiskScore 3600000000%float
       (Fixture.normalize 1000%float
          (Fixture.old_and_clean (Val "https://discord.gg/old") Null)) <> 0%float.
Proof.
  split; [vm_compute; reflexivity|]. split; [vm_compute; reflexivity|].
  intros E.
  apply (f_equal (fun x => PrimFloat.eqb x 0%float)) in E. vm_compute in E. discriminate.
Qed.

(** A honeypot fails the blue-chip preset on its risk score alone; the
    first test record passes no preset check on a five-minute rise of 5. *)
Example honeypot_fails_blue_chip :
  passesAdditionalChecks 1704200000000%float
    (Fixture.normalize 1000%float Fixture.pair2) (Some blue_chip) = false
  /\ passesAdditionalChecks 1704200000000%float
       (Fixture.normalize 1000%float Fixture.pair2) None = true
  /\ passesAdditionalChecks 1704200000000%float
       (Fixture.normalize 1000%float Fixture.pair1) (Some moonshot) = false.
Proof. vm_compute. repeat split; reflexivity. Qed.

(** ** Subscriptions *)

Lemma JsSet_add_in k k' s : In k (JsSet.add k' s) <-> k = k' \/ In k s.
Proof.
  unfold JsSet.add, JsSet.has. destruct (existsb (String.eqb k') s) eqn:E.
  - apply existsb_exists in E. destruct E as (x & Hx & Ex). apply String.eqb_eq in Ex.
    rewrite <- Ex in Hx. split; [auto|]. intros [->|H]; assumption.
  - rewrite in_app_iff. simpl. split.
    + intros [H|[H|[]]]; auto.
    + intros [H|H]; auto.
Qed.

Lemma JsSet_add_NoDup k s : NoDup s -> NoDup (JsSet.add k s).
Proof.
  intros Hs. unfold JsSet.add, JsSet.has. destruct (existsb (String.eqb k) s) eqn:E;
    [exact Hs|].
  apply NoDup_app; [exact Hs|repeat constructor; intros []|].
  intros x Hx [Ex|[]].
  assert (existsb (String.eqb k) s = true); [|congruence].
  apply existsb_exists. exists x. split; [exact Hx|]. rewrite Ex. apply String.eqb_refl.
Qed.

Lemma fold_add_keys (tokensToSubscribe : list TokenData.t) : forall s,
  NoDup s ->
  let s' := fold_left (fun acc token => JsSet.add (subscriptionKey token) acc)
              tokensToSubscribe s in
  NoDup s'
  /\ forall k, In k s' <-> In k s \/ In k (map subscriptionKey tokensToSubscribe).
Proof.
  induction tokensToSubscribe as [|token rest IH]; intros s Hs; simpl.
  - split; [exact Hs|]. intros k. tauto.
  - destruct (IH (JsSet.add (subscriptionKey token) s) (JsSet_add_NoDup _ _ Hs))
      as [Hnd Hin].
    split; [exact Hnd|]. intros k. rewrite Hin, JsSet_add_in. split.
    + intros [[->|H]|H]; auto.
    + intros [H|[<-|H]]; auto.
Qed.

Lemma String_split_nonempty sep s : String_split sep s <> [].
Proof.
  destruct s as [|c rest]; simpl; [discriminate|].
  destruct (Ascii.eqb c sep); [discriminate|].
  destruct (String_split sep rest); discriminate.
Qed.

Lemma String_split_no_sep sep s : has_char sep s = false -> String_split sep s = [s].
Proof.
  induction s as [|c rest IH]; simpl; [reflexivity|].
  intros H. apply orb_false_iff in H. destruct H as [Hc Hrest].
  rewrite Hc, (IH Hrest). reflexivity.
Qed.

Lemma String_split_app sep a b :
  has_char sep a = false ->
  String_split sep (a ++ String sep b) = a :: String_split sep b.
Proof.
  induction a as [|c rest IH]; simpl.
  - intros _. now rewrite Ascii.eqb_refl.
  - intros H. apply orb_false_iff in H. destruct H as [Hc Hrest].
    rewrite Hc, (IH Hrest). reflexivity.
Qed.

Lemma unsubscribe_messages_key token :
  has_char "|" (TokenData.pairAddress token) = false ->
  has_char "|" (TokenData.tokenAddress token) = false ->
  unsubscribe_messages (subscriptionKey token)
  = [ OutUnsubscribePair (Some (TokenData.pairAddress token))
        (Some (TokenData.tokenAddress token))
        (Some (chain_string (TokenData.chain token)));
      OutUnsubscribePairStats (Some (TokenData.pairAddress token))
        (Some (TokenData.tokenAddress token))
        (Some (chain_string (TokenData.chain token))) ].
Proof.
  intros Hp Ht. unfold unsubscribe_messages, subscriptionKey.
  change ("|" ++ ?x)%string with (String "|" x).
  rewrite (String_split_app "|" _ _ Hp).
  change ("|" ++ ?x)%string with (String "|" x).
  rewrite (String_split_app "|" _ _ Ht).
  rewrite String_split_no_sep by (destruct (TokenData.chain token); reflexivity).
  reflexivity.
Qed.

(** C9, as the code has it. When the effect on a non-empty list runs with
    the socket open, it sends the two unsubscriptions of every stored key,
    then the two subscriptions of every listed token (also of those that
    were subscribed before), then one scanner-filter subscription with the
    current parameters for page 1; afterwards the stored keys are exactly
    the keys of the listed tokens, each once. A key made from addresses
    without a bar splits back into its pair, token and chain. *)
Theorem tokensEffect_resubscribes_all :
  forall (p : Props) (st : HookState),
    tokens st <> [] ->
    snd (tokensEffect p true st)
    = flat_map unsubscribe_messages (subscriptionsRef st)
      ++ flat_map subscribe_messages (tokens st)
      ++ [OutScannerFilter (buildApiParams p 1%float)]
    /\ (forall k, In k (subscriptionsRef (fst (tokensEffect p true st)))
                  <-> In k (map subscriptionKey (tokens st)))
    /\ NoDup (subscriptionsRef (fst (tokensEffect p true st)))
    /\ (forall token,
           has_char "|" (TokenData.pairAddress token) = false ->
           has_char "|" (TokenData.tokenAddress token) = false ->
           unsubscribe_messages (subscriptionKey token)
           = [ OutUnsubscribePair (Some (TokenData.pairAddress token))
                 (Some (TokenData.tokenAddress token))
                 (Some (chain_string (TokenData.chain token)));
               OutUnsubscribePairStats (Some (TokenData.pairAddress token))
                 (Some (TokenData.tokenAddress token))
                 (Some (chain_string (TokenData.chain token))) ]).
Proof.
  intros p st Hne. unfold tokensEffect.
  destruct (tokens st) as [|t0 rest] eqn:Et; [congruence|].
  unfold subscribeToTokens. cbv zeta. simpl negb. cbv iota. simpl fst. simpl snd.
  destruct (fold_add_keys (t0 :: rest) [] (NoDup_nil _)) as [Hnd Hin].
  split; [reflexivity|]. split; [|split].
  - intros k. simpl subscriptionsRef. rewrite Hin. simpl. tauto.
  - exact Hnd.
  - apply unsubscribe_messages_key.
Qed.

Lemma tokensEffect_resubscribes_all_witness :
  tokens Scenario.merged <> []
  /\ snd (tokensEffect Fixture.defaultProps true Scenario.merged)
     = flat_map unsubscribe_messages (subscriptionsRef Scenario.merged)
       ++ flat_map subscribe_messages (tokens Scenario.merged)
       ++ [OutScannerFilter (buildApiParams Fixture.defaultProps 1%float)]
  /\ NoDup (subscriptionsRef (fst (tokensEffect Fixture.defaultProps true Scenario.merged))).
Proof.
  assert (Hne : tokens Scenario.merged <> []) by (vm_compute; discriminate).
  destruct (tokensEffect_resubscribes_all Fixture.defaultProps Scenario.merged Hne)
    as (Hmsgs & _ & Hnd & _).
  split; [exact Hne|]. split; [exact Hmsgs|exact Hnd].
Defined.

(** C9 as stated fails when a third token joins two subscribed ones: the
    symmetric difference holds the newcomer alone, yet the two tokens that
    stay are unsubscribed and subscribed again. *)
Lemma tokens_that_stay_are_resubscribed :
  let w := Fixture.world_loaded in
  let w' := step RefParse.parseFloat Fixture.Date_parse w
              (EvMessage (ScannerPairs Scenario.batch) 2000%float) in
  subscriptionsRef (hook w) = ["0xpair1|0xtoken1|ETH"; "0xpair2|0xtoken2|BSC"]
  /\ map subscriptionKey (tokens (hook w'))
     = ["0xpair1|0xtoken1|ETH"; "0xpair2|0xtoken2|BSC"; "0xpair3|0xtoken3|ETH"]
  /\ skipn (List.length (sent w)) (sent w')
     = [ OutUnsubscribePair (Some "0xpair1") (Some "0xtoken1") (Some "ETH");
         OutUnsubscribePairStats (Some "0xpair1") (Some "0xtoken1") (Some "ETH");
         OutUnsubscribePair (Some "0xpair2") (Some "0xtoken2") (Some "BSC");
         OutUnsubscribePairStats (Some "0xpair2") (Some "0xtoken2") (Some "BSC");
         OutSubscribePair "0xpair1" "0xtoken1" ETH;
         OutSubscribePairStats "0xpair1" "0xtoken1" ETH;
         OutSubscribePair "0xpair2" "0xtoken2" BSC;
         OutSubscribePairStats "0xpair2" "0xtoken2" BSC;
         OutSubscribePair "0xpair3" "0xtoken3" ETH;
         OutSubscribePairStats "0xpair3" "0xtoken3" ETH;
         OutScannerFilter (buildApiParams Fixture.defaultProps 1%float) ].
Proof. vm_compute. repeat split; reflexivity. Qed.

(** ** Pagination guard and request ordering *)

(** C5, as the code has it. [loadMore] does nothing (no fetch, no request
    added, state untouched) when the loading flag is set or [hasMore] is
    false; otherwise it issues one fetch, for the page after the current
    one. *)
Theorem loadMore_guard :
  forall (w : World),
    (loading (hook w) = true \/ hasMore (hook w) = false -> loadMore w = w)
    /\ (loading (hook w) = false -> hasMore (hook w) = true ->
        fetched (loadMore w)
        = fetched w ++ [buildApiParams (props w) (currentPage (hook w) + 1)%float]
        /\ List.length (inflight (loadMore w)) = S (List.length (inflight w))).
Proof.
  intros w. unfold loadMore. split.
  - intros [H|H]; rewrite H; [reflexivity|]. now rewrite andb_false_r.
  - intros Hl Hm. rewrite Hl, Hm. simpl. rewrite length_app. simpl.
    split; [reflexivity|lia].
Qed.

Lemma loadMore_guard_witness :
  loadMore (mount Fixture.defaultProps) = mount Fixture.defaultProps
  /\ loadMore Fixture.world_loaded = Fixture.world_loaded
  /\ List.length (inflight (loadMore Paging.first_page))
     = S (List.length (inflight Paging.first_page)).
Proof.
  split; [|split].
  - apply (proj1 (loadMore_guard (mount Fixture.defaultProps))). left. reflexivity.
  - apply (proj1 (loadMore_guard Fixture.world_loaded)). right. vm_compute. reflexivity.
  - apply (proj2 (loadMore_guard Paging.first_page)); vm_compute; reflexivity.
Defined.

(** C5 as stated fails while a load-more request is in flight: the
    loading flag is not set, a second [loadMore] issues a second fetch for
    the same page, and two requests are outstanding. *)
Lemma second_loadMore_fetches_again :
  List.length (inflight Paging.one_more) = 1
  /\ loading (hook Paging.one_more) = false
  /\ List.length (inflight Paging.two_more) = 2
  /\ List.length (fetched Paging.two_more) = S (List.length (fetched Paging.one_more))
  /\ map rq_page (inflight Paging.two_more) = [2%float; 2%float].
Proof. vm_compute. repeat split; reflexivity. Qed.

(** The effect on [tokens] touches the stored keys and the socket only. *)
Lemma tokensEffect_frame p isConnected st :
  tokens (fst (tokensEffect p isConnected st)) = tokens st
  /\ tokensMapRef (fst (tokensEffect p isConnected st)) = tokensMapRef st
  /\ loading (fst (tokensEffect p isConnected st)) = loading st
  /\ hasMore (fst (tokensEffect p isConnected st)) = hasMore st.
Proof.
  unfold tokensEffect. destruct (tokens st) eqn:E; [simpl; now rewrite E|].
  destruct (subscribeToTokens p isConnected (t :: l) (subscriptionsRef st)).
  simpl. now rewrite E.
Qed.

Lemma run_tokensEffect_frame w :
  tokens (hook (run_tokensEffect w)) = tokens (hook w)
  /\ tokensMapRef (hook (run_tokensEffect w)) = tokensMapRef (hook w)
  /\ inflight (run_tokensEffect w) = inflight w
  /\ fetched (run_tokensEffect w) = fetched w
  /\ props (run_tokensEffect w) = props w.
Proof.
  unfold run_tokensEffect.
  pose proof (tokensEffect_frame (props w) (wsOpen w) (hook w)) as (Ht & Hm & _).
  destruct (tokensEffect (props w) (wsOpen w) (hook w)) as [h out]. simpl in *.
  repeat split; assumption.
Qed.

(** C6, as the code has it. No request generation is kept: when the
    response of any suspended [loadData] call arrives, whatever was started
    since, it is merged. A non-append response replaces list and map by its
    tokens; an append response is set into the map, and the list becomes
    the map's values. *)
Theorem every_response_is_merged :
  forall parseFloat Date_parse (w : World) (i : nat) (rq : Request)
         (response : ScannerApiResponse) (now : Date),
    nth_error (inflight w) i = Some rq ->
    let w' := step parseFloat Date_parse w (EvFetchResolved i response now) in
    let newTokens := response_tokens parseFloat Date_parse now rq response in
    inflight w' = remove_nth i (inflight w)
    /\ (rq_append rq = false ->
        tokens (hook w') = newTokens
        /\ tokensMapRef (hook w') = JsMap.set_all newTokens JsMap.empty)
    /\ (rq_append rq = true ->
        tokensMapRef (hook w') = JsMap.set_all newTokens (tokensMapRef (hook w))
        /\ tokens (hook w') = JsMap.values (tokensMapRef (hook w'))).
Proof.
  intros parseFloat Date_parse w i rq response now Hnth w' newTokens.
  subst w'. unfold step. rewrite Hnth.
  match goal with
  | |- context [run_tokensEffect ?x] =>
      pose proof (run_tokensEffect_frame x) as (Ht & Hm & Hi & _)
  end.
  rewrite Ht, Hm, Hi. simpl. unfold loadData_resolved. fold newTokens.
  split; [reflexivity|].
  split; intros Ha; rewrite Ha; simpl; split; reflexivity.
Qed.

Lemma every_response_is_merged_witness :
  nth_error (inflight Overtaking.newer_arrived) 0 = Some Overtaking.earlier_request
  /\ tokens (hook Overtaking.earlier_arrived)
     = response_tokens RefParse.parseFloat Fixture.Date_parse 2000%float
         Overtaking.earlier_request Fixture.response12.
Proof.
  assert (H : nth_error (inflight Overtaking.newer_arrived) 0
              = Some Overtaking.earlier_request) by (vm_compute; reflexivity).
  split; [exact H|].
  destruct (every_response_is_merged RefParse.parseFloat Fixture.Date_parse
              Overtaking.newer_arrived 0 Overtaking.earlier_request
              Fixture.response12 2000%float H) as (_ & Hreplace & _).
  exact (proj1 (Hreplace eq_refl)).
Defined.

(** C6 as stated fails: the filters change while the first request is in
    flight, the newer request's response (one token) arrives first, and the
    earlier request's response, arriving after it, replaces that token by
    its own two. *)
Lemma stale_response_replaces_newer :
  List.length (inflight Overtaking.both_in_flight) = 2
  /\ map rq_params (inflight Overtaking.both_in_flight)
     = [ buildApiParams Fixture.defaultProps 1%float;
         buildApiParams Overtaking.solana 1%float ]
  /\ ids (tokens (hook Overtaking.newer_arrived)) = ["0xpair3"]
  /\ map rq_params (inflight Overtaking.newer_arrived)
     = [buildApiParams Fixture.defaultProps 1%float]
  /\ props Overtaking.newer_arrived = Overtaking.solana
  /\ ids (tokens (hook Overtaking.earlier_arrived)) = ["0xpair1"; "0xpair2"]
  /\ JsMap.keys (tokensMapRef (hook Overtaking.earlier_arrived))
     = ["0xpair1"; "0xpair2"].
Proof. vm_compute. repeat split; reflexivity. Qed.

(** ** The list and the map stay in step

    Every cell of the map is filed under the id of its token, and the map
    holds no id that the list lacks, in every state the hook can reach. *)

Lemma JsMap_set_in k v m k' v' :
  In (k', v') (JsMap.set k v m) -> (k' = k /\ v' = v) \/ In (k', v') m.
Proof.
  induction m as [|[k0 v0] rest IH]; simpl.
  - intros [[= <- <-]|[]]. auto.
  - destruct (String.eqb k0 k); simpl.
    + intros [[= <- <-]|H]; auto.
    + intros [H|H]; [auto|]. destruct (IH H); auto.
Qed.

Lemma keyed_set k v m : TokenData.id v = k -> keyed m -> keyed (JsMap.set k v m).
Proof.
  intros Hv Hm k' v' Hin. destruct (JsMap_set_in _ _ _ _ _ Hin) as [[-> ->]|H];
    [exact Hv|now apply Hm].
Qed.

Lemma keyed_set_all l : forall m, keyed m -> keyed (JsMap.set_all l m).
Proof.
  unfold JsMap.set_all. induction l as [|a rest IH]; intros m Hm; simpl; [exact Hm|].
  apply IH. now apply keyed_set.
Qed.

Lemma has_set_all l : forall m k,
  JsMap.has k (JsMap.set_all l m) = true -> JsMap.has k m = true \/ In k (ids l).
Proof.
  unfold JsMap.set_all. induction l as [|a rest IH]; intros m k; simpl; [auto|].
  intros H. destruct (IH _ _ H) as [H1|H1]; [|auto].
  rewrite JsMap_has_set in H1. apply orb_true_iff in H1.
  destruct H1 as [H1|H1]; [|auto]. apply String.eqb_eq in H1. auto.
Qed.

Lemma has_values m k : keyed m -> JsMap.has k m = true -> In k (ids (JsMap.values m)).
Proof.
  intros Hm Hk. apply JsMap_has_keys in Hk. unfold JsMap.keys in Hk.
  apply in_map_iff in Hk. destruct Hk as ([k0 v] & <- & Hin).
  unfold ids, JsMap.values. rewrite map_map. apply in_map_iff.
  exists (k0, v). split; [|exact Hin]. simpl. now apply Hm.
Qed.

Lemma patch_each_keyed patch prev : forall m,
  (forall t u, patch t = Some u -> TokenData.id u = TokenData.id t) ->
  keyed m -> keyed (snd (fst (patch_each patch prev m))).
Proof.
  induction prev as [|token rest IH]; intros m Hp Hm; simpl; [exact Hm|].
  destruct (patch token) as [u|] eqn:E.
  - specialize (IH (JsMap.set (TokenData.id token) u m) Hp
                  (keyed_set _ _ _ (Hp _ _ E) Hm)).
    destruct (patch_each patch rest _) as [[r m'] f]. exact IH.
  - specialize (IH m Hp Hm). destruct (patch_each patch rest m) as [[r m'] f]. exact IH.
Qed.

Lemma add_new_keyed incoming : forall r m h,
  keyed m -> keyed (snd (fst (add_new incoming (r, m, h)))).
Proof.
  unfold add_new. induction incoming as [|a rest IH]; intros r m h Hm; simpl;
    [exact Hm|].
  destruct (JsMap.has (TokenData.id a) m); simpl; apply IH.
  - exact Hm.
  - now apply keyed_set.
Qed.

(** A walk whose patch keeps ids keeps the two in step. *)
Lemma walk_in_step patch st :
  (forall t u, patch t = Some u -> TokenData.id u = TokenData.id t) ->
  in_step st ->
  in_step
    (let '(updatedTokens, m, foundToken) :=
       patch_each patch (tokens st) (tokensMapRef st) in
     setTokens (if foundToken then NewArray updatedTokens else SamePrev)
       (set_tokensMapRef m st)).
Proof.
  intros Hp [Hk Hc].
  pose proof (tokens_after_walk patch st) as Ht.
  pose proof (patch_each_keyed patch (tokens st) (tokensMapRef st) Hp Hk) as Hk'.
  pose proof (patch_each_map_has patch (tokens st) (tokensMapRef st)) as Hh.
  destruct (patch_each patch (tokens st) (tokensMapRef st)) as [[r m] f].
  simpl in Hk', Hh.
  assert (Hm : tokensMapRef (setTokens (if f then NewArray r else SamePrev)
                               (set_tokensMapRef m st)) = m)
    by (destruct f; reflexivity).
  split; [now rewrite Hm|].
  intros k. rewrite Hm, Ht. intros H.
  assert (Hids : ids (map (patched patch) (tokens st)) = ids (tokens st)).
  { unfold ids. rewrite map_map. apply map_ext. intros t. unfold patched.
    destruct (patch t) eqn:E; [now apply Hp|reflexivity]. }
  rewrite Hids. destruct (Hh k H) as [H1|H1]; [now apply Hc|exact H1].
Qed.

Lemma handleWebSocketMessage_in_step parseFloat Date_parse now message st :
  in_step st -> in_step (after_message parseFloat Date_parse now message st).
Proof.
  intros Hst. unfold after_message. destruct message as [data|data|results_pairs].
  - simpl. destruct (latestSwap (swaps data)) as [latest|]; [|exact Hst].
    pose proof (walk_in_step
                  (tick_patch (tick_pair data) (parseFloat (priceToken1Usd latest)) now)
                  st) as Hw.
    destruct (patch_each _ (tokens st) (tokensMapRef st)) as [[r m] f].
    apply Hw; [|exact Hst]. intros t u. unfold tick_patch.
    destruct (String.eqb _ _); [|discriminate]. now intros [= <-].
  - simpl.
    pose proof (walk_in_step
                  (stats_patch (stats_pair data)
                     (parseFloat (stats_migrationProgress data)) now) st) as Hw.
    destruct (patch_each _ (tokens st) (tokensMapRef st)) as [[r m] f].
    apply Hw; [|exact Hst]. intros t u. unfold stats_patch.
    destruct (String.eqb _ _); [|discriminate]. now intros [= <-].
  - destruct Hst as [Hk Hc].
    destruct (after_scanner parseFloat Date_parse now results_pairs st) as [Ht Hm].
    unfold after_message in Ht, Hm. split.
    + rewrite Hm. unfold scanner_merge.
      pose proof (patch_each_keyed
                    (scanner_patch
                       (map (scannerResultToToken parseFloat Date_parse now)
                          results_pairs))
                    (tokens st) (tokensMapRef st)
                    (scanner_patch_id _) Hk) as Hk1.
      destruct (patch_each _ (tokens st) (tokensMapRef st)) as [[r1 m1] h1].
      now apply add_new_keyed.
    + unfold coherent. rewrite Ht, Hm.
      apply (scanner_merge_facts _ (tokens st) (tokensMapRef st) Hc).
Qed.

Lemma loadData_resolved_in_step parseFloat Date_parse now rq response st :
  in_step st -> in_step (loadData_resolved parseFloat Date_parse now rq response st).
Proof.
  intros [Hk Hc]. unfold loadData_resolved, in_step, coherent.
  destruct (rq_append rq); simpl.
  - split; [now apply keyed_set_all|].
    intros k H. apply has_values; [now apply keyed_set_all|exact H].
  - split; [apply keyed_set_all; intros k v []|].
    intros k H. destruct (has_set_all _ _ _ H) as [H1|H1]; [discriminate|exact H1].
Qed.

Lemma loadData_call_in_step page append w :
  in_step (hook w) -> in_step (hook (loadData_call page append w)).
Proof. unfold loadData_call. destruct append; simpl; intros H; exact H. Qed.

Lemma run_tokensEffect_in_step w :
  in_step (hook w) -> in_step (hook (run_tokensEffect w)).
Proof.
  destruct (run_tokensEffect_frame w) as (Ht & Hm & _).
  unfold in_step, coherent. now rewrite Ht, Hm.
Qed.

Lemma step_in_step parseFloat Date_parse w ev :
  in_step (hook w) -> in_step (hook (step parseFloat Date_parse w ev)).
Proof.
  intros H. destruct ev; unfold step.
  - unfold loadMore. destruct (negb _ && _); [|exact H].
    now apply loadData_call_in_step.
  - unfold refreshData. apply loadData_call_in_step. exact H.
  - unfold refreshData. apply loadData_call_in_step.
    change (in_step (hook (run_tokensEffect
                             {| hook := hook w; props := p; inflight := inflight w;
                                fetched := fetched w; wsOpen := wsOpen w;
                                sent := sent w |}))).
    apply run_tokensEffect_in_step. exact H.
  - destruct (nth_error (inflight w) i) as [rq|]; [|exact H].
    apply run_tokensEffect_in_step. now apply loadData_resolved_in_step.
  - destruct (nth_error (inflight w) i) as [rq|]; exact H.
  - exact H.
  - exact H.
  - destruct (connected (hook w)); [|exact H].
    pose proof (handleWebSocketMessage_in_step parseFloat Date_parse now message
                  (hook w) H) as Hs.
    unfold after_message in Hs.
    destruct (handleWebSocketMessage parseFloat Date_parse now message (hook w))
      as [h u].
    simpl in Hs. destruct u; [exact Hs|].
    now apply (run_tokensEffect_in_step (with_hook h w)).
Qed.

(** The hypothesis of the full-dataset theorem holds in every reachable
    state. *)
Lemma reachable_in_step parseFloat Date_parse p w :
  reachable parseFloat Date_parse p w -> in_step (hook w).
Proof.
  induction 1 as [|w ev Hr IH].
  - split; [intros k v []|intros k Hk; discriminate Hk].
  - now apply step_in_step.
Qed.

Lemma tokensEffect_idle p isConnected st :
  tokens st = [] \/ isConnected = false -> tokensEffect p isConnected st = (st, []).
Proof.
  unfold tokensEffect. intros [H| ->]; [now rewrite H|].
  destruct (tokens st); [reflexivity|]. simpl. now destruct st.
Qed.

(** At the level of the mounted hook: an event for an unknown pair changes
    nothing at all, and no effect runs (nothing is sent). *)
Lemma step_unknown_pair_noop parseFloat Date_parse w data now :
  (forall token, In token (tokens (hook w)) ->
                 TokenData.pairAddress token <> tick_pair data) ->
  step parseFloat Date_parse w (EvMessage (Tick data) now) = w.
Proof.
  intros Hno. unfold step. destruct (connected (hook w)); [|reflexivity].
  assert (E : handleWebSocketMessage parseFloat Date_parse now (Tick data) (hook w)
              = (hook w, SamePrev)).
  { simpl. destruct (latestSwap (swaps data)) as [latest|]; [|reflexivity].
    rewrite patch_each_no_match.
    - simpl. now rewrite set_tokensMapRef_same.
    - intros token Hin. unfold tick_patch.
      destruct (String.eqb_spec (TokenData.pairAddress token) (tick_pair data)) as [E|E];
        [|reflexivity].
      exfalso. exact (Hno token Hin E). }
  rewrite E. now destruct w.
Qed.

(** * Further properties *)

(** ** More on the map *)

Lemma JsMap_get_set_same k v m : JsMap.get k (JsMap.set k v m) = Some v.
Proof.
  induction m as [|[k0 v0] rest IH]; simpl.
  - now rewrite String.eqb_refl.
  - destruct (String.eqb k0 k) eqn:E; simpl; [now rewrite String.eqb_refl|].
    now rewrite E.
Qed.

Lemma JsMap_get_set_other k k' v m :
  k' <> k -> JsMap.get k (JsMap.set k' v m) = JsMap.get k m.
Proof.
  intros Hne. induction m as [|[k0 v0] rest IH]; simpl.
  - apply String.eqb_neq in Hne. now rewrite Hne.
  - destruct (String.eqb k0 k') eqn:E; simpl.
    + apply String.eqb_eq in E. subst k0. apply String.eqb_neq in Hne. now rewrite Hne.
    + destruct (String.eqb k0 k); [reflexivity|exact IH].
Qed.

Lemma JsMap_keys_set k v m :
  JsMap.keys (JsMap.set k v m)
  = if JsMap.has k m then JsMap.keys m else JsMap.keys m ++ [k].
Proof.
  unfold JsMap.has, JsMap.keys. induction m as [|[k0 v0] rest IH]; simpl; [reflexivity|].
  destruct (String.eqb k0 k) eqn:E; simpl.
  - apply String.eqb_eq in E. now subst k0.
  - rewrite IH. now destruct (JsMap.get k rest).
Qed.

Lemma JsMap_values_in v m :
  In v (JsMap.values m) <-> exists k, In (k, v) m.
Proof.
  unfold JsMap.values. rewrite in_map_iff. split.
  - intros ([k v'] & <- & H). now exists k.
  - intros (k & H). now exists (k, v).
Qed.

Lemma has_set_all_keeps l : forall m k,
  JsMap.has k m = true -> JsMap.has k (JsMap.set_all l m) = true.
Proof.
  unfold JsMap.set_all. induction l as [|a rest IH]; intros m k H; simpl; [exact H|].
  apply IH. rewrite JsMap_has_set, H. apply orb_true_r.
Qed.

Lemma has_set_all_in l : forall m k,
  In k (ids l) -> JsMap.has k (JsMap.set_all l m) = true.
Proof.
  unfold JsMap.set_all. induction l as [|a rest IH]; intros m k; simpl; [intros []|].
  intros [<-|H]; [|now apply IH].
  apply (has_set_all_keeps rest). rewrite JsMap_has_set, String.eqb_refl. reflexivity.
Qed.

Lemma set_all_in l : forall m k v,
  In (k, v) (JsMap.set_all l m) -> In (k, v) m \/ In v l.
Proof.
  unfold JsMap.set_all. induction l as [|a rest IH]; intros m k v; simpl; [auto|].
  intros H. destruct (IH _ _ _ H) as [H1|H1]; [|auto].
  destruct (JsMap_set_in _ _ _ _ _ H1) as [[_ ->]|H2]; auto.
Qed.

Lemma has_of_values m k :
  keyed m -> In k (ids (JsMap.values m)) -> JsMap.has k m = true.
Proof.
  intros Hm Hk. unfold ids in Hk. apply in_map_iff in Hk.
  destruct Hk as (v & <- & Hv). apply JsMap_values_in in Hv. destruct Hv as (k & Hin).
  rewrite (Hm _ _ Hin). apply JsMap_has_keys. unfold JsMap.keys.
  apply in_map_iff. now exists (k, v).
Qed.

Lemma patch_each_map_in patch prev : forall m k v,
  In (k, v) (snd (fst (patch_each patch prev m))) ->
  In (k, v) m \/ exists t, In t prev /\ patch t = Some v.
Proof.
  induction prev as [|token rest IH]; intros m k v; simpl; [auto|].
  destruct (patch token) as [u|] eqn:E.
  - specialize (IH (JsMap.set (TokenData.id token) u m) k v).
    destruct (patch_each patch rest _) as [[r m'] f]. simpl in *.
    intros H. destruct (IH H) as [H1|(t & Ht & Hp)].
    + destruct (JsMap_set_in _ _ _ _ _ H1) as [[_ ->]|H2]; [|auto].
      right. exists token. auto.
    + right. exists t. auto.
  - specialize (IH m k v). destruct (patch_each patch rest m) as [[r m'] f]. simpl in *.
    intros H. destruct (IH H) as [H1|(t & Ht & Hp)]; [auto|]. right. exists t. auto.
Qed.

Lemma add_new_keeps incoming : forall r m h k,
  JsMap.has k m = true ->
  JsMap.has k (snd (fst (add_new incoming (r, m, h)))) = true.
Proof.
  unfold add_new. induction incoming as [|a rest IH]; intros r m h k H; simpl;
    [exact H|].
  destruct (JsMap.has (TokenData.id a) m); simpl; apply IH; [exact H|].
  rewrite JsMap_has_set, H. apply orb_true_r.
Qed.

Lemma add_new_has_incoming incoming : forall r m h n,
  In n incoming ->
  JsMap.has (TokenData.id n) (snd (fst (add_new incoming (r, m, h)))) = true.
Proof.
  induction incoming as [|a rest IH]; intros r m h n; [intros []|].
  intros [<-|Hn]; [|unfold add_new in *; simpl;
                    destruct (JsMap.has (TokenData.id a) m); simpl; now apply IH].
  unfold add_new. simpl. destruct (JsMap.has (TokenData.id a) m) eqn:E; simpl.
  - now apply (add_new_keeps rest).
  - apply (add_new_keeps rest). rewrite JsMap_has_set, String.eqb_refl. reflexivity.
Qed.

Lemma add_new_map_in incoming : forall r m h k v,
  In (k, v) (snd (fst (add_new incoming (r, m, h)))) -> In (k, v) m \/ In v incoming.
Proof.
  unfold add_new. induction incoming as [|a rest IH]; intros r m h k v; simpl; [auto|].
  destruct (JsMap.has (TokenData.id a) m); simpl; intros H;
    destruct (IH _ _ _ _ _ H) as [H1|H1]; auto.
  destruct (JsMap_set_in _ _ _ _ _ H1) as [[_ ->]|H2]; auto.
Qed.

(** ** What every reachable state satisfies *)

Lemma scanner_patch_from updatedTokens token newTokenData :
  scanner_patch updatedTokens token = Some newTokenData -> In newTokenData updatedTokens.
Proof.
  unfold scanner_patch.
  destruct (find _ updatedTokens) as [n|] eqn:F; [|discriminate].
  apply find_some in F. destruct F as [Hin _].
  simpl. destruct (gt _ _); [|discriminate]. now intros [= <-].
Qed.

Lemma tick_patch_keeps pairAddress newPrice now t u :
  tick_patch pairAddress newPrice now t = Some u ->
  TokenData.id u = TokenData.id t /\ TokenData.pairAddress u = TokenData.pairAddress t.
Proof.
  unfold tick_patch. destruct (String.eqb _ _); [|discriminate].
  intros [= <-]. split; reflexivity.
Qed.

Lemma stats_patch_keeps pairData migrationPc now t u :
  stats_patch pairData migrationPc now t = Some u ->
  TokenData.id u = TokenData.id t /\ TokenData.pairAddress u = TokenData.pairAddress t.
Proof.
  unfold stats_patch. destruct (String.eqb _ _); [|discriminate].
  intros [= <-]. split; reflexivity.
Qed.

Lemma walk_well_kept patch st :
  (forall t u, patch t = Some u ->
               TokenData.id u = TokenData.id t
               /\ TokenData.pairAddress u = TokenData.pairAddress t) ->
  well_kept st ->
  well_kept
    (let '(updatedTokens, m, foundToken) :=
       patch_each patch (tokens st) (tokensMapRef st) in
     setTokens (if foundToken then NewArray updatedTokens else SamePrev)
       (set_tokensMapRef m st)).
Proof.
  intros Hp (Hin & Hl & Ht & Hv).
  assert (Hp1 : forall t u, patch t = Some u -> TokenData.id u = TokenData.id t)
    by (intros t u E; exact (proj1 (Hp t u E))).
  pose proof (walk_in_step patch st Hp1 Hin) as Hin'.
  pose proof (tokens_after_walk patch st) as Htok.
  pose proof (patch_each_map_keeps patch (tokens st) (tokensMapRef st)) as Hk.
  pose proof (patch_each_map_in patch (tokens st) (tokensMapRef st)) as Hmi.
  destruct (patch_each patch (tokens st) (tokensMapRef st)) as [[r m] f].
  simpl in Hk, Hmi.
  assert (Hm : tokensMapRef (setTokens (if f then NewArray r else SamePrev)
                               (set_tokensMapRef m st)) = m)
    by (destruct f; reflexivity).
  assert (Hids : ids (map (patched patch) (tokens st)) = ids (tokens st)).
  { unfold ids. rewrite map_map. apply map_ext. intros t. unfold patched.
    destruct (patch t) eqn:E; [now apply Hp1|reflexivity]. }
  split; [exact Hin'|]. unfold listed. rewrite Hm, Htok. split; [|split].
  - intros k. rewrite Hids. intros H. apply Hk. now apply Hl.
  - intros token Hin0. apply in_map_iff in Hin0. destruct Hin0 as (t & <- & Hin0).
    unfold patched, id_is_pair. destruct (patch t) as [u|] eqn:E; [|now apply Ht].
    destruct (Hp t u E) as [-> ->]. now apply Ht.
  - intros k v H. destruct (Hmi k v H) as [H1|(t & Hin0 & E)]; [now apply (Hv k)|].
    unfold id_is_pair. destruct (Hp t v E) as [-> ->]. now apply Ht.
Qed.

Lemma normalised_id_is_pair parseFloat Date_parse now result :
  id_is_pair (scannerResultToToken parseFloat Date_parse now result).
Proof. reflexivity. Qed.

Lemma response_tokens_id_is_pair parseFloat Date_parse now rq response token :
  In token (response_tokens parseFloat Date_parse now rq response) -> id_is_pair token.
Proof.
  unfold response_tokens. intros H.
  assert (Hn : In token (map (scannerResultToToken parseFloat Date_parse now)
                           (pairs response))).
  { destruct (rq_filters rq) as [f|]; [|exact H].
    destruct (combinedFilter f) as [name|]; [|exact H].
    unfold filterTokensByCombinedFilter in H. apply filter_In in H. tauto. }
  apply in_map_iff in Hn. destruct Hn as (r & <- & _). apply normalised_id_is_pair.
Qed.

Lemma handleWebSocketMessage_well_kept parseFloat Date_parse now message st :
  well_kept st -> well_kept (after_message parseFloat Date_parse now message st).
Proof.
  intros Hst. unfold after_message. destruct message as [data|data|results_pairs].
  - simpl. destruct (latestSwap (swaps data)) as [latest|]; [|exact Hst].
    pose proof (walk_well_kept
                  (tick_patch (tick_pair data) (parseFloat (priceToken1Usd latest)) now)
                  st) as Hw.
    destruct (patch_each _ (tokens st) (tokensMapRef st)) as [[r m] f].
    apply Hw; [|exact Hst]. intros t u. apply tick_patch_keeps.
  - simpl.
    pose proof (walk_well_kept
                  (stats_patch (stats_pair data)
                     (parseFloat (stats_migrationProgress data)) now) st) as Hw.
    destruct (patch_each _ (tokens st) (tokensMapRef st)) as [[r m] f].
    apply Hw; [|exact Hst]. intros t u. apply stats_patch_keeps.
  - destruct Hst as (Hin & Hl & Ht & Hv).
    pose proof (handleWebSocketMessage_in_step parseFloat Date_parse now
                  (ScannerPairs results_pairs) st Hin) as Hin'.
    unfold after_message in Hin'.
    destruct (after_scanner parseFloat Date_parse now results_pairs st) as [Htok Hmap].
    unfold after_message in Htok, Hmap.
    set (incoming := map (scannerResultToToken parseFloat Date_parse now) results_pairs)
      in *.
    assert (Hinc : forall n, In n incoming -> id_is_pair n).
    { intros n Hn. apply in_map_iff in Hn. destruct Hn as (r & <- & _).
      apply normalised_id_is_pair. }
    split; [exact Hin'|]. unfold listed. rewrite Htok, Hmap. unfold scanner_merge.
    pose proof (patch_each_tokens (scanner_patch incoming) (tokens st) (tokensMapRef st))
      as Hr1.
    pose proof (patch_each_map_keeps (scanner_patch incoming) (tokens st)
                  (tokensMapRef st)) as Hk1.
    pose proof (patch_each_map_in (scanner_patch incoming) (tokens st) (tokensMapRef st))
      as Hmi1.
    destruct (patch_each (scanner_patch incoming) (tokens st) (tokensMapRef st))
      as [[r1 m1] h1].
    pose proof (add_new_spec incoming r1 m1 h1) as Ha.
    pose proof (add_new_keeps incoming r1 m1 h1) as Hk2.
    pose proof (add_new_has_incoming incoming r1 m1 h1) as Hi2.
    pose proof (add_new_map_in incoming r1 m1 h1) as Hmi2.
    destruct (add_new incoming (r1, m1, h1)) as [[r2 m2] h2].
    destruct Ha as [(added & Hr2 & Hincl) _ _ _ _ _]. simpl in *. subst r1 r2.
    split; [|split].
    + intros k Hk. unfold ids in Hk. rewrite map_app in Hk. apply in_app_or in Hk.
      destruct Hk as [Hk|Hk].
      * apply Hk2, Hk1, Hl. unfold ids.
        rewrite map_map in Hk.
        erewrite map_ext in Hk; [exact Hk|]. intros t. apply patched_scanner_id.
      * apply in_map_iff in Hk. destruct Hk as (a & <- & Ha). apply Hi2. now apply Hincl.
    + intros token Hin0. apply in_app_or in Hin0. destruct Hin0 as [Hin0|Hin0].
      * apply in_map_iff in Hin0. destruct Hin0 as (t & <- & Hin0).
        unfold patched. destruct (scanner_patch incoming t) as [u|] eqn:E;
          [|now apply Ht].
        apply Hinc. now apply scanner_patch_from in E.
      * apply Hinc. now apply Hincl.
    + intros k v H. destruct (Hmi2 k v H) as [H1|H1]; [|now apply Hinc].
      destruct (Hmi1 k v H1) as [H2|(t & _ & E)]; [now apply (Hv k)|].
      apply Hinc. now apply scanner_patch_from in E.
Qed.

Lemma loadData_resolved_well_kept parseFloat Date_parse now rq response st :
  well_kept st -> well_kept (loadData_resolved parseFloat Date_parse now rq response st).
Proof.
  intros (Hin & Hl & Ht & Hv).
  pose proof (loadData_resolved_in_step parseFloat Date_parse now rq response st Hin)
    as Hin'.
  split; [exact Hin'|]. clear Hin'. destruct Hin as [Hk _].
  pose proof (response_tokens_id_is_pair parseFloat Date_parse now rq response) as Hnew.
  unfold loadData_resolved, listed. destruct (rq_append rq); simpl.
  - split; [|split].
    + intros k. apply has_of_values. now apply keyed_set_all.
    + intros token H. apply JsMap_values_in in H. destruct H as (k & H).
      destruct (set_all_in _ _ _ _ H) as [H1|H1]; [now apply (Hv k)|now apply Hnew].
    + intros k v H.
      destruct (set_all_in _ _ _ _ H) as [H1|H1]; [now apply (Hv k)|now apply Hnew].
  - split; [|split].
    + intros k. apply has_set_all_in.
    + exact Hnew.
    + intros k v H. destruct (set_all_in _ _ _ _ H) as [[]|H1]. now apply Hnew.
Qed.

Lemma run_tokensEffect_well_kept w :
  well_kept (hook w) -> well_kept (hook (run_tokensEffect w)).
Proof.
  destruct (run_tokensEffect_frame w) as (Ht & Hm & _).
  unfold well_kept, in_step, coherent, listed. now rewrite Ht, Hm.
Qed.

Lemma loadData_call_well_kept page append w :
  well_kept (hook w) -> well_kept (hook (loadData_call page append w)).
Proof. unfold loadData_call. destruct append; simpl; intros H; exact H. Qed.

Lemma step_well_kept parseFloat Date_parse w ev :
  well_kept (hook w) -> well_kept (hook (step parseFloat Date_parse w ev)).
Proof.
  intros H. destruct ev; unfold step.
  - unfold loadMore. destruct (negb _ && _); [|exact H].
    now apply loadData_call_well_kept.
  - unfold refreshData. apply loadData_call_well_kept. exact H.
  - unfold refreshData. apply loadData_call_well_kept.
    change (well_kept (hook (run_tokensEffect
                               {| hook := hook w; props := p; inflight := inflight w;
                                  fetched := fetched w; wsOpen := wsOpen w;
                                  sent := sent w |}))).
    apply run_tokensEffect_well_kept. exact H.
  - destruct (nth_error (inflight w) i) as [rq|]; [|exact H].
    apply run_tokensEffect_well_kept. now apply loadData_resolved_well_kept.
  - destruct (nth_error (inflight w) i) as [rq|]; exact H.
  - exact H.
  - exact H.
  - destruct (connected (hook w)); [|exact H].
    pose proof (handleWebSocketMessage_well_kept parseFloat Date_parse now message
                  (hook w) H) as Hs.
    unfold after_message in Hs.
    destruct (handleWebSocketMessage parseFloat Date_parse now message (hook w))
      as [h u].
    simpl in Hs. destruct u; [exact Hs|].
    now apply (run_tokensEffect_well_kept (with_hook h w)).
Qed.

Lemma reachable_well_kept parseFloat Date_parse p w :
  reachable parseFloat Date_parse p w -> well_kept (hook w).
Proof.
  induction 1 as [|w ev Hr IH].
  - split; [split; [intros k v []|intros k Hk; discriminate Hk]|].
    split; [intros k []|]. split; [intros t []|intros k v []].
  - now apply step_well_kept.
Qed.

(** X1. In every state the hook can reach, the list and the map hold the
    same ids, and every map cell is filed under the id of the token it
    holds. *)
Theorem reachable_ids_agree :
  forall parseFloat Date_parse (p : Props) (w : World),
    reachable parseFloat Date_parse p w ->
    same_ids (hook w) /\ keyed (tokensMapRef (hook w)).
Proof.
  intros parseFloat Date_parse p w Hr.
  destruct (reachable_well_kept parseFloat Date_parse p w Hr) as ((Hk & Hc) & Hl & _).
  split; [|exact Hk]. intros k. split; [apply Hc|apply Hl].
Qed.

(** X2. In every state the hook can reach, the id of every listed token,
    and of every token held in the map, is its pair address: matching a
    tick by pair address is matching it by id. *)
Theorem reachable_id_is_pairAddress :
  forall parseFloat Date_parse (p : Props) (w : World),
    reachable parseFloat Date_parse p w ->
    (forall token, In token (tokens (hook w)) -> id_is_pair token)
    /\ (forall token, In token (JsMap.values (tokensMapRef (hook w))) ->
                      id_is_pair token).
Proof.
  intros parseFloat Date_parse p w Hr.
  destruct (reachable_well_kept parseFloat Date_parse p w Hr) as (_ & _ & Ht & Hv).
  split; [exact Ht|]. intros token H. apply JsMap_values_in in H.
  destruct H as (k & H). now apply (Hv k).
Qed.

Lemma run_reachable parseFloat Date_parse p evs : forall w,
  reachable parseFloat Date_parse p w ->
  reachable parseFloat Date_parse p (run parseFloat Date_parse w evs).
Proof.
  unfold run. induction evs as [|ev rest IH]; intros w H; simpl; [exact H|].
  apply IH. now apply reach_step.
Qed.

Lemma Journey_reachable :
  reachable RefParse.parseFloat Fixture.Date_parse Fixture.defaultProps Journey.world.
Proof. apply run_reachable. apply reach_mount. Qed.

Lemma reachable_ids_agree_witness :
  same_ids (hook Journey.world) /\ keyed (tokensMapRef (hook Journey.world)).
Proof.
  exact (reachable_ids_agree RefParse.parseFloat Fixture.Date_parse Fixture.defaultProps
           Journey.world Journey_reachable).
Defined.

Lemma reachable_id_is_pairAddress_witness :
  (forall token, In token (tokens (hook Journey.world)) -> id_is_pair token)
  /\ (forall token, In token (JsMap.values (tokensMapRef (hook Journey.world))) ->
                    id_is_pair token).
Proof.
  exact (reachable_id_is_pairAddress RefParse.parseFloat Fixture.Date_parse
           Fixture.defaultProps Journey.world Journey_reachable).
Defined.

Example Journey_values :
  ids (tokens (hook Journey.world)) = ["0xpair1"; "0xpair2"; "0xpair3"]
  /\ JsMap.keys (tokensMapRef (hook Journey.world)) = ["0xpair1"; "0xpair2"; "0xpair3"]
  /\ map TokenData.priceUsd (tokens (hook Journey.world))
     = [1.5%float; 0.001%float; 0.1%float].
Proof. vm_compute. repeat split; reflexivity. Qed.

(** ** Tick and pair-stats events leave the other tokens alone *)

Lemma ids_after_walk patch st :
  (forall t u, patch t = Some u -> TokenData.id u = TokenData.id t) ->
  ids (map (patched patch) (tokens st)) = ids (tokens st).
Proof.
  intros Hp. unfold ids. rewrite map_map. apply map_ext. intros t. unfold patched.
  destruct (patch t) eqn:E; [now apply Hp|reflexivity].
Qed.

Lemma tokens_after_realtime parseFloat Date_parse now message st pair :
  event_pair message = Some pair ->
  exists update : TokenData.t -> TokenData.t,
    (forall t, TokenData.id (update t) = TokenData.id t
               /\ TokenData.pairAddress (update t) = TokenData.pairAddress t)
    /\ tokens (after_message parseFloat Date_parse now message st)
       = map (fun t => if String.eqb (TokenData.pairAddress t) pair then update t else t)
           (tokens st).
Proof.
  destruct message as [data|data|results_pairs]; simpl; [| |discriminate].
  - intros [= <-]. destruct (latestSwap (swaps data)) as [latest|] eqn:El.
    + exists (tick_updatedToken (parseFloat (priceToken1Usd latest)) now).
      split; [intros t; split; reflexivity|].
      rewrite (tokens_after_tick _ _ _ _ _ _ El). apply map_ext. intros t.
      unfold patched, tick_patch. now destruct (String.eqb _ _).
    + exists (fun t => t). split; [intros t; split; reflexivity|].
      unfold after_message. simpl. rewrite El. simpl. rewrite <- (map_id (tokens st)) at 1.
      apply map_ext. intros t. now destruct (String.eqb _ _).
  - intros [= <-].
    exists (stats_updatedToken (stats_pair data)
              (parseFloat (stats_migrationProgress data)) now).
    split; [intros t; split; reflexivity|].
    rewrite tokens_after_stats. apply map_ext. intros t.
    unfold patched, stats_patch. now destruct (String.eqb _ _).
Qed.

(** X3. A tick or pair-stats event never adds, removes or reorders tokens:
    the list keeps its length and its ids in order, every token keeps its
    pair address, and a token with another pair address is left exactly as
    it was. *)
Theorem realtime_event_keeps_the_list :
  forall parseFloat Date_parse (now : Date) (message : IncomingWebSocketMessage)
         (st : HookState) (pair : string),
    event_pair message = Some pair ->
    let st' := after_message parseFloat Date_parse now message st in
    ids (tokens st') = ids (tokens st)
    /\ map TokenData.pairAddress (tokens st') = map TokenData.pairAddress (tokens st)
    /\ List.length (tokens st') = List.length (tokens st)
    /\ (forall i token,
           nth_error (tokens st) i = Some token ->
           TokenData.pairAddress token <> pair ->
           nth_error (tokens st') i = Some token).
Proof.
  intros parseFloat Date_parse now message st pair Hev st'. subst st'.
  destruct (tokens_after_realtime parseFloat Date_parse now message st pair Hev)
    as (update & Hkeep & ->).
  split; [|split; [|split]].
  - unfold ids. rewrite map_map. apply map_ext. intros t.
    destruct (String.eqb _ _); [apply Hkeep|reflexivity].
  - rewrite map_map. apply map_ext. intros t.
    destruct (String.eqb _ _); [apply Hkeep|reflexivity].
  - apply length_map.
  - intros i token Hnth Hne. erewrite map_nth_error by exact Hnth.
    apply String.eqb_neq in Hne. now rewrite Hne.
Qed.

Lemma realtime_event_keeps_the_list_witness :
  ids (tokens (after_message RefParse.parseFloat Fixture.Date_parse 2000%float
                 (Tick (Messages.tick "0xpair1" "2.0" false)) Fixture.loaded))
  = ids (tokens Fixture.loaded)
  /\ nth_error (tokens (after_message RefParse.parseFloat Fixture.Date_parse 2000%float
                          (PairStats (Messages.stats "0xpair1")) Fixture.loaded)) 1
     = Some (Fixture.normalize 1000%float Fixture.pair2).
Proof.
  split.
  - exact (proj1 (realtime_event_keeps_the_list RefParse.parseFloat Fixture.Date_parse
                    2000%float (Tick (Messages.tick "0xpair1" "2.0" false))
                    Fixture.loaded "0xpair1" eq_refl)).
  - apply (proj2 (proj2 (proj2
             (realtime_event_keeps_the_list RefParse.parseFloat Fixture.Date_parse
                2000%float (PairStats (Messages.stats "0xpair1"))
                Fixture.loaded "0xpair1" eq_refl)))).
    + vm_compute. reflexivity.
    + vm_compute. discriminate.
Defined.

(** ** A later event absorbs an earlier one *)

Lemma find_last_cons {A} (f : A -> bool) a l :
  find_last f (a :: l)
  = match find_last f l with
    | Some x => Some x
    | None => if f a then Some a else None
    end.
Proof.
  unfold find_last. simpl. induction (rev l) as [|b rest IH]; simpl; [reflexivity|].
  destruct (f b); [reflexivity|exact IH].
Qed.

Lemma find_last_map {A B} (f : B -> bool) (g : A -> B) l :
  find_last f (map g l) = option_map g (find_last (fun a => f (g a)) l).
Proof.
  induction l as [|a rest IH]; [reflexivity|].
  simpl map. rewrite !find_last_cons, IH.
  destruct (find_last (fun a0 => f (g a0)) rest); simpl; [reflexivity|].
  now destruct (f (g a)).
Qed.

Lemma find_last_ext {A} (f g : A -> bool) l :
  (forall a, f a = g a) -> find_last f l = find_last g l.
Proof.
  intros H. induction l as [|a rest IH]; [reflexivity|].
  now rewrite !find_last_cons, IH, H.
Qed.

Lemma find_last_none_weaker {A} (f g : A -> bool) l :
  (forall a, f a = true -> g a = true) ->
  find_last g l = None -> find_last f l = None.
Proof.
  intros H. induction l as [|a rest IH]; [reflexivity|].
  rewrite !find_last_cons. destruct (find_last g rest); [discriminate|].
  rewrite IH by reflexivity. destruct (g a) eqn:G; [discriminate|].
  destruct (f a) eqn:F; [|reflexivity]. apply H in F. congruence.
Qed.

(** The cell of [k] after the walk: the patched version of the last
    matching token with that id, else the cell as it was. *)
Lemma patch_each_get patch prev : forall m k,
  JsMap.get k (snd (fst (patch_each patch prev m)))
  = match find_last (fun t => String.eqb (TokenData.id t) k && matches patch t) prev with
    | Some t => Some (patched patch t)
    | None => JsMap.get k m
    end.
Proof.
  induction prev as [|token rest IH]; intros m k; [reflexivity|].
  rewrite find_last_cons. simpl patch_each.
  assert (Hm : matches patch token
               = match patch token with Some _ => true | None => false end)
    by reflexivity.
  assert (Hp : patched patch token
               = match patch token with Some u => u | None => token end)
    by reflexivity.
  destruct (patch token) as [u|] eqn:E.
  - specialize (IH (JsMap.set (TokenData.id token) u m) k).
    destruct (patch_each patch rest _) as [[r m'] f]. simpl fst in *. simpl snd in *.
    rewrite IH. destruct (find_last _ rest); [reflexivity|].
    rewrite Hm, andb_true_r.
    destruct (String.eqb_spec (TokenData.id token) k) as [<-|Hne].
    + rewrite Hp. apply JsMap_get_set_same.
    + now apply JsMap_get_set_other.
  - specialize (IH m k). destruct (patch_each patch rest m) as [[r m'] f].
    simpl fst in *. simpl snd in *.
    rewrite IH, Hm, andb_false_r. now destruct (find_last _ rest).
Qed.

Lemma walk_absorbs p1 p2 prev m k :
  (forall t u, p1 t = Some u -> TokenData.id u = TokenData.id t) ->
  (forall t, p2 (patched p1 t) = p2 t) ->
  (forall t, matches p1 t = true -> matches p2 t = true) ->
  map (patched p2) (map (patched p1) prev) = map (patched p2) prev
  /\ JsMap.get k (snd (fst (patch_each p2 (map (patched p1) prev)
                              (snd (fst (patch_each p1 prev m))))))
     = JsMap.get k (snd (fst (patch_each p2 prev m))).
Proof.
  intros Hid Habs Hm.
  assert (Hpp : forall t, patched p2 (patched p1 t) = patched p2 t).
  { intros t. unfold patched at 1 3. rewrite Habs.
    destruct (p2 t) eqn:E2; [reflexivity|].
    unfold patched. destruct (p1 t) eqn:E1; [|reflexivity].
    assert (matches p2 t = true) by (apply Hm; unfold matches; now rewrite E1).
    unfold matches in H. rewrite E2 in H. discriminate. }
  split.
  - rewrite map_map. apply map_ext. exact Hpp.
  - rewrite !patch_each_get, find_last_map.
    rewrite (find_last_ext _
               (fun t => String.eqb (TokenData.id t) k && matches p2 t)).
    + destruct (find_last (fun t => String.eqb (TokenData.id t) k && matches p2 t) prev)
        as [t|] eqn:F; simpl; [now rewrite Hpp|].
      rewrite (find_last_none_weaker
                 (fun t => String.eqb (TokenData.id t) k && matches p1 t)
                 (fun t => String.eqb (TokenData.id t) k && matches p2 t) prev);
        [reflexivity| |exact F].
      intros a Ha. apply andb_true_iff in Ha. destruct Ha as [Ha1 Ha2].
      rewrite Ha1. simpl. now apply Hm.
    + intros t. f_equal.
      * f_equal. unfold patched. destruct (p1 t) eqn:E1; [now apply Hid|reflexivity].
      * unfold matches. now rewrite Habs.
Qed.

Lemma map_after_tick parseFloat Date_parse now data st latest :
  latestSwap (swaps data) = Some latest ->
  tokensMapRef (after_message parseFloat Date_parse now (Tick data) st)
  = snd (fst (patch_each
                (tick_patch (tick_pair data) (parseFloat (priceToken1Usd latest)) now)
                (tokens st) (tokensMapRef st))).
Proof.
  intros Hl. unfold after_message. simpl. rewrite Hl.
  destruct (patch_each _ (tokens st) (tokensMapRef st)) as [[r m] f].
  now destruct f.
Qed.

Lemma map_after_stats parseFloat Date_parse now data st :
  tokensMapRef (after_message parseFloat Date_parse now (PairStats data) st)
  = snd (fst (patch_each
                (stats_patch (stats_pair data)
                   (parseFloat (stats_migrationProgress data)) now)
                (tokens st) (tokensMapRef st))).
Proof.
  unfold after_message. simpl.
  destruct (patch_each _ (tokens st) (tokensMapRef st)) as [[r m] f].
  now destruct f.
Qed.

(** X4. Pair-stats events are idempotent up to the time stamp: the same
    event applied at time [now1] and again at time [now2] leaves the list,
    and every cell of the map, as one application at [now2] does. *)
Theorem pair_stats_twice_is_once :
  forall parseFloat Date_parse (now1 now2 : Date) (data : PairStatsMsgData)
         (st : HookState),
    let once := after_message parseFloat Date_parse now2 (PairStats data) st in
    let twice :=
      after_message parseFloat Date_parse now2 (PairStats data)
        (after_message parseFloat Date_parse now1 (PairStats data) st) in
    tokens twice = tokens once
    /\ forall k, JsMap.get k (tokensMapRef twice) = JsMap.get k (tokensMapRef once).
Proof.
  intros parseFloat Date_parse now1 now2 data st once twice. subst once twice.
  set (mp := parseFloat (stats_migrationProgress data)).
  set (p1 := stats_patch (stats_pair data) mp now1).
  set (p2 := stats_patch (stats_pair data) mp now2).
  assert (H : forall k,
             map (patched p2) (map (patched p1) (tokens st)) = map (patched p2) (tokens st)
             /\ JsMap.get k (snd (fst (patch_each p2 (map (patched p1) (tokens st))
                                         (snd (fst (patch_each p1 (tokens st)
                                                      (tokensMapRef st)))))))
                = JsMap.get k (snd (fst (patch_each p2 (tokens st) (tokensMapRef st))))).
  { intros k. apply walk_absorbs.
    - intros t u E. exact (proj1 (stats_patch_keeps _ _ _ _ _ E)).
    - intros t. unfold p1, p2, patched, stats_patch. simpl.
      destruct (String.eqb (TokenData.pairAddress t) _) eqn:E; simpl; now rewrite E.
    - intros t. unfold matches, p1, p2, stats_patch. now destruct (String.eqb _ _). }
  rewrite !tokens_after_stats, !map_after_stats, !tokens_after_stats.
  fold mp p1 p2. split; [exact (proj1 (H ""))|]. intros k. exact (proj2 (H k)).
Qed.

(** X5. Of two ticks for the same pair the later one decides, when it
    carries a swap that is not an outlier: list and map cells are those the
    later tick alone gives. *)
Theorem later_tick_absorbs_earlier :
  forall parseFloat Date_parse (now1 now2 : Date) (d1 d2 : TickEventPayload)
         (st : HookState),
    tick_pair d1 = tick_pair d2 ->
    (exists s, In s (swaps d2) /\ isOutlier s = false) ->
    let later := after_message parseFloat Date_parse now2 (Tick d2) st in
    let both :=
      after_message parseFloat Date_parse now2 (Tick d2)
        (after_message parseFloat Date_parse now1 (Tick d1) st) in
    tokens both = tokens later
    /\ forall k, JsMap.get k (tokensMapRef both) = JsMap.get k (tokensMapRef later).
Proof.
  intros parseFloat Date_parse now1 now2 d1 d2 st Hpair Hex later both.
  subst later both. destruct (latestSwap_exists _ Hex) as [s2 Hs2].
  destruct (latestSwap (swaps d1)) as [s1|] eqn:Hs1.
  - set (p1 := tick_patch (tick_pair d1) (parseFloat (priceToken1Usd s1)) now1).
    set (p2 := tick_patch (tick_pair d2) (parseFloat (priceToken1Usd s2)) now2).
    assert (H : forall k,
               map (patched p2) (map (patched p1) (tokens st))
               = map (patched p2) (tokens st)
               /\ JsMap.get k (snd (fst (patch_each p2 (map (patched p1) (tokens st))
                                           (snd (fst (patch_each p1 (tokens st)
                                                        (tokensMapRef st)))))))
                  = JsMap.get k (snd (fst (patch_each p2 (tokens st)
                                             (tokensMapRef st))))).
    { intros k. apply walk_absorbs.
      - intros t u E. exact (proj1 (tick_patch_keeps _ _ _ _ _ E)).
      - intros t. unfold p1, p2, patched, tick_patch. rewrite Hpair. simpl.
        destruct (String.eqb (TokenData.pairAddress t) _) eqn:E; simpl; now rewrite E.
      - intros t. unfold matches, p1, p2, tick_patch. rewrite Hpair.
        now destruct (String.eqb _ _). }
    rewrite !(tokens_after_tick _ _ _ _ _ _ Hs2), !(map_after_tick _ _ _ _ _ _ Hs2).
    rewrite (tokens_after_tick _ _ _ _ _ _ Hs1), (map_after_tick _ _ _ _ _ _ Hs1).
    fold p1 p2. split; [exact (proj1 (H ""))|]. intros k. exact (proj2 (H k)).
  - assert (E : after_message parseFloat Date_parse now1 (Tick d1) st = st)
      by (unfold after_message; simpl; now rewrite Hs1).
    rewrite E. split; reflexivity.
Qed.

Lemma later_tick_absorbs_earlier_witness :
  tokens (after_message RefParse.parseFloat Fixture.Date_parse 2500%float
            (Tick (Messages.tick "0xpair1" "3.0" false)) Scenario.ticked)
  = tokens (after_message RefParse.parseFloat Fixture.Date_parse 2500%float
              (Tick (Messages.tick "0xpair1" "3.0" false)) Fixture.loaded).
Proof.
  apply (later_tick_absorbs_earlier RefParse.parseFloat Fixture.Date_parse
           2000%float 2500%float (Messages.tick "0xpair1" "2.0" false)
           (Messages.tick "0xpair1" "3.0" false) Fixture.loaded).
  - reflexivity.
  - eexists. split; [left; reflexivity|reflexivity].
Defined.

(** ** The normaliser never lets NaN through *)

Lemma safeParseFloat_not_nan parseFloat value :
  isNaN (safeParseFloat parseFloat value) = false.
Proof.
  unfold safeParseFloat, safeParseFloat'. destruct value as [| |s|x]; try reflexivity.
  - destruct (String.eqb s ""); [reflexivity|].
    destruct (isNaN (parseFloat s)) eqn:E; [reflexivity|exact E].
  - destruct (isNaN x) eqn:E; [reflexivity|exact E].
Qed.

Lemma num_or_not_nan x : isNaN (num_or x 0%float) = false.
Proof.
  unfold num_or, truthy_num. destruct (PrimFloat.eqb x 0); simpl; [reflexivity|].
  destruct (isNaN x) eqn:E; [reflexivity|exact E].
Qed.

Lemma opt_num_or_not_nan o : isNaN (opt_num_or o 0%float) = false.
Proof. destruct o; try reflexivity. apply num_or_not_nan. Qed.

(** X6. Whatever the texts of a record are and whatever [parseFloat] makes
    of them, the normalised token has no NaN in its price, volume, total
    supply, price changes, liquidity, buy and sell counts and migration
    progress; its market cap is either strictly positive or the product of
    its total supply and its price; its id is the record's pair address and
    its time stamp is the clock's. *)
Theorem normalised_token_is_sound :
  forall parseFloat Date_parse (now : Date) (result : ScannerResult.t),
    let token := scannerResultToToken parseFloat Date_parse now result in
    Forall (fun x => isNaN x = false)
      [ TokenData.priceUsd token; TokenData.volumeUsd token;
        TokenData.totalSupply token;
        TokenData.priceChange5M token; TokenData.priceChange1H token;
        TokenData.priceChange6H token; TokenData.priceChange24H token;
        TokenData.liquidity_current token; TokenData.liquidity_changePc token;
        TokenData.buys token; TokenData.sells token ]
    /\ (forall x, TokenData.migrationPc token = Some x -> isNaN x = false)
    /\ (gt (TokenData.mcap token) 0%float = true
        \/ TokenData.mcap token
           = (TokenData.totalSupply token * TokenData.priceUsd token)%float)
    /\ TokenData.id token = ScannerResult.pairAddress result
    /\ TokenData.lastUpdated token = now.
Proof.
  intros parseFloat Date_parse now result token. subst token. simpl.
  split; [|split; [|split; [|split; reflexivity]]].
  - repeat constructor;
      first [apply safeParseFloat_not_nan | apply opt_num_or_not_nan].
  - intros x. destruct (ScannerResult.migrationProgress result) as [| |s];
      try discriminate.
    destruct (truthy_str s); [|discriminate]. intros [= <-].
    exact (safeParseFloat_not_nan parseFloat (RStr s)).
  - unfold calculateMarketCap.
    destruct (gt (safeParseFloat parseFloat (ScannerResult.currentMcap result)) _) eqn:E1;
      [now left|].
    destruct (gt (safeParseFloat parseFloat (ScannerResult.initialMcap result)) _) eqn:E2;
      [now left|].
    destruct (gt (safeParseFloat parseFloat (ScannerResult.pairMcapUsd result)) _) eqn:E3;
      [now left|].
    destruct (gt (safeParseFloat parseFloat (ScannerResult.pairMcapUsdInitial result)) _)
      eqn:E4; [now left|].
    now right.
Qed.

(** ** Loading pages *)

Lemma keys_set_all l : forall m,
  exists added, JsMap.keys (JsMap.set_all l m) = JsMap.keys m ++ added.
Proof.
  unfold JsMap.set_all. induction l as [|a rest IH]; intros m; simpl.
  - exists []. now rewrite app_nil_r.
  - destruct (IH (JsMap.set (TokenData.id a) a m)) as [added Ha].
    rewrite Ha, JsMap_keys_set. destruct (JsMap.has (TokenData.id a) m).
    + now exists added.
    + exists (TokenData.id a :: added). now rewrite <- app_assoc.
Qed.

Lemma get_set_all_other l : forall m k,
  ~ In k (ids l) -> JsMap.get k (JsMap.set_all l m) = JsMap.get k m.
Proof.
  unfold JsMap.set_all. induction l as [|a rest IH]; intros m k Hk; simpl; [reflexivity|].
  rewrite IH by (intros H; apply Hk; now right).
  apply JsMap_get_set_other. intros E. apply Hk. now left.
Qed.

Lemma get_set_all_in l : forall m k,
  In k (ids l) ->
  exists t, In t l /\ TokenData.id t = k /\ JsMap.get k (JsMap.set_all l m) = Some t.
Proof.
  unfold JsMap.set_all. induction l as [|a rest IH]; intros m k; simpl; [intros []|].
  intros Hk. destruct (in_dec string_dec k (ids rest)) as [Hr|Hr].
  - destruct (IH (JsMap.set (TokenData.id a) a m) k Hr) as (t & Ht & Hid & Hg).
    exists t. auto.
  - destruct Hk as [Hk|Hk]; [|contradiction]. exists a. split; [now left|].
    split; [exact Hk|].
    pose proof (get_set_all_other rest (JsMap.set (TokenData.id a) a m) k Hr) as Hg.
    unfold JsMap.set_all in Hg. rewrite Hg, Hk. apply JsMap_get_set_same.
Qed.

(** X7. A load-more response is merged, not substituted: a token whose id
    the page does not hold keeps its cell (so what ticks wrote there
    stays), an id of the page maps to a token of the page, the keys that
    were there keep their order with new ones after them, and the list
    becomes the values of the map. *)
Theorem append_response_merges :
  forall parseFloat Date_parse (now : Date) (rq : Request)
         (response : ScannerApiResponse) (st : HookState),
    rq_append rq = true ->
    let newTokens := response_tokens parseFloat Date_parse now rq response in
    let st' := loadData_resolved parseFloat Date_parse now rq response st in
    tokens st' = JsMap.values (tokensMapRef st')
    /\ (forall k, ~ In k (ids newTokens) ->
                  JsMap.get k (tokensMapRef st') = JsMap.get k (tokensMapRef st))
    /\ (forall k, In k (ids newTokens) ->
                  exists t, In t newTokens /\ TokenData.id t = k
                            /\ JsMap.get k (tokensMapRef st') = Some t)
    /\ (exists added,
           JsMap.keys (tokensMapRef st') = JsMap.keys (tokensMapRef st) ++ added).
Proof.
  intros parseFloat Date_parse now rq response st Ha newTokens st'. subst st'.
  unfold loadData_resolved. fold newTokens. rewrite Ha. simpl.
  split; [reflexivity|]. split; [|split].
  - intros k Hk. now apply get_set_all_other.
  - intros k Hk. now apply get_set_all_in.
  - apply keys_set_all.
Qed.

Lemma append_response_merges_witness :
  JsMap.keys
    (tokensMapRef
       (loadData_resolved RefParse.parseFloat Fixture.Date_parse 3000%float
          {| rq_page := 2%float; rq_append := true; rq_filters := None;
             rq_params := buildApiParams Fixture.defaultProps 2%float |}
          {| pairs := [Fixture.pair3; Fixture.pair2]; resp_totalRows := 3%float |}
          Scenario.ticked))
  = ["0xpair1"; "0xpair2"; "0xpair3"]
  /\ JsMap.get "0xpair1"
       (tokensMapRef
          (loadData_resolved RefParse.parseFloat Fixture.Date_parse 3000%float
             {| rq_page := 2%float; rq_append := true; rq_filters := None;
                rq_params := buildApiParams Fixture.defaultProps 2%float |}
             {| pairs := [Fixture.pair3; Fixture.pair2]; resp_totalRows := 3%float |}
             Scenario.ticked))
     = JsMap.get "0xpair1" (tokensMapRef Scenario.ticked).
Proof.
  split; [vm_compute; reflexivity|].
  apply (append_response_merges RefParse.parseFloat Fixture.Date_parse 3000%float
           {| rq_page := 2%float; rq_append := true; rq_filters := None;
              rq_params := buildApiParams Fixture.defaultProps 2%float |}
           {| pairs := [Fixture.pair3; Fixture.pair2]; resp_totalRows := 3%float |}
           Scenario.ticked eq_refl).
  vm_compute. intros [H|[H|[]]]; discriminate H.
Defined.

Lemma run_tokensEffect_flags w :
  loading (hook (run_tokensEffect w)) = loading (hook w)
  /\ hasMore (hook (run_tokensEffect w)) = hasMore (hook w)
  /\ error (hook (run_tokensEffect w)) = error (hook w)
  /\ currentPage (hook (run_tokensEffect w)) = currentPage (hook w)
  /\ totalRows (hook (run_tokensEffect w)) = totalRows (hook w).
Proof.
  unfold run_tokensEffect, tokensEffect. destruct (tokens (hook w)); simpl.
  - repeat split.
  - destruct (subscribeToTokens _ _ _ _). simpl. repeat split.
Qed.

(** X8. After a response has been merged, [hasMore] says exactly this: the
    page held a record and the list is shorter than the reported total.
    So after an empty page [hasMore] is false, and [loadMore] fetches
    nothing. *)
Theorem hasMore_after_a_page :
  forall parseFloat Date_parse (w : World) (i : nat) (rq : Request)
         (response : ScannerApiResponse) (now : Date),
    nth_error (inflight w) i = Some rq ->
    let w' := step parseFloat Date_parse w (EvFetchResolved i response now) in
    hasMore (hook w')
    = negb (Nat.eqb (List.length (pairs response)) 0)
      && lt (of_nat (List.length (tokens (hook w')))) (resp_totalRows response)
    /\ loading (hook w') = false
    /\ currentPage (hook w') = rq_page rq
    /\ totalRows (hook w') = resp_totalRows response
    /\ (pairs response = [] -> loadMore w' = w').
Proof.
  intros parseFloat Date_parse w i rq response now Hnth w'. subst w'.
  unfold step. rewrite Hnth.
  match goal with
  | |- context [run_tokensEffect ?x] =>
      pose proof (run_tokensEffect_frame x) as (Ht & _);
      pose proof (run_tokensEffect_flags x) as (Hl & Hh & _ & Hc & Hr);
      set (w1 := run_tokensEffect x) in *
  end.
  simpl hook in Ht, Hl, Hh, Hc, Hr.
  assert (Hm : hasMore (hook w1)
               = negb (Nat.eqb (List.length (pairs response)) 0)
                 && lt (of_nat (List.length (tokens (hook w1))))
                      (resp_totalRows response)).
  { rewrite Hh, Ht. unfold loadData_resolved. destruct (rq_append rq); reflexivity. }
  split; [exact Hm|]. split; [|split; [|split]].
  - rewrite Hl. reflexivity.
  - rewrite Hc. reflexivity.
  - rewrite Hr. unfold loadData_resolved. destruct (rq_append rq); reflexivity.
  - intros He. unfold loadMore. rewrite Hm, He. simpl. now rewrite andb_false_r.
Qed.

Lemma hasMore_after_a_page_witness :
  hasMore (hook Fixture.world_loaded) = false
  /\ loadMore
       (step RefParse.parseFloat Fixture.Date_parse Paging.one_more
          (EvFetchResolved 0 {| pairs := []; resp_totalRows := 5%float |} 2000%float))
     = step RefParse.parseFloat Fixture.Date_parse Paging.one_more
         (EvFetchResolved 0 {| pairs := []; resp_totalRows := 5%float |} 2000%float).
Proof.
  split; [vm_compute; reflexivity|].
  assert (H : nth_error (inflight Paging.one_more) 0
              = Some {| rq_page := 2%float; rq_append := true; rq_filters := None;
                        rq_params := buildApiParams Fixture.defaultProps 2%float |})
    by (vm_compute; reflexivity).
  destruct (hasMore_after_a_page RefParse.parseFloat Fixture.Date_parse
              Paging.one_more 0 _ {| pairs := []; resp_totalRows := 5%float |}
              2000%float H) as (_ & _ & _ & _ & Hempty).
  exact (Hempty eq_refl).
Defined.

(** X9. A failed fetch costs no data: list, map, pagination state and
    what was sent stay as they are; the message is recorded and the loading
    flag cleared. A refresh after it clears the error, raises the loading
    flag and fetches page 1, the list still in place. *)
Theorem failed_fetch_keeps_data :
  forall parseFloat Date_parse (w : World) (i : nat) (rq : Request) (message : string),
    nth_error (inflight w) i = Some rq ->
    let w' := step parseFloat Date_parse w (EvFetchRejected i message) in
    let w'' := step parseFloat Date_parse w' EvRefreshData in
    (tokens (hook w') = tokens (hook w)
     /\ tokensMapRef (hook w') = tokensMapRef (hook w)
     /\ hasMore (hook w') = hasMore (hook w)
     /\ currentPage (hook w') = currentPage (hook w)
     /\ subscriptionsRef (hook w') = subscriptionsRef (hook w)
     /\ sent w' = sent w /\ fetched w' = fetched w)
    /\ error (hook w') = Some message
    /\ loading (hook w') = false
    /\ inflight w' = remove_nth i (inflight w)
    /\ error (hook w'') = None
    /\ loading (hook w'') = true
    /\ tokens (hook w'') = tokens (hook w)
    /\ fetched w'' = fetched w ++ [buildApiParams (props w) 1%float].
Proof.
  intros parseFloat Date_parse w i rq message Hnth w' w''. subst w'' w'.
  unfold step. rewrite Hnth. simpl. repeat split.
Qed.

Lemma failed_fetch_keeps_data_witness :
  error (hook (step RefParse.parseFloat Fixture.Date_parse Paging.one_more
                 (EvFetchRejected 0 "HTTP error! status: 500")))
  = Some "HTTP error! status: 500"
  /\ tokens (hook (step RefParse.parseFloat Fixture.Date_parse Paging.one_more
                     (EvFetchRejected 0 "HTTP error! status: 500")))
     = tokens (hook Paging.one_more).
Proof.
  assert (H : nth_error (inflight Paging.one_more) 0
              = Some {| rq_page := 2%float; rq_append := true; rq_filters := None;
                        rq_params := buildApiParams Fixture.defaultProps 2%float |})
    by (vm_compute; reflexivity).
  destruct (failed_fetch_keeps_data RefParse.parseFloat Fixture.Date_parse
              Paging.one_more 0 _ "HTTP error! status: 500" H)
    as ((Ht & _) & He & _).
  split; [exact He|exact Ht].
Defined.

(** X10. Tokens that arrive while the socket is closed are not subscribed,
    and the opening of the socket does not make up for it: after a page
    merged with the socket closed and the socket then opened, nothing has
    been sent and no key is stored. Subscriptions follow only at the next
    change of the list. *)
Theorem late_socket_subscribes_nothing :
  forall parseFloat Date_parse (w : World) (i : nat) (response : ScannerApiResponse)
         (now : Date),
    wsOpen w = false ->
    let w' :=
      run parseFloat Date_parse w [EvFetchResolved i response now; EvSocketOpened] in
    sent w' = sent w
    /\ subscriptionsRef (hook w') = subscriptionsRef (hook w)
    /\ wsOpen w' = true.
Proof.
  intros parseFloat Date_parse w i response now Hclosed w'. subst w'.
  change (run parseFloat Date_parse w [EvFetchResolved i response now; EvSocketOpened])
    with (step parseFloat Date_parse
            (step parseFloat Date_parse w (EvFetchResolved i response now))
            EvSocketOpened).
  assert (H1 : sent (step parseFloat Date_parse w (EvFetchResolved i response now))
               = sent w
               /\ subscriptionsRef
                    (hook (step parseFloat Date_parse w (EvFetchResolved i response now)))
                  = subscriptionsRef (hook w)).
  { unfold step. destruct (nth_error (inflight w) i) as [rq|]; [|split; reflexivity].
    unfold run_tokensEffect. simpl props. simpl wsOpen. simpl hook. rewrite Hclosed.
    rewrite tokensEffect_idle by (now right). simpl. rewrite app_nil_r.
    unfold loadData_resolved. destruct (rq_append rq); split; reflexivity. }
  destruct H1 as [Hs Hk].
  set (w1 := step parseFloat Date_parse w (EvFetchResolved i response now)) in *.
  simpl. rewrite Hs. split; [reflexivity|]. split; [|reflexivity].
  rewrite <- Hk. now destruct (hook w1).
Qed.

Lemma late_socket_subscribes_nothing_witness :
  sent (run RefParse.parseFloat Fixture.Date_parse (mount Fixture.defaultProps)
          [EvFetchResolved 0 Fixture.response12 1000%float; EvSocketOpened]) = []
  /\ List.length
       (tokens (hook (run RefParse.parseFloat Fixture.Date_parse
                        (mount Fixture.defaultProps)
                        [EvFetchResolved 0 Fixture.response12 1000%float;
                         EvSocketOpened]))) = 2.
Proof.
  split; [|vm_compute; reflexivity].
  exact (proj1 (late_socket_subscribes_nothing RefParse.parseFloat Fixture.Date_parse
                  (mount Fixture.defaultProps) 0 Fixture.response12 1000%float
                  eq_refl)).
Defined.

(** ** Request parameters *)

Lemma applyCombinedFilterToParams_frame baseParams combinedFilterType :
  Params.page (applyCombinedFilterToParams baseParams combinedFilterType)
  = Params.page baseParams
  /\ Params.chain (applyCombinedFilterToParams baseParams combinedFilterType)
     = Params.chain baseParams.
Proof.
  destruct combinedFilterType as [name|]; [|split; reflexivity].
  unfold applyCombinedFilterToParams.
  destruct (getCombinedFilterConfig (Some name)); split; reflexivity.
Qed.

(** X11. The parameters the hook builds for a page carry that page number,
    whatever the filters, table, preset and sort are. With a filter state,
    the chain is the first selected chain (none when the selection is
    empty) and a given sort column and order win over table and preset.
    Without a filter state the sort column and order are ignored: ranking
    is the table's own. *)
Theorem buildApiParams_page_chain_sort :
  forall (p : Props) (page : number),
    Params.page (buildApiParams p page) = Val page
    /\ (forall f, filters p = Some f ->
          Params.chain (buildApiParams p page)
          = match chains f with c :: _ => Val c | [] => Undef end
          /\ (forall c, sortColumn p = Some c ->
                        Params.rankBy (buildApiParams p page) = Val c)
          /\ (forall o, sortOrder p = Some o ->
                        Params.orderBy (buildApiParams p page) = Val o))
    /\ (filters p = None ->
        Params.rankBy (buildApiParams p page)
        = Val (match tableType p with TableTrending => volume | TableNew => age end)
        /\ Params.orderBy (buildApiParams p page) = Val desc
        /\ Params.chain (buildApiParams p page) = Undef).
Proof.
  intros p page. unfold buildApiParams. split; [|split].
  - destruct (filters p) as [f|]; [|now destruct (tableType p)].
    assert (H : Params.page (buildApiParamsWithCombinedFilters f (tableType p) page)
                = Val page).
    { unfold buildApiParamsWithCombinedFilters.
      rewrite (proj1 (applyCombinedFilterToParams_frame _ _)).
      destruct (chains f), (minMarketCap f) as [m|]; try destruct (truthy_num m);
        destruct (tableType p); reflexivity. }
    destruct (sortColumn p), (sortOrder p); exact H.
  - intros f Hf. rewrite Hf.
    assert (H : Params.chain (buildApiParamsWithCombinedFilters f (tableType p) page)
                = match chains f with c :: _ => Val c | [] => Undef end).
    { unfold buildApiParamsWithCombinedFilters.
      rewrite (proj2 (applyCombinedFilterToParams_frame _ _)).
      destruct (chains f), (minMarketCap f) as [m|]; try destruct (truthy_num m);
        destruct (tableType p); reflexivity. }
    split; [|split].
    + destruct (sortColumn p), (sortOrder p); exact H.
    + intros c ->. now destruct (sortOrder p).
    + intros o ->. reflexivity.
  - intros ->. destruct (tableType p); repeat split.
Qed.

Lemma buildApiParams_page_chain_sort_witness :
  Params.chain (buildApiParams Overtaking.solana 3%float) = Val SOL
  /\ Params.rankBy
       (buildApiParams
          {| tableType := TableNew; filters := None; sortColumn := Some mcap;
             sortOrder := Some asc |} 1%float) = Val age.
Proof.
  split.
  - exact (proj1 (proj1 (proj2 (buildApiParams_page_chain_sort Overtaking.solana
                                  3%float)) _ eq_refl)).
  - exact (proj1 (proj2 (proj2 (buildApiParams_page_chain_sort
                                  {| tableType := TableNew; filters := None;
                                     sortColumn := Some mcap; sortOrder := Some asc |}
                                  1%float)) eq_refl)).
Defined.

(** X12. A preset overrides the user's own filter values where it has
    criteria: with moonshot, blue-chip, scalp or hodl selected, honeypots
    are excluded even if the user's flag says otherwise, and minimum
    volume, ranking and order are the preset's. With no preset, or with
    custom, the honeypot flag is the user's. *)
Theorem preset_overrides_filters :
  forall (f : FilterState) (table : TableType) (page : number),
    let params := buildApiParamsWithCombinedFilters f table page in
    (forall name config,
        combinedFilter f = Some name ->
        COMBINED_FILTER_PRESETS name = Some config ->
        Params.isNotHP params = Val true
        /\ Params.minVol24H params = Params.minVol24H (criteria config)
        /\ Params.rankBy params = Params.rankBy (criteria config)
        /\ Params.orderBy params = Params.orderBy (criteria config))
    /\ (combinedFilter f = None \/ combinedFilter f = Some custom ->
        Params.isNotHP params = Val (excludeHoneypots f)).
Proof.
  intros f table page params. subst params.
  unfold buildApiParamsWithCombinedFilters. split.
  - intros name config Hn Hc. rewrite Hn.
    unfold applyCombinedFilterToParams, getCombinedFilterConfig. rewrite Hc.
    destruct name; simpl in Hc; try discriminate; injection Hc as <-;
      repeat split.
  - intros [H|H]; rewrite H;
      destruct (chains f), (minMarketCap f) as [m|]; try destruct (truthy_num m);
        destruct table; reflexivity.
Qed.

Lemma preset_overrides_filters_witness :
  Params.isNotHP
    (buildApiParamsWithCombinedFilters
       {| chains := [ETH]; minVolume := Some 10%float; fs_maxAge := None;
          minMarketCap := None; excludeHoneypots := false;
          combinedFilter := Some scalp |} TableTrending 1%float) = Val true
  /\ Params.isNotHP
       (buildApiParamsWithCombinedFilters
          {| chains := [ETH]; minVolume := Some 10%float; fs_maxAge := None;
             minMarketCap := None; excludeHoneypots := false;
             combinedFilter := Some custom |} TableTrending 1%float) = Val false.
Proof.
  split.
  - destruct (COMBINED_FILTER_PRESETS scalp) as [config|] eqn:E; [|discriminate E].
    exact (proj1 (proj1 (preset_overrides_filters
                           {| chains := [ETH]; minVolume := Some 10%float;
                              fs_maxAge := None; minMarketCap := None;
                              excludeHoneypots := false;
                              combinedFilter := Some scalp |} TableTrending 1%float)
                    scalp config eq_refl E)).
  - exact (proj2 (preset_overrides_filters
                    {| chains := [ETH]; minVolume := Some 10%float;
                       fs_maxAge := None; minMarketCap := None;
                       excludeHoneypots := false;
                       combinedFilter := Some custom |} TableTrending 1%float)
             (or_intror eq_refl)).
Defined.

(** ** Client-side preset checks *)

Lemma honeypot_scores_over_30 now token :
  honeypot (TokenData.audit token) = true ->
  gt (calculateRiskScore now token) 30%float = true
  /\ gt (calculateRiskScore now token) 25%float = true.
Proof.
  intros H.
  unfold calculateRiskScore, risk_social, risk_volume, risk_audit, risk_liquidity,
    risk_age.
  cbv zeta. rewrite H.
  split_ifs; vm_compute; split; reflexivity.
Qed.

(** X13. The two strict presets never let a flagged token through: a
    token that passes the blue-chip or the hodl checks is no honeypot and
    has a twitter, telegram or website link, whatever its age, liquidity,
    volume and price changes are. So the list filtered by one of them
    holds no honeypot. *)
Theorem strict_presets_reject_honeypots :
  forall (now : number) (name : CombinedFilterName) (tokens : list TokenData.t)
         (token : TokenData.t),
    name = blue_chip \/ name = hodl ->
    (passesAdditionalChecks now token (Some name) = true ->
     honeypot (TokenData.audit token) = false /\ hasLinks token = true)
    /\ (In token (filterTokensByCombinedFilter now tokens (Some name)) ->
        In token tokens
        /\ honeypot (TokenData.audit token) = false /\ hasLinks token = true).
Proof.
  intros now name tokens token Hname.
  assert (Hpass : passesAdditionalChecks now token (Some name) = true ->
                  honeypot (TokenData.audit token) = false /\ hasLinks token = true).
  { intros Hp. split.
    - destruct (honeypot (TokenData.audit token)) eqn:Eh; [|reflexivity].
      destruct (honeypot_scores_over_30 now token Eh) as [H30 H25].
      destruct Hname as [-> | ->];
        unfold passesAdditionalChecks, getCombinedFilterConfig in Hp;
        cbn [COMBINED_FILTER_PRESETS additionalChecks minPriceChange5M
               maxPriceChange5M minVolumeGrowth minLiquidityRatio maxRiskScore
               minTransactionCount requiresSocialLinks] in Hp;
        [rewrite H30 in Hp | rewrite H25 in Hp];
        repeat (cbv beta iota in Hp;
                match type of Hp with
                | (if ?b then _ else _) = _ => destruct b
                end);
        discriminate Hp.
    - destruct (hasLinks token) eqn:El; [reflexivity|].
      destruct Hname as [-> | ->];
        unfold passesAdditionalChecks, getCombinedFilterConfig in Hp;
        cbn [COMBINED_FILTER_PRESETS additionalChecks minPriceChange5M
               maxPriceChange5M minVolumeGrowth minLiquidityRatio maxRiskScore
               minTransactionCount requiresSocialLinks] in Hp;
        rewrite El in Hp; simpl negb in Hp;
        repeat (cbv beta iota in Hp;
                match type of Hp with
                | (if ?b then _ else _) = _ => destruct b
                end);
        discriminate Hp. }
  split; [exact Hpass|].
  unfold filterTokensByCombinedFilter. intros Hin.
  apply filter_In in Hin. destruct Hin as [Hin Hp].
  split; [exact Hin|]. exact (Hpass Hp).
Qed.

Lemma strict_presets_reject_honeypots_witness :
  passesAdditionalChecks 1704200000000%float Listed.clean (Some blue_chip)
  = true
  /\ honeypot (TokenData.audit Listed.clean) = false
  /\ hasLinks Listed.clean = true.
Proof.
  assert (H : passesAdditionalChecks 1704200000000%float Listed.clean
                (Some blue_chip) = true) by (vm_compute; reflexivity).
  split; [exact H|].
  exact (proj1 (strict_presets_reject_honeypots 1704200000000%float blue_chip []
                  Listed.clean (or_introl eq_refl)) H).
Defined.

(** X14. Filtering the list by no preset, or by custom (which has no
    configuration), keeps every token in place; filtering by any preset
    keeps exactly the tokens that pass its checks, in their order, so that
    filtering a second time changes nothing. *)
Theorem filterTokensByCombinedFilter_shape :
  forall (now : number) (tokens : list TokenData.t) (type : CombinedFilterType),
    (type = None \/ type = Some custom ->
     filterTokensByCombinedFilter now tokens type = tokens)
    /\ (forall token,
           In token (filterTokensByCombinedFilter now tokens type)
           <-> In token tokens /\ passesAdditionalChecks now token type = true)
    /\ filterTokensByCombinedFilter now
         (filterTokensByCombinedFilter now tokens type) type
       = filterTokensByCombinedFilter now tokens type.
Proof.
  intros now tokens type. split; [|split].
  - intros [-> | ->]; [reflexivity|]. unfold filterTokensByCombinedFilter.
    induction tokens as [|token rest IH]; [reflexivity|].
    cbn [filter]. change (passesAdditionalChecks now token (Some custom)) with true.
    cbv iota. f_equal. exact IH.
  - intros token. destruct type as [name|]; simpl.
    + apply filter_In.
    + tauto.
  - destruct type as [name|]; [|reflexivity]. unfold filterTokensByCombinedFilter.
    induction tokens as [|token rest IH]; [reflexivity|].
    cbn [filter]. destruct (passesAdditionalChecks now token (Some name)) eqn:E.
    + cbn [filter]. rewrite E. f_equal. exact IH.
    + exact IH.
Qed.

Lemma filterTokensByCombinedFilter_shape_witness :
  filterTokensByCombinedFilter 1704200000000%float
    [Listed.clean;
     Listed.risky] (Some custom)
  = [Listed.clean;
     Listed.risky].
Proof.
  exact (proj1 (filterTokensByCombinedFilter_shape 1704200000000%float
                  [Listed.clean;
     Listed.risky] (Some custom))
           (or_intror eq_refl)).
Defined.

(** ** The socket service *)

Lemma String_app_assoc (a b c : string) :
  ((a ++ b) ++ c = a ++ (b ++ c))%string.
Proof. induction a as [|x a IH]; simpl; [reflexivity|]. now rewrite IH. Qed.

Lemma sep_inj (c : ascii) : forall (a b r r' : string),
  has_char c a = false -> has_char c b = false ->
  (a ++ String c r = b ++ String c r')%string -> a = b.
Proof.
  induction a as [|x a IH]; intros [|y b] r r' Ha Hb E; simpl in *.
  - reflexivity.
  - injection E as E1 E2. apply orb_false_iff in Hb. destruct Hb as [Hy _].
    rewrite <- E1, Ascii.eqb_refl in Hy. discriminate Hy.
  - injection E as E1 E2. apply orb_false_iff in Ha. destruct Ha as [Hx _].
    rewrite E1, Ascii.eqb_refl in Hx. discriminate Hx.
  - injection E as E1 E2. apply orb_false_iff in Ha. apply orb_false_iff in Hb.
    rewrite E1. f_equal. exact (IH b r r' (proj2 Ha) (proj2 Hb) E2).
Qed.

Lemma JSON_stringify_event stringify_data (m m' : WS.Message) :
  has_char "034" (WS.event m) = false ->
  has_char "034" (WS.event m') = false ->
  WS.JSON_stringify stringify_data m = WS.JSON_stringify stringify_data m' ->
  WS.event m = WS.event m'.
Proof.
  intros Hm Hm' E. unfold WS.JSON_stringify, WS.quote in E.
  cbn [append] in E. rewrite !String_app_assoc in E. cbn [append] in E.
  injection E as E.
  exact (sep_inj "034" _ _ _ _ Hm Hm' E).
Qed.

Lemma subscription_event_plain e :
  subscription_event e -> has_char "034" e = false.
Proof. intros [-> | ->]; reflexivity. Qed.

Lemma Set_delete_absent k (s : JsSet.t) : ~ In k s -> Set_delete k s = s.
Proof.
  unfold Set_delete. induction s as [|x s IH]; intros H; [reflexivity|].
  cbn [filter]. destruct (String.eqb_spec k x) as [E|E].
  - exfalso. apply H. left. symmetry. exact E.
  - cbn [negb]. f_equal. apply IH. intros Hin. apply H. right. exact Hin.
Qed.

Lemma JsSet_add_present k (s : JsSet.t) : In k s -> JsSet.add k s = s.
Proof.
  intros H. unfold JsSet.add, JsSet.has.
  assert (E : existsb (String.eqb k) s = true).
  { apply existsb_exists. exists k. split; [exact H|apply String.eqb_refl]. }
  now rewrite E.
Qed.

Lemma not_stored stringify_data (s : WS.t) (e : string) (d : WS.Data) :
  stored_by_send stringify_data s ->
  has_char "034" e = false ->
  ~ subscription_event e ->
  ~ In (WS.JSON_stringify stringify_data {| WS.event := e; WS.data := d |})
       (WS.subscriptions s).
Proof.
  intros Hs He Hn Hin. destruct (Hs _ Hin) as (m & Em & Hm).
  apply Hn.
  pose proof (JSON_stringify_event stringify_data {| WS.event := e; WS.data := d |} m
                He (subscription_event_plain _ Hm) Em) as E.
  cbn [WS.event] in E. rewrite E. exact Hm.
Qed.

Lemma call_send stringify_data (o : Outgoing) (s : WS.t) :
  WS.call stringify_data o s = WS.send stringify_data (message_of o) s.
Proof. destruct o; reflexivity. Qed.

(** One call of the hook on a service whose socket is open. *)
Lemma call_open stringify_data (o : Outgoing) (s : WS.t) :
  WS.ws s = Some WS.OPEN ->
  stored_by_send stringify_data s ->
  WS.call stringify_data o s
  = (true,
     {| WS.ws := WS.ws s; WS.reconnectAttempts := WS.reconnectAttempts s;
        WS.isConnecting := WS.isConnecting s;
        WS.shouldReconnect := WS.shouldReconnect s;
        WS.subscriptions :=
          if is_subscription o
          then JsSet.add (WS.JSON_stringify stringify_data (message_of o))
                 (WS.subscriptions s)
          else WS.subscriptions s;
        WS.wire := WS.wire s ++ [WS.JSON_stringify stringify_data (message_of o)];
        WS.timers := WS.timers s |}).
Proof.
  intros Hopen Hs. rewrite call_send. unfold WS.send. rewrite Hopen.
  destruct o; cbn [message_of WS.event WS.data is_subscription].
  - reflexivity.
  - reflexivity.
  - reflexivity.
  - change (String_includes "subscribe" "unsubscribe-pair") with true.
    change (String_includes "unsubscribe" "unsubscribe-pair") with true.
    change (String_replace "unsubscribe-" "" "unsubscribe-pair") with "pair"%string.
    cbn [andb negb]. rewrite Set_delete_absent; [reflexivity|].
    apply not_stored; [exact Hs|reflexivity|].
    intros [E|E]; discriminate E.
  - change (String_includes "subscribe" "unsubscribe-pair-stats") with true.
    change (String_includes "unsubscribe" "unsubscribe-pair-stats") with true.
    change (String_replace "unsubscribe-" "" "unsubscribe-pair-stats")
      with "pair-stats"%string.
    cbn [andb negb]. rewrite Set_delete_absent; [reflexivity|].
    apply not_stored; [exact Hs|reflexivity|].
    intros [E|E]; discriminate E.
Qed.

Lemma call_open_stored stringify_data (o : Outgoing) (s : WS.t) :
  WS.ws s = Some WS.OPEN ->
  stored_by_send stringify_data s ->
  stored_by_send stringify_data (snd (WS.call stringify_data o s)).
Proof.
  intros Hopen Hs. rewrite (call_open stringify_data o s Hopen Hs).
  unfold stored_by_send. cbn [snd WS.subscriptions]. intros text Hin.
  destruct (is_subscription o) eqn:Eo; [|exact (Hs text Hin)].
  apply JsSet_add_in in Hin. destruct Hin as [-> | Hin]; [|exact (Hs text Hin)].
  exists (message_of o). split; [reflexivity|].
  destruct o; try discriminate Eo; [left|right]; reflexivity.
Qed.

Lemma JsSet_add_extends k (s : JsSet.t) : exists more, JsSet.add k s = s ++ more.
Proof.
  unfold JsSet.add. destruct (JsSet.has k s).
  - exists []. now rewrite app_nil_r.
  - exists [k]. reflexivity.
Qed.

Lemma calls_open_facts :
  forall (stringify_data : WS.Data -> string) (sent : list Outgoing) (s : WS.t),
    WS.ws s = Some WS.OPEN ->
    stored_by_send stringify_data s ->
    let s' := WS.calls stringify_data sent s in
    WS.wire s'
    = WS.wire s ++ map (fun o => WS.JSON_stringify stringify_data (message_of o)) sent
    /\ (forall text,
           In text (WS.subscriptions s')
           <-> In text (WS.subscriptions s)
               \/ exists o, In o sent /\ is_subscription o = true
                            /\ text = WS.JSON_stringify stringify_data (message_of o))
    /\ stored_by_send stringify_data s'
    /\ WS.ws s' = Some WS.OPEN.
Proof.
  intros stringify_data sent. induction sent as [|o rest IH]; intros s Hopen Hs.
  - cbn. rewrite app_nil_r. split; [reflexivity|].
    split; [|split; assumption]. intros text. split; [auto|].
    intros [H|(o & [] & _)]. exact H.
  - cbn zeta. unfold WS.calls. cbn [fold_left].
    pose proof (call_open stringify_data o s Hopen Hs) as Hc.
    pose proof (call_open_stored stringify_data o s Hopen Hs) as Hs1.
    set (s1 := snd (WS.call stringify_data o s)) in *.
    assert (Hopen1 : WS.ws s1 = Some WS.OPEN).
    { subst s1. rewrite Hc. exact Hopen. }
    assert (Hw1 : WS.wire s1
                  = WS.wire s ++ [WS.JSON_stringify stringify_data (message_of o)]).
    { subst s1. rewrite Hc. reflexivity. }
    assert (Hsub1 : WS.subscriptions s1
                    = if is_subscription o
                      then JsSet.add (WS.JSON_stringify stringify_data (message_of o))
                             (WS.subscriptions s)
                      else WS.subscriptions s).
    { subst s1. rewrite Hc. reflexivity. }
    destruct (IH s1 Hopen1 Hs1) as (Hw & Hin & Hst & Hop).
    fold (WS.calls stringify_data rest s1).
    split; [|split; [|split]].
    + rewrite Hw, Hw1, <- app_assoc. reflexivity.
    + intros text. rewrite Hin, Hsub1. split.
      * intros [H|(o' & Ho' & Hsub & Et)].
        -- destruct (is_subscription o) eqn:Eo.
           ++ apply JsSet_add_in in H. destruct H as [-> | H]; [|left; exact H].
              right. exists o. split; [left; reflexivity|]. split; [exact Eo|reflexivity].
           ++ left. exact H.
        -- right. exists o'. split; [right; exact Ho'|]. split; assumption.
      * intros [H|(o' & [<- | Ho'] & Hsub & Et)].
        -- left. destruct (is_subscription o); [|exact H].
           apply JsSet_add_in. right. exact H.
        -- left. rewrite Hsub. apply JsSet_add_in. left. exact Et.
        -- right. exists o'. split; [exact Ho'|]. split; assumption.
    + exact Hst.
    + exact Hop.
Qed.

(** X15. On a service with an open socket, whatever the hook calls, every
    message goes on the wire in order, and the stored subscriptions only
    grow: the texts stored before stay in place, the text of every pair or
    pair-stats subscription is added, and no unsubscription removes
    anything (the text [send] looks for has the event [pair] or
    [pair-stats], which no stored text has). The scanner-filter
    subscription is never stored. *)
Theorem service_store_only_grows :
  forall (stringify_data : WS.Data -> string) (sent : list Outgoing) (s : WS.t),
    WS.ws s = Some WS.OPEN ->
    stored_by_send stringify_data s ->
    let s' := WS.calls stringify_data sent s in
    WS.wire s'
    = WS.wire s ++ map (fun o => WS.JSON_stringify stringify_data (message_of o)) sent
    /\ (exists more, WS.subscriptions s' = WS.subscriptions s ++ more)
    /\ (forall text,
           In text (WS.subscriptions s')
           <-> In text (WS.subscriptions s)
               \/ exists o, In o sent /\ is_subscription o = true
                            /\ text = WS.JSON_stringify stringify_data (message_of o))
    /\ stored_by_send stringify_data s'
    /\ WS.ws s' = Some WS.OPEN.
Proof.
  intros stringify_data sent s Hopen Hs s'. subst s'.
  destruct (calls_open_facts stringify_data sent s Hopen Hs) as (Hw & Hin & Hst & Hop).
  split; [exact Hw|]. split; [|split; [exact Hin|split; assumption]].
  clear Hw Hin Hst Hop. revert s Hopen Hs.
  induction sent as [|o rest IH]; intros s Hopen Hs.
  - exists []. now rewrite app_nil_r.
  - unfold WS.calls. cbn [fold_left].
    fold (WS.calls stringify_data rest (snd (WS.call stringify_data o s))).
    pose proof (call_open_stored stringify_data o s Hopen Hs) as Hs1.
    pose proof (call_open stringify_data o s Hopen Hs) as Hc.
    set (s1 := snd (WS.call stringify_data o s)) in *.
    assert (Hopen1 : WS.ws s1 = Some WS.OPEN).
    { subst s1. rewrite Hc. exact Hopen. }
    destruct (IH s1 Hopen1 Hs1) as (more & Hmore).
    rewrite Hmore. subst s1. rewrite Hc. cbn [snd WS.subscriptions].
    destruct (is_subscription o).
    + destruct (JsSet_add_extends
                  (WS.JSON_stringify stringify_data (message_of o))
                  (WS.subscriptions s)) as (m1 & ->).
      exists (m1 ++ more). now rewrite app_assoc.
    + exists more. reflexivity.
Qed.

Lemma service_store_only_grows_witness :
  WS.subscriptions Replay.unsubscribed
  = [WS.JSON_stringify RefJson.stringify_data
       (message_of (OutSubscribePair "0xpair1" "0xtoken1" ETH))]
  /\ exists more, WS.subscriptions Replay.unsubscribed = [] ++ more.
Proof.
  split; [vm_compute; reflexivity|].
  assert (Hs : stored_by_send RefJson.stringify_data Replay.opened).
  { intros text []. }
  exact (proj1 (proj2 (service_store_only_grows RefJson.stringify_data Replay.sent
                         Replay.opened eq_refl Hs))).
Defined.

(** X16. The hook's effect on a service whose socket is open: when the
    effect re-subscribes a non-empty list, the service keeps every text it
    had stored (also those of tokens that are no longer listed, which the
    hook has just unsubscribed), holds the pair and the pair-stats
    subscription of every listed token, and has received two messages per
    key the hook had stored, two per listed token and one scanner
    filter. *)
Theorem effect_keeps_service_store :
  forall (stringify_data : WS.Data -> string) (p : Props) (st : HookState)
         (s : WS.t),
    tokens st <> [] ->
    WS.ws s = Some WS.OPEN ->
    stored_by_send stringify_data s ->
    let s' := WS.calls stringify_data (snd (tokensEffect p true st)) s in
    (forall text, In text (WS.subscriptions s) -> In text (WS.subscriptions s'))
    /\ (forall token, In token (tokens st) ->
          In (WS.JSON_stringify stringify_data
                (message_of (OutSubscribePair (TokenData.pairAddress token)
                               (TokenData.tokenAddress token) (TokenData.chain token))))
             (WS.subscriptions s')
          /\ In (WS.JSON_stringify stringify_data
                   (message_of (OutSubscribePairStats (TokenData.pairAddress token)
                                  (TokenData.tokenAddress token)
                                  (TokenData.chain token))))
                (WS.subscriptions s'))
    /\ List.length (WS.wire s')
       = List.length (WS.wire s) + 2 * List.length (subscriptionsRef st)
         + 2 * List.length (tokens st) + 1.
Proof.
  intros stringify_data p st s Hne Hopen Hs s'.
  assert (Hsent : snd (tokensEffect p true st)
                  = flat_map unsubscribe_messages (subscriptionsRef st)
                    ++ flat_map subscribe_messages (tokens st)
                    ++ [OutScannerFilter (buildApiParams p 1%float)]).
  { unfold tokensEffect. destruct (tokens st) as [|t rest]; [now elim Hne|].
    reflexivity. }
  destruct (calls_open_facts stringify_data (snd (tokensEffect p true st)) s
              Hopen Hs) as (Hw & Hin & _).
  fold s' in Hw, Hin. split; [|split].
  - intros text H. apply Hin. left. exact H.
  - intros token Htoken.
    assert (Hmsgs : forall o, In o (subscribe_messages token) ->
                              In o (snd (tokensEffect p true st))).
    { intros o Ho. rewrite Hsent. apply in_or_app. right. apply in_or_app. left.
      apply in_flat_map. exists token. split; assumption. }
    split; apply Hin; right.
    + eexists. split; [apply Hmsgs; left; reflexivity|]. split; reflexivity.
    + eexists. split; [apply Hmsgs; right; left; reflexivity|]. split; reflexivity.
  - rewrite Hw, length_app, length_map, Hsent, !length_app.
    assert (Hu : forall l, List.length (flat_map unsubscribe_messages l)
                           = 2 * List.length l).
    { induction l as [|x l IH]; [reflexivity|].
      cbn [flat_map]. rewrite length_app, IH. cbn [List.length unsubscribe_messages].
      lia. }
    assert (Hsb : forall l, List.length (flat_map subscribe_messages l)
                            = 2 * List.length l).
    { induction l as [|x l IH]; [reflexivity|].
      cbn [flat_map]. rewrite length_app, IH. cbn [List.length subscribe_messages].
      lia. }
    rewrite Hu, Hsb. cbn [List.length]. lia.
Qed.

Lemma effect_keeps_service_store_witness :
  tokens Fixture.loaded <> []
  /\ (forall text,
         In text (WS.subscriptions Replay.unsubscribed) ->
         In text (WS.subscriptions
                    (WS.calls RefJson.stringify_data
                       (snd (tokensEffect Fixture.defaultProps true Fixture.loaded))
                       Replay.unsubscribed))).
Proof.
  assert (Hne : tokens Fixture.loaded <> []) by (vm_compute; discriminate).
  assert (Hs : stored_by_send RefJson.stringify_data Replay.unsubscribed).
  { intros text [<- | []].
    exists (message_of (OutSubscribePair "0xpair1" "0xtoken1" ETH)).
    split; [vm_compute; reflexivity|left; reflexivity]. }
  split; [exact Hne|].
  exact (proj1 (effect_keeps_service_store RefJson.stringify_data
                  Fixture.defaultProps Fixture.loaded Replay.unsubscribed
                  Hne eq_refl Hs)).
Defined.

Lemma lifecycle_step_facts (s : WS.t) (ev : Lifecycle) :
  WS.shouldReconnect s = true ->
  let s1 := lifecycle_step s ev in
  WS.shouldReconnect s1 = true
  /\ WS.subscriptions s1 = WS.subscriptions s
  /\ WS.wire s1 = WS.wire s
  /\ ((ev = Close /\ WS.reconnectAttempts s < WS.maxReconnectAttempts
       /\ WS.reconnectAttempts s1 = S (WS.reconnectAttempts s)
       /\ WS.timers s1
          = WS.timers s ++ [WS.reconnectDelay * 2 ^ WS.reconnectAttempts s])
      \/ ((ev <> Close \/ WS.maxReconnectAttempts <= WS.reconnectAttempts s)
          /\ WS.reconnectAttempts s1 = WS.reconnectAttempts s
          /\ WS.timers s1 = WS.timers s)).
Proof.
  intros Hsr. destruct ev; cbn [lifecycle_step]; cbv zeta.
  - unfold WS.onclose.
    cbn [WS.shouldReconnect WS.reconnectAttempts WS.set_isConnecting WS.set_ws].
    rewrite Hsr. cbn [andb].
    destruct (Nat.ltb_spec (WS.reconnectAttempts s) WS.maxReconnectAttempts) as [Hlt|Hge].
    + unfold WS.scheduleReconnect.
      cbn [WS.shouldReconnect WS.reconnectAttempts WS.set_isConnecting WS.set_ws
             WS.subscriptions WS.wire WS.timers].
      replace (S (WS.reconnectAttempts s) - 1) with (WS.reconnectAttempts s) by lia.
      split; [exact Hsr|]. split; [reflexivity|]. split; [reflexivity|].
      left. split; [reflexivity|]. split; [exact Hlt|]. split; reflexivity.
    + cbn [WS.shouldReconnect WS.reconnectAttempts WS.set_isConnecting WS.set_ws
             WS.subscriptions WS.wire WS.timers].
      split; [exact Hsr|]. split; [reflexivity|]. split; [reflexivity|].
      right. split; [right; exact Hge|]. split; reflexivity.
  - split; [exact Hsr|]. split; [reflexivity|]. split; [reflexivity|].
    right. split; [left; discriminate|]. split; reflexivity.
  - unfold WS.timeout. rewrite Hsr. unfold WS.connect.
    destruct (WS.isConnecting s || _);
      (split; [exact Hsr|]; split; [reflexivity|]; split; [reflexivity|];
       right; split; [left; discriminate|]; split; reflexivity).
  - unfold WS.connect.
    destruct (WS.isConnecting s || _);
      (split; [exact Hsr|]; split; [reflexivity|]; split; [reflexivity|];
       right; split; [left; discriminate|]; split; reflexivity).
Qed.

(** X17. Reconnection backs off and gives up. However close, error, timer
    and connect events follow each other while the socket does not open,
    each close schedules one retry, the n-th after 1000 * 2^(n-1) ms, until
    five have been scheduled; every later close schedules nothing. The
    stored subscriptions and the wire are not touched. *)
Theorem reconnect_backs_off :
  forall (evs : list Lifecycle) (s : WS.t),
    WS.shouldReconnect s = true ->
    WS.reconnectAttempts s <= WS.maxReconnectAttempts ->
    let s' := lifecycle evs s in
    WS.reconnectAttempts s'
    = Nat.min WS.maxReconnectAttempts (WS.reconnectAttempts s + closes evs)
    /\ WS.timers s'
       = WS.timers s
         ++ map (fun n => WS.reconnectDelay * 2 ^ n)
              (seq (WS.reconnectAttempts s)
                 (WS.reconnectAttempts s' - WS.reconnectAttempts s))
    /\ WS.shouldReconnect s' = true
    /\ WS.subscriptions s' = WS.subscriptions s
    /\ WS.wire s' = WS.wire s.
Proof.
  induction evs as [|ev rest IH]; intros s Hsr Hle; cbv zeta.
  - cbn [lifecycle fold_left closes filter List.length].
    unfold lifecycle. cbn [fold_left].
    rewrite Nat.add_0_r, Nat.min_r by exact Hle.
    rewrite Nat.sub_diag. cbn [seq map]. rewrite app_nil_r. repeat split; assumption.
  - unfold lifecycle. cbn [fold_left]. fold (lifecycle rest (lifecycle_step s ev)).
    destruct (lifecycle_step_facts s ev Hsr) as (Hsr1 & Hsub1 & Hw1 & Hcase).
    set (s1 := lifecycle_step s ev) in *.
    unfold WS.maxReconnectAttempts in *.
    destruct Hcase as [(-> & Hlt & Ha1 & Ht1) | (Hother & Ha1 & Ht1)].
    + assert (Hle1 : WS.reconnectAttempts s1 <= 5) by lia.
      destruct (IH s1 Hsr1 Hle1) as (Ha & Ht & Hsr' & Hsub & Hw).
      unfold closes in *. cbn [filter List.length].
      split; [|split; [|split; [|split]]].
      * rewrite Ha, Ha1. f_equal. lia.
      * rewrite Ht, Ht1, <- app_assoc. f_equal.
        assert (Hk : WS.reconnectAttempts (lifecycle rest s1) - WS.reconnectAttempts s
                     = S (WS.reconnectAttempts (lifecycle rest s1)
                          - WS.reconnectAttempts s1)) by lia.
        rewrite Hk, Ha1. reflexivity.
      * exact Hsr'.
      * now rewrite Hsub.
      * now rewrite Hw.
    + assert (Hle1 : WS.reconnectAttempts s1 <= 5) by lia.
      destruct (IH s1 Hsr1 Hle1) as (Ha & Ht & Hsr' & Hsub & Hw).
      assert (Hc : Nat.min 5 (WS.reconnectAttempts s1 + closes rest)
                   = Nat.min 5 (WS.reconnectAttempts s + closes (ev :: rest))).
      { rewrite Ha1. unfold closes. cbn [filter].
        destruct ev; cbn [List.length]; try reflexivity.
        destruct Hother as [H|H]; [now elim H|]. lia. }
      split; [|split; [|split; [|split]]].
      * rewrite Ha. exact Hc.
      * rewrite Ht, Ht1, Ha1. reflexivity.
      * exact Hsr'.
      * now rewrite Hsub.
      * now rewrite Hw.
Qed.

Lemma reconnect_backs_off_witness :
  WS.timers (lifecycle [Close; Timeout; Error; Close; Timeout; Close; Close; Close;
                        Close; Close] Replay.opened)
  = map (fun n => WS.reconnectDelay * 2 ^ n) (seq 0 5).
Proof.
  pose proof (reconnect_backs_off
                [Close; Timeout; Error; Close; Timeout; Close; Close; Close;
                 Close; Close] Replay.opened eq_refl (Nat.le_0_l _)) as H.
  cbv zeta in H. destruct H as (Ha & Ht & _).
  rewrite Ht, Ha. reflexivity.
Defined.

Lemma lifecycle_after_disconnect (evs : list Lifecycle) : forall (s : WS.t),
  WS.shouldReconnect s = false ->
  WS.shouldReconnect (lifecycle evs s) = false
  /\ WS.timers (lifecycle evs s) = WS.timers s
  /\ WS.reconnectAttempts (lifecycle evs s) = WS.reconnectAttempts s
  /\ WS.subscriptions (lifecycle evs s) = WS.subscriptions s
  /\ WS.wire (lifecycle evs s) = WS.wire s.
Proof.
  induction evs as [|ev rest IH]; intros s Hsr.
  - repeat split; assumption.
  - unfold lifecycle. cbn [fold_left]. fold (lifecycle rest (lifecycle_step s ev)).
    assert (H1 : WS.shouldReconnect (lifecycle_step s ev) = false
                 /\ WS.timers (lifecycle_step s ev) = WS.timers s
                 /\ WS.reconnectAttempts (lifecycle_step s ev) = WS.reconnectAttempts s
                 /\ WS.subscriptions (lifecycle_step s ev) = WS.subscriptions s
                 /\ WS.wire (lifecycle_step s ev) = WS.wire s).
    { destruct ev; cbn [lifecycle_step].
      - unfold WS.onclose.
        cbn [WS.shouldReconnect WS.reconnectAttempts WS.set_isConnecting WS.set_ws].
        rewrite Hsr. cbn [andb]. repeat split; assumption.
      - repeat split; assumption.
      - unfold WS.timeout. rewrite Hsr. repeat split; assumption.
      - unfold WS.connect. destruct (WS.isConnecting s || _); repeat split; assumption. }
    destruct H1 as (A1 & A2 & A3 & A4 & A5).
    destruct (IH _ A1) as (B1 & B2 & B3 & B4 & B5).
    split; [exact B1|]. split; [congruence|]. split; [congruence|].
    split; congruence.
Qed.

(** X18. After [disconnect] the service is silent for good: it is not
    connected, its stored subscriptions are gone, [send] refuses every
    message and changes nothing, a pending timer does nothing, and
    whatever close, error, timer and connect events follow (a new
    [connect] included), no retry is ever scheduled again. *)
Theorem disconnect_is_final :
  forall (stringify_data : WS.Data -> string) (s : WS.t) (evs : list Lifecycle),
    let d := WS.disconnect s in
    WS.isConnected d = false
    /\ WS.subscriptions d = []
    /\ (forall m, WS.send stringify_data m d = (false, d))
    /\ WS.timeout d = d
    /\ WS.shouldReconnect (lifecycle evs d) = false
    /\ WS.timers (lifecycle evs d) = WS.timers s
    /\ WS.subscriptions (lifecycle evs d) = []
    /\ WS.wire (lifecycle evs d) = WS.wire s.
Proof.
  intros stringify_data s evs d.
  destruct (lifecycle_after_disconnect evs d eq_refl) as (B1 & B2 & _ & B4 & B5).
  split; [reflexivity|]. split; [reflexivity|]. split; [intros m; reflexivity|].
  split; [reflexivity|]. split; [exact B1|]. split; [exact B2|].
  split; [exact B4|exact B5].
Qed.

Lemma send_subscription stringify_data (m : WS.Message) (s : WS.t) :
  WS.ws s = Some WS.OPEN ->
  subscription_event (WS.event m) ->
  In (WS.JSON_stringify stringify_data m) (WS.subscriptions s) ->
  WS.send stringify_data m s
  = (true,
     {| WS.ws := WS.ws s; WS.reconnectAttempts := WS.reconnectAttempts s;
        WS.isConnecting := WS.isConnecting s;
        WS.shouldReconnect := WS.shouldReconnect s;
        WS.subscriptions := WS.subscriptions s;
        WS.wire := WS.wire s ++ [WS.JSON_stringify stringify_data m];
        WS.timers := WS.timers s |}).
Proof.
  intros Hopen Hev Hin. unfold WS.send. rewrite Hopen.
  rewrite (JsSet_add_present _ _ Hin).
  destruct Hev as [E|E]; rewrite E; reflexivity.
Qed.

Lemma skipn_nth_error {A} (l : list A) : forall i x,
  nth_error l i = Some x -> skipn i l = x :: skipn (S i) l.
Proof.
  induction l as [|y l IH]; intros [|i] x H; try discriminate H.
  - injection H as ->. reflexivity.
  - cbn [nth_error] in H. exact (IH i x H).
Qed.

Lemma filter_has_firstn (s : JsSet.t) (n : nat) :
  filter (fun x => JsSet.has x s) (firstn n s) = firstn n s.
Proof.
  assert (H : forall l, (forall x, In x l -> In x s) ->
                        filter (fun x => JsSet.has x s) l = l).
  { induction l as [|x l IH]; intros Hl; [reflexivity|].
    cbn [filter].
    assert (E : JsSet.has x s = true).
    { apply existsb_exists. exists x. split; [apply Hl; left; reflexivity|].
      apply String.eqb_refl. }
    rewrite E. f_equal. apply IH. intros y Hy. apply Hl. right. exact Hy. }
  apply H. clear H. revert n. induction s as [|y s' IHs]; intros [|n] x Hx;
    try (now elim Hx).
  cbn [firstn] in Hx. destruct Hx as [<- | Hx]; [left; reflexivity|].
  right. exact (IHs n x Hx).
Qed.

Lemma resubscribeAll_from_replays stringify_data JSON_parse :
  forall (fuel i : nat) (s : WS.t),
    WS.ws s = Some WS.OPEN ->
    parses_back stringify_data JSON_parse s ->
    List.length (WS.subscriptions s) - i <= fuel ->
    WS.resubscribeAll_from stringify_data JSON_parse fuel i s
    = Some {| WS.ws := WS.ws s; WS.reconnectAttempts := WS.reconnectAttempts s;
              WS.isConnecting := WS.isConnecting s;
              WS.shouldReconnect := WS.shouldReconnect s;
              WS.subscriptions := WS.subscriptions s;
              WS.wire := WS.wire s ++ skipn i (WS.subscriptions s);
              WS.timers := WS.timers s |}.
Proof.
  induction fuel as [|fuel IH]; intros i s Hopen Hp Hfuel.
  - cbn [WS.resubscribeAll_from].
    destruct (nth_error (WS.subscriptions s) i) as [text|] eqn:En.
    + assert (i < List.length (WS.subscriptions s)); [|lia].
      apply nth_error_Some. congruence.
    + apply nth_error_None in En. rewrite (skipn_all2 _ En), app_nil_r.
      destruct s; reflexivity.
  - cbn [WS.resubscribeAll_from].
    destruct (nth_error (WS.subscriptions s) i) as [text|] eqn:En.
    + assert (Hi : i < List.length (WS.subscriptions s)).
      { apply nth_error_Some. congruence. }
      destruct (Hp text (nth_error_In _ _ En)) as (m & Em & Et & Hev).
      rewrite Em.
      assert (Hin : In (WS.JSON_stringify stringify_data m) (WS.subscriptions s)).
      { rewrite Et. exact (nth_error_In _ _ En). }
      rewrite (send_subscription stringify_data m s Hopen Hev Hin).
      cbn [snd WS.subscriptions]. rewrite filter_has_firstn.
      rewrite length_firstn, Nat.min_l by lia.
      rewrite IH.
      * cbn [WS.ws WS.reconnectAttempts WS.isConnecting WS.shouldReconnect
               WS.subscriptions WS.wire WS.timers].
        rewrite (skipn_nth_error _ _ _ En), Et, <- app_assoc. reflexivity.
      * exact Hopen.
      * exact Hp.
      * cbn [WS.subscriptions]. lia.
    + apply nth_error_None in En. rewrite (skipn_all2 _ En), app_nil_r.
      destruct s; reflexivity.
Qed.

(** X19. When the socket of a service opens, every stored text is sent
    again, in the order in which it was stored, the set is left as it
    was, and the retry counter starts again at zero. As no unsubscription
    ever removes a text, this replays the subscriptions of pairs the hook
    has unsubscribed. *)
Theorem reopened_socket_replays_store :
  forall (stringify_data : WS.Data -> string)
         (JSON_parse : string -> option WS.Message)
         (fuel : nat) (s : WS.t) (readyState : WS.ReadyState),
    WS.ws s = Some readyState ->
    parses_back stringify_data JSON_parse s ->
    List.length (WS.subscriptions s) <= fuel ->
    WS.onopen stringify_data JSON_parse fuel s
    = Some {| WS.ws := Some WS.OPEN; WS.reconnectAttempts := 0;
              WS.isConnecting := false;
              WS.shouldReconnect := WS.shouldReconnect s;
              WS.subscriptions := WS.subscriptions s;
              WS.wire := WS.wire s ++ WS.subscriptions s;
              WS.timers := WS.timers s |}.
Proof.
  intros stringify_data JSON_parse fuel s readyState Hws Hp Hfuel.
  unfold WS.onopen, WS.resubscribeAll. rewrite Hws.
  rewrite resubscribeAll_from_replays.
  - reflexivity.
  - reflexivity.
  - exact Hp.
  - cbn [WS.subscriptions]. lia.
Qed.

Lemma reopened_socket_replays_store_witness :
  option_map WS.wire
    (WS.onopen RefJson.stringify_data Replay.parse 1 Replay.dropped)
  = Some (map (fun o => WS.JSON_stringify RefJson.stringify_data (message_of o))
            (Replay.sent ++ [OutSubscribePair "0xpair1" "0xtoken1" ETH])).
Proof.
  assert (Hp : parses_back RefJson.stringify_data Replay.parse Replay.dropped).
  { intros text [<- | []].
    exists (message_of (OutSubscribePair "0xpair1" "0xtoken1" ETH)).
    split; [vm_compute; reflexivity|]. split; [vm_compute; reflexivity|].
    left; reflexivity. }
  rewrite (reopened_socket_replays_store RefJson.stringify_data Replay.parse 1
             Replay.dropped WS.CONNECTING eq_refl Hp (le_n 1)).
  vm_compute. reflexivity.
Defined.

(** ** Address display *)

Lemma String_length_app (a b : string) :
  String.length (a ++ b) = String.length a + String.length b.
Proof. induction a as [|c a IH]; simpl; [reflexivity|]. now rewrite IH. Qed.

Lemma String_take_length (s : string) : forall n,
  String.length (String_take n s) = Nat.min n (String.length s).
Proof.
  induction s as [|c s IH]; intros [|n]; simpl; try reflexivity.
  now rewrite IH.
Qed.

Lemma String_drop_length (s : string) : forall n,
  String.length (String_drop n s) = String.length s - n.
Proof.
  induction s as [|c s IH]; intros [|n]; simpl; try reflexivity.
  apply IH.
Qed.

Lemma String_take_drop (s : string) : forall n,
  (String_take n s ++ String_drop n s)%string = s.
Proof.
  induction s as [|c s IH]; intros [|n]; simpl; try reflexivity.
  now rewrite IH.
Qed.

(** X20. An address of at most [start + end] characters is displayed as it
    is. A longer one is cut to [start + 3 + end] characters, its first
    [start], three dots and its last [end], which is longer than the
    address itself when fewer than three characters are left out. With
    [end = 0] nothing is cut at the end: the dots are followed by the
    whole address. *)
Theorem truncateAddress_shape :
  forall (address : string) (start end_ : nat),
    (String.length address <= start + end_ ->
     truncateAddress address start end_ = address)
    /\ (start + end_ < String.length address -> 0 < end_ ->
        String.length (truncateAddress address start end_) = start + 3 + end_
        /\ exists middle,
             address
             = (String_slice_to start address ++ middle
                ++ String_slice_last end_ address)%string
             /\ String.length middle = String.length address - (start + end_)
             /\ truncateAddress address start end_
                = (String_slice_to start address ++ "..."
                   ++ String_slice_last end_ address)%string)
    /\ (start < String.length address ->
        truncateAddress address start 0
        = (String_slice_to start address ++ "..." ++ address)%string).
Proof.
  intros address start end_. unfold truncateAddress. split; [|split].
  - intros H. apply Nat.leb_le in H. now rewrite H.
  - intros H Hend.
    assert (E : Nat.leb (String.length address) (start + end_) = false).
    { apply Nat.leb_gt. exact H. }
    rewrite E. unfold String_slice_to, String_slice_last.
    destruct end_ as [|e]; [lia|]. split.
    + rewrite !String_length_app, String_take_length, String_drop_length.
      cbn [String.length]. lia.
    + exists (String_take (String.length address - (start + S e))
                (String_drop start address)).
      split; [|split; [|reflexivity]].
      * rewrite <- (String_take_drop address start) at 1. f_equal.
        rewrite <- (String_take_drop (String_drop start address)
                      (String.length address - (start + S e))) at 1.
        f_equal.
        assert (Hd : forall a s b, String_drop b (String_drop a s)
                                   = String_drop (a + b) s).
        { induction a as [|a IH]; intros s b; [reflexivity|].
          destruct s as [|c s]; [now destruct b|]. exact (IH s b). }
        rewrite Hd. f_equal. lia.
      * rewrite String_take_length, String_drop_length. lia.
  - intros H.
    assert (E : Nat.leb (String.length address) (start + 0) = false).
    { apply Nat.leb_gt. lia. }
    rewrite E. reflexivity.
Qed.

Lemma truncateAddress_shape_witness :
  truncateAddress "0x12345" 6 4 = "0x12345"%string
  /\ String.length (truncateAddress "0x123456789" 6 4) = 6 + 3 + 4
  /\ truncateAddress "0x123456789" 6 0 = "0x1234...0x123456789"%string.
Proof.
  split; [|split].
  - apply (proj1 (truncateAddress_shape "0x12345" 6 4)). vm_compute. lia.
  - apply (proj1 (proj2 (truncateAddress_shape "0x123456789" 6 4)));
      vm_compute; lia.
  - rewrite (proj2 (proj2 (truncateAddress_shape "0x123456789" 6 0)));
      [reflexivity|vm_compute; lia].
Defined.

(** ** The full-dataset event, in full *)

Lemma new_records_ext incoming : forall (f g : string -> bool),
  (forall k, f k = g k) -> new_records f incoming = new_records g incoming.
Proof.
  induction incoming as [|n rest IH]; intros f g H; [reflexivity|].
  cbn [new_records]. rewrite <- (H (TokenData.id n)).
  destruct (f (TokenData.id n)); [exact (IH f g H)|].
  f_equal. apply IH. intros k. now rewrite H.
Qed.

Lemma new_records_facts incoming : forall (known : string -> bool),
  (forall n, In n (new_records known incoming) ->
     In n incoming /\ known (TokenData.id n) = false
     /\ find (fun x => String.eqb (TokenData.id x) (TokenData.id n)) incoming = Some n)
  /\ (forall n, In n incoming -> known (TokenData.id n) = false ->
        In (TokenData.id n) (ids (new_records known incoming)))
  /\ NoDup (ids (new_records known incoming)).
Proof.
  induction incoming as [|a rest IH]; intros known.
  - split; [intros n []|]. split; [intros n []|constructor].
  - cbn [new_records]. destruct (known (TokenData.id a)) eqn:Ka.
    + destruct (IH known) as (Hin & Hall & Hnd). split; [|split].
      * intros n Hn. destruct (Hin n Hn) as (H1 & H2 & H3).
        split; [right; exact H1|]. split; [exact H2|].
        cbn [find]. destruct (String.eqb_spec (TokenData.id a) (TokenData.id n)) as [E|E].
        -- rewrite E in Ka. congruence.
        -- exact H3.
      * intros n [<- | Hn] Kn; [congruence|]. exact (Hall n Hn Kn).
      * exact Hnd.
    + destruct (IH (fun k => String.eqb (TokenData.id a) k || known k))
        as (Hin & Hall & Hnd).
      split; [|split].
      * intros n [<- | Hn].
        -- split; [left; reflexivity|]. split; [exact Ka|].
           cbn [find]. now rewrite String.eqb_refl.
        -- destruct (Hin n Hn) as (H1 & H2 & H3). cbv beta in H2.
           apply orb_false_iff in H2. destruct H2 as [H2 H2'].
           split; [right; exact H1|]. split; [exact H2'|].
           cbn [find]. rewrite H2. exact H3.
      * intros n Hn Kn. unfold ids. cbn [map].
        destruct (String.eqb_spec (TokenData.id a) (TokenData.id n)) as [E|E].
        -- left. exact E.
        -- right. destruct Hn as [<- | Hn]; [now elim E|].
           apply (Hall n Hn). cbv beta. rewrite Kn.
           apply String.eqb_neq in E. now rewrite E.
      * unfold ids. cbn [map]. constructor; [|exact Hnd].
        intros Hin'. apply in_map_iff in Hin'. destruct Hin' as (n & En & Hn).
        destruct (Hin n Hn) as (_ & H2 & _). cbv beta in H2.
        rewrite En, String.eqb_refl in H2. discriminate H2.
Qed.

(** The second loop, exactly. *)
Lemma add_new_exact incoming : forall r m h,
  let added := new_records (fun k => JsMap.has k m) incoming in
  fst (fst (add_new incoming (r, m, h))) = r ++ added
  /\ (forall k, JsMap.get k (snd (fst (add_new incoming (r, m, h))))
                = match find (fun n => String.eqb (TokenData.id n) k) added with
                  | Some n => Some n
                  | None => JsMap.get k m
                  end)
  /\ JsMap.keys (snd (fst (add_new incoming (r, m, h)))) = JsMap.keys m ++ ids added.
Proof.
  unfold add_new. induction incoming as [|a rest IH]; intros r m h; cbv zeta.
  - cbn. rewrite !app_nil_r. repeat split.
  - cbn [fold_left new_records]. cbv beta.
    assert (Hstep : add_new_step (r, m, h) a
                    = if negb (JsMap.has (TokenData.id a) m)
                      then (r ++ [a], JsMap.set (TokenData.id a) a m, true)
                      else (r, m, h)) by reflexivity.
    rewrite Hstep. clear Hstep.
    destruct (JsMap.has (TokenData.id a) m) eqn:Ha; cbn [negb].
    + exact (IH r m h).
    + destruct (IH (r ++ [a]) (JsMap.set (TokenData.id a) a m) true) as (Hl & Hg & Hk).
      assert (Hext : new_records (fun k => JsMap.has k (JsMap.set (TokenData.id a) a m))
                       rest
                     = new_records (fun k => String.eqb (TokenData.id a) k
                                             || JsMap.has k m) rest).
      { apply new_records_ext. intros k. apply JsMap_has_set. }
      rewrite Hext in Hl, Hg, Hk. split; [|split].
      * rewrite Hl, <- app_assoc. reflexivity.
      * intros k. rewrite Hg. cbn [find].
        destruct (String.eqb_spec (TokenData.id a) k) as [E|E].
        -- destruct (find _ (new_records _ rest)) as [n|] eqn:F.
           ++ exfalso. apply find_some in F. destruct F as [Hn En].
              apply String.eqb_eq in En.
              destruct (new_records_facts rest
                          (fun k => String.eqb (TokenData.id a) k || JsMap.has k m))
                as (Hin & _).
              destruct (Hin n Hn) as (_ & H2 & _). cbv beta in H2.
              rewrite En, <- E, String.eqb_refl in H2. discriminate H2.
           ++ rewrite <- E. apply JsMap_get_set_same.
        -- destruct (find _ (new_records _ rest)); [reflexivity|].
           apply JsMap_get_set_other. exact E.
      * rewrite Hk, JsMap_keys_set, Ha, <- app_assoc. reflexivity.
Qed.

Lemma scanner_patch_replaced incoming token :
  scanner_patch incoming token
  = if replaced incoming token
    then find (fun n => String.eqb (TokenData.id n) (TokenData.id token)) incoming
    else None.
Proof.
  unfold scanner_patch, replaced.
  destruct (find _ incoming) as [n|]; [|reflexivity].
  cbn [orb]. unfold gt. destruct (PrimFloat.ltb _ _); reflexivity.
Qed.

Lemma patched_merged incoming token :
  patched (scanner_patch incoming) token = merged_entity incoming token.
Proof.
  unfold patched, merged_entity. rewrite scanner_patch_replaced. unfold replaced.
  destruct (find _ incoming) as [n|]; [|reflexivity].
  destruct (PrimFloat.ltb _ _); reflexivity.
Qed.

(** The first loop, cell by cell. *)
Lemma scanner_walk_map incoming prev : forall m k,
  let m1 := snd (fst (patch_each (scanner_patch incoming) prev m)) in
  let hit := existsb (fun token => String.eqb (TokenData.id token) k
                                   && replaced incoming token) prev in
  JsMap.get k m1
  = (if hit then find (fun n => String.eqb (TokenData.id n) k) incoming
     else JsMap.get k m)
  /\ JsMap.has k m1 = JsMap.has k m || hit.
Proof.
  induction prev as [|token rest IH]; intros m k; cbv zeta.
  - cbn. rewrite orb_false_r. split; reflexivity.
  - cbn [patch_each existsb]. rewrite scanner_patch_replaced.
    destruct (replaced incoming token) eqn:R.
    + assert (Hf : exists u, find (fun n => String.eqb (TokenData.id n)
                                              (TokenData.id token)) incoming = Some u).
      { unfold replaced in R. destruct (find _ incoming) as [u|]; [|discriminate R].
        now exists u. }
      destruct Hf as (u & Hf). rewrite Hf.
      destruct (IH (JsMap.set (TokenData.id token) u m) k) as [Hg Hh].
      destruct (patch_each (scanner_patch incoming) rest
                  (JsMap.set (TokenData.id token) u m)) as [[r m'] f].
      cbn [fst snd] in *. rewrite Hg, Hh, JsMap_has_set, andb_true_r.
      destruct (String.eqb_spec (TokenData.id token) k) as [E|E].
      * subst k. cbn [orb]. rewrite orb_true_r. split; [|reflexivity].
        destruct (existsb _ rest); [reflexivity|].
        rewrite JsMap_get_set_same. symmetry. exact Hf.
      * cbn [orb]. split; [|reflexivity].
        destruct (existsb _ rest); [reflexivity|].
        apply JsMap_get_set_other. exact E.
    + destruct (IH m k) as [Hg Hh].
      destruct (patch_each (scanner_patch incoming) rest m) as [[r m'] f].
      cbn [fst snd] in *. rewrite andb_false_r. cbn [orb]. split; assumption.
Qed.

Lemma patch_each_keys_listed patch prev : forall m,
  (forall token, In token prev -> JsMap.has (TokenData.id token) m = true) ->
  JsMap.keys (snd (fst (patch_each patch prev m))) = JsMap.keys m.
Proof.
  induction prev as [|token rest IH]; intros m H; [reflexivity|].
  cbn [patch_each]. destruct (patch token) as [u|].
  - assert (H1 : forall t, In t rest ->
                           JsMap.has (TokenData.id t)
                             (JsMap.set (TokenData.id token) u m) = true).
    { intros t Ht. rewrite JsMap_has_set, (H t (or_intror Ht)). apply orb_true_r. }
    specialize (IH (JsMap.set (TokenData.id token) u m) H1).
    destruct (patch_each patch rest (JsMap.set (TokenData.id token) u m))
      as [[r m'] f].
    cbn [fst snd] in *. rewrite IH, JsMap_keys_set, (H token (or_introl eq_refl)).
    reflexivity.
  - specialize (IH m (fun t Ht => H t (or_intror Ht))).
    destruct (patch_each patch rest m) as [[r m'] f]. exact IH.
Qed.

Lemma is_listed_In l k : is_listed l k = true <-> In k (ids l).
Proof.
  unfold is_listed. rewrite existsb_exists. split.
  - intros (x & Hx & E). apply String.eqb_eq in E. now subst x.
  - intros H. exists k. split; [exact H|apply String.eqb_refl].
Qed.

Lemma merged_entity_id incoming token :
  TokenData.id (merged_entity incoming token) = TokenData.id token.
Proof. rewrite <- patched_merged. apply patched_scanner_id. Qed.

Lemma ids_merged incoming prev : ids (map (merged_entity incoming) prev) = ids prev.
Proof.
  unfold ids. rewrite map_map. apply map_ext. intros t. apply merged_entity_id.
Qed.

Lemma known_listed incoming st k :
  same_ids st -> known_after_update incoming st k = is_listed (tokens st) k.
Proof.
  intros Hsame. unfold known_after_update.
  destruct (is_listed (tokens st) k) eqn:L.
  - apply is_listed_In in L. apply Hsame in L. rewrite L. reflexivity.
  - assert (Hn : ~ In k (ids (tokens st))).
    { intros H. apply is_listed_In in H. congruence. }
    apply orb_false_iff. split.
    + destruct (JsMap.has k (tokensMapRef st)) eqn:E; [|reflexivity].
      elim Hn. apply Hsame. exact E.
    + destruct (existsb _ (tokens st)) eqn:E; [|reflexivity].
      elim Hn. apply existsb_exists in E. destruct E as (t & Ht & E).
      apply andb_true_iff in E. destruct E as [E _]. apply String.eqb_eq in E.
      rewrite <- E. apply in_map. exact Ht.
Qed.

(** The merge on any list and map, exactly. *)
Lemma scanner_merge_exact incoming prev m :
  let known := fun k =>
    JsMap.has k m
    || existsb (fun token => String.eqb (TokenData.id token) k
                             && replaced incoming token) prev in
  let added := new_records known incoming in
  let r := fst (fst (scanner_merge incoming prev m)) in
  let m' := snd (fst (scanner_merge incoming prev m)) in
  r = map (merged_entity incoming) prev ++ added
  /\ (forall k,
         JsMap.get k m'
         = match find (fun n => String.eqb (TokenData.id n) k) added with
           | Some n => Some n
           | None =>
               if existsb (fun token => String.eqb (TokenData.id token) k
                                        && replaced incoming token) prev
               then find (fun n => String.eqb (TokenData.id n) k) incoming
               else JsMap.get k m
           end)
  /\ JsMap.keys m'
     = JsMap.keys (snd (fst (patch_each (scanner_patch incoming) prev m)))
       ++ ids added
  /\ JsMap.size m <= JsMap.size m'.
Proof.
  cbv zeta. unfold scanner_merge.
  pose proof (patch_each_tokens (scanner_patch incoming) prev m) as Hr1.
  pose proof (scanner_walk_map incoming prev m) as Hwalk. cbv zeta in Hwalk.
  pose proof (patch_each_map_size (scanner_patch incoming) prev m) as Hs1.
  destruct (patch_each (scanner_patch incoming) prev m) as [[r1 m1] h1].
  cbn [fst snd] in *.
  destruct (add_new_exact incoming r1 m1 h1) as (Hl & Hg & Hk).
  assert (Hext : new_records (fun k => JsMap.has k m1) incoming
                 = new_records
                     (fun k => JsMap.has k m
                               || existsb (fun token =>
                                             String.eqb (TokenData.id token) k
                                             && replaced incoming token) prev)
                     incoming).
  { apply new_records_ext. intros k. exact (proj2 (Hwalk k)). }
  rewrite Hext in Hl, Hg, Hk.
  split; [|split; [|split]].
  - rewrite Hl, Hr1. f_equal. apply map_ext. intros t. apply patched_merged.
  - intros k. rewrite Hg, (proj1 (Hwalk k)). reflexivity.
  - exact Hk.
  - assert (E : JsMap.size (snd (fst (add_new incoming (r1, m1, h1))))
                = JsMap.size m1 + List.length (ids (new_records
                     (fun k => JsMap.has k m
                               || existsb (fun token =>
                                             String.eqb (TokenData.id token) k
                                             && replaced incoming token) prev)
                     incoming))).
    { apply (f_equal (@List.length string)) in Hk.
      unfold JsMap.keys in Hk. rewrite length_app, !length_map in Hk.
      unfold JsMap.size. exact Hk. }
    lia.
Qed.

(** C1. On a full-dataset event, whatever the list and the map hold. The
    list afterwards is the list before, each token at its place and
    replaced by the first record of its id in the batch exactly when that
    record's last-updated time is later, followed by the appended
    records. Appended are the records of the batch whose id the map lacks
    once the listed tokens have been updated, the first record of each id
    only, in the order of the batch. The map cell of an appended id holds
    the appended record, the cell of a replaced token's id holds the
    record that replaced it, every other cell is as before. When list and
    map hold the same ids, the appended records are those whose id is not
    listed, every id of the batch that is not listed is appended once, the
    keys of the map are the former keys followed by the appended ids, and
    list and map hold the same ids again. No listed id is dropped; list
    and map do not shrink; nothing but the list and the map changes. *)
Theorem scanner_pairs_merge_never_shrinks :
  forall parseFloat Date_parse (now : Date) (results_pairs : list ScannerResult.t)
         (st : HookState),
    let incoming := map (scannerResultToToken parseFloat Date_parse now) results_pairs in
    let st' := after_message parseFloat Date_parse now (ScannerPairs results_pairs) st in
    let added := new_records (known_after_update incoming st) incoming in
    tokens st' = map (merged_entity incoming) (tokens st) ++ added
    /\ (forall i token,
           nth_error (tokens st) i = Some token ->
           nth_error (tokens st') i
           = Some
               match find (fun n => String.eqb (TokenData.id n) (TokenData.id token))
                       incoming with
               | Some n =>
                   if PrimFloat.ltb (TokenData.lastUpdated token)
                        (TokenData.lastUpdated n)
                   then n else token
               | None => token
               end)
    /\ NoDup (ids added)
    /\ (forall n, In n added ->
          known_after_update incoming st (TokenData.id n) = false
          /\ find (fun x => String.eqb (TokenData.id x) (TokenData.id n)) incoming
             = Some n)
    /\ (forall n, In n incoming ->
          known_after_update incoming st (TokenData.id n) = false ->
          In (TokenData.id n) (ids added))
    /\ (forall k,
           JsMap.get k (tokensMapRef st')
           = match find (fun n => String.eqb (TokenData.id n) k) added with
             | Some n => Some n
             | None =>
                 if existsb (fun token => String.eqb (TokenData.id token) k
                                          && replaced incoming token) (tokens st)
                 then find (fun n => String.eqb (TokenData.id n) k) incoming
                 else JsMap.get k (tokensMapRef st)
             end)
    /\ (same_ids st ->
        added = new_records (is_listed (tokens st)) incoming
        /\ (forall n, In n added -> ~ In (TokenData.id n) (ids (tokens st)))
        /\ (forall n, In n incoming -> ~ In (TokenData.id n) (ids (tokens st)) ->
                      In (TokenData.id n) (ids added))
        /\ JsMap.keys (tokensMapRef st') = JsMap.keys (tokensMapRef st) ++ ids added
        /\ same_ids st'
        /\ (NoDup (ids (tokens st)) -> NoDup (ids (tokens st'))))
    /\ (coherent st ->
        (forall n, In n incoming -> In (TokenData.id n) (ids (tokens st')))
        /\ coherent st')
    /\ (forall k, In k (ids (tokens st)) -> In k (ids (tokens st')))
    /\ List.length (tokens st) <= List.length (tokens st')
    /\ JsMap.size (tokensMapRef st) <= JsMap.size (tokensMapRef st')
    /\ st' = set_tokens (tokens st') (set_tokensMapRef (tokensMapRef st') st).
Proof.
  intros parseFloat Date_parse now results_pairs st incoming st' added.
  assert (Hframe : st' = set_tokens (tokens st') (set_tokensMapRef (tokensMapRef st') st)).
  { subst st'. unfold after_message, handleWebSocketMessage.
    destruct (scanner_merge _ (tokens st) (tokensMapRef st)) as [[r m] h].
    destruct h; reflexivity. }
  destruct (after_scanner parseFloat Date_parse now results_pairs st) as [Ht Hm].
  fold incoming in Ht, Hm. fold st' in Ht, Hm.
  destruct (scanner_merge_exact incoming (tokens st) (tokensMapRef st))
    as (Hlist & Hcell & Hkeys & Hsize).
  rewrite <- Ht in Hlist. rewrite <- Hm in Hcell, Hkeys, Hsize.
  fold (known_after_update incoming st) in Hlist, Hcell, Hkeys.
  fold added in Hlist, Hcell, Hkeys.
  destruct (new_records_facts incoming (known_after_update incoming st))
    as (Hin & Hall & Hnd).
  fold added in Hin, Hall, Hnd.
  assert (Hids : ids (tokens st') = ids (tokens st) ++ ids added).
  { rewrite Hlist. unfold ids. rewrite map_app. f_equal. apply ids_merged. }
  split; [exact Hlist|]. split.
  { intros i token Hnth. rewrite Hlist.
    rewrite nth_error_app1 by (rewrite length_map; apply nth_error_Some; congruence).
    erewrite map_nth_error by exact Hnth. reflexivity. }
  split; [exact Hnd|]. split.
  { intros n Hn. destruct (Hin n Hn) as (_ & H2 & H3). split; assumption. }
  split; [exact Hall|]. split; [exact Hcell|]. split.
  { intros Hsame.
    assert (Hext : added = new_records (is_listed (tokens st)) incoming).
    { apply new_records_ext. intros k. apply known_listed. exact Hsame. }
    assert (Hnew : forall n, In n added -> ~ In (TokenData.id n) (ids (tokens st))).
    { intros n Hn Hl. destruct (Hin n Hn) as (_ & H2 & _).
      rewrite (known_listed incoming st _ Hsame) in H2.
      apply is_listed_In in Hl. congruence. }
    assert (Hk : JsMap.keys (tokensMapRef st')
                 = JsMap.keys (tokensMapRef st) ++ ids added).
    { rewrite Hkeys. f_equal. apply patch_each_keys_listed.
      intros token Htoken. apply Hsame. apply in_map. exact Htoken. }
    split; [exact Hext|]. split; [exact Hnew|]. split.
    { intros n Hn Hl. apply Hall; [exact Hn|].
      rewrite (known_listed incoming st _ Hsame).
      destruct (is_listed (tokens st) (TokenData.id n)) eqn:L; [|reflexivity].
      elim Hl. apply is_listed_In. exact L. }
    split; [exact Hk|]. split.
    { intros k. rewrite JsMap_has_keys, Hk, Hids, !in_app_iff.
      rewrite <- JsMap_has_keys. split.
      - intros [H|H]; [left; apply Hsame; exact H|right; exact H].
      - intros [H|H]; [left; apply Hsame; exact H|right; exact H]. }
    intros Hnd0. rewrite Hids. apply NoDup_app; [exact Hnd0|exact Hnd|].
    intros k Hk0 Hk1. apply in_map_iff in Hk1. destruct Hk1 as (n & En & Hn).
    apply (Hnew n Hn). rewrite En. exact Hk0. }
  split.
  { intros Hco.
    pose proof (scanner_merge_facts incoming (tokens st) (tokensMapRef st) Hco) as F.
    cbv zeta in F. rewrite <- Ht, <- Hm in F.
    destruct F as (_ & F2 & _ & _ & _ & F6). split; [exact F2|exact F6]. }
  split.
  { intros k Hk. rewrite Hids. apply in_or_app. left. exact Hk. }
  split; [|split; [exact Hsize|exact Hframe]].
  rewrite Hlist, length_app, length_map. lia.
Qed.

Lemma scanner_pairs_merge_never_shrinks_witness :
  same_ids Scenario.ticked
  /\ tokens Scenario.merged
     = [ tick_updatedToken 2%float 2000%float
           (Fixture.normalize 1000%float Fixture.pair1);
         Fixture.normalize 2000%float Fixture.pair2;
         Fixture.normalize 2000%float Fixture.pair3 ]
  /\ JsMap.get "0xpair2" (tokensMapRef Scenario.merged)
     = Some (Fixture.normalize 2000%float Fixture.pair2)
  /\ JsMap.get "0xpair3" (tokensMapRef Scenario.merged)
     = Some (Fixture.normalize 2000%float Fixture.pair3)
  /\ JsMap.keys (tokensMapRef Scenario.merged) = ["0xpair1"; "0xpair2"; "0xpair3"]
  /\ same_ids Scenario.merged.
Proof.
  assert (Hsame : same_ids Scenario.ticked).
  { intros k. split; intros H.
    - apply JsMap_has_keys in H. vm_compute in H. vm_compute. exact H.
    - apply JsMap_has_keys. vm_compute in H. vm_compute. exact H. }
  pose proof (scanner_pairs_merge_never_shrinks RefParse.parseFloat Fixture.Date_parse
                2000%float Scenario.batch Scenario.ticked) as H.
  cbv zeta in H.
  destruct H as (Hlist & _ & _ & _ & _ & Hcell & Hsameids & _).
  destruct (Hsameids Hsame) as (_ & _ & _ & Hkeys & Hsame' & _).
  split; [exact Hsame|]. split; [|split; [|split; [|split]]].
  - unfold Scenario.merged. rewrite Hlist. vm_compute. reflexivity.
  - unfold Scenario.merged. rewrite Hcell. vm_compute. reflexivity.
  - unfold Scenario.merged. rewrite Hcell. vm_compute. reflexivity.
  - unfold Scenario.merged. rewrite Hkeys. vm_compute. reflexivity.
  - exact Hsame'.
Defined.
